(** * Engagement and content graph of the video-sharing backend

    A shallow embedding of the route handlers of [routes/videos.js],
    [routes/users.js] and the comment router, over a store that holds the
    four Mongoose collections ([User], [Video], [Comment], [Subscription]).

    Conventions of the embedding:
    - an [ObjectId] is represented by its canonical [toString()] form (24
      hexadecimal digits in lower case), the form in which the handlers
      compare identifiers, and the keys of a collection are the identifiers
      of its documents;
    - the [:id] parameter of the video and comment routes and the
      [parentCommentId] of a request are taken in that same form, on which
      the cast that Mongoose applies to them is the identity: a statement
      about an identifier that is not the key of a stored document says so
      with [canonical]. The [:channelId] parameter of the subscription
      routes, which the handler also compares as a raw string, is a raw
      string that the Mongoose calls cast ([castObjectId]);
    - a string is the sequence of its bytes; [trim] and the length
      validators agree with JavaScript on text of the ASCII range, and a
      statement that depends on them says so with [is_ascii];
    - a collection is a finite map from [_id] to the other fields of the
      document; a document in the hands of a route is the pair of its [_id]
      and its fields;
    - a handler is a computation in the [Route] monad: it reads and writes
      the store, may answer early ([return res.status(..).json(..)]), may
      throw (caught by the handler's [try]/[catch], which answers 500), and
      records every write it issues to the store;
    - the clock, freshly generated identifiers and the decoded token are
      inputs of a request; the text index of MongoDB is a parameter. *)

From Stdlib Require Import ZArith QArith Lqa Ascii.
From stdpp Require Import gmap strings list fin_maps sorting.

#[local] Open Scope string_scope.
#[local] Open Scope list_scope.
#[local] Open Scope nat_scope.
#[local] Open Scope stdpp_scope.

Abbreviation ObjectId := string.

(** A document: its [_id] and its fields. *)
Abbreviation Doc A := (ObjectId * A)%type.

(** ** Documents *)

(** Modelled from the spec: the User schema (models/User.js) is not part of
    the sources; the fields are the ones the routes read and write, with the
    two relationship arrays [subscribers] and [subscribedTo] of the spec's
    data model. *)
Record User := mkUser {
  username : string;
  bio : string;
  profilePicture : string;
  isAdmin : bool;
  subscribers : list ObjectId;
  subscribedTo : list ObjectId
}.

(** [videoSchema], with [timestamps: true]. *)
Record Video := mkVideo {
  title : option string;
  description : option string;
  videoUrl : string;
  thumbnailUrl : string;
  duration : Q;
  v_user : ObjectId;
  views : Z;
  category : string;
  tags : list string;
  likes : list ObjectId;
  dislikes : list ObjectId;
  createdAt : Z;
  updatedAt : Z
}.

(** [commentSchema], with [timestamps: true]. *)
Record Comment := mkComment {
  content : string;
  c_user : ObjectId;
  c_video : ObjectId;
  c_likes : list ObjectId;
  c_dislikes : list ObjectId;
  replies : list ObjectId;
  parentComment : option ObjectId;
  c_createdAt : Z;
  c_updatedAt : Z
}.

(** [subscriptionSchema]: the normalized edge collection. *)
Record Subscription := mkSubscription {
  subscriber : ObjectId;
  channel : ObjectId;
  s_createdAt : Z;
  s_updatedAt : Z
}.

(** The persistent store: one finite map per Mongoose model. *)
Record Db := mkDb {
  users : gmap string User;
  videos : gmap string Video;
  comments : gmap string Comment;
  subscriptions : gmap string Subscription
}.

(** *** Field assignment *)

Definition set_subscribers (l : list ObjectId) (u : User) : User :=
  mkUser (username u) (bio u) (profilePicture u) (isAdmin u)
         l (subscribedTo u).
Definition set_subscribedTo (l : list ObjectId) (u : User) : User :=
  mkUser (username u) (bio u) (profilePicture u) (isAdmin u)
         (subscribers u) l.
Definition set_username (s : string) (u : User) : User :=
  mkUser s (bio u) (profilePicture u) (isAdmin u)
         (subscribers u) (subscribedTo u).
Definition set_bio (s : string) (u : User) : User :=
  mkUser (username u) s (profilePicture u) (isAdmin u)
         (subscribers u) (subscribedTo u).
Definition set_profilePicture (s : string) (u : User) : User :=
  mkUser (username u) (bio u) s (isAdmin u)
         (subscribers u) (subscribedTo u).

Definition set_title (t : option string) (v : Video) : Video :=
  mkVideo t (description v) (videoUrl v) (thumbnailUrl v)
          (duration v) (v_user v) (views v) (category v) (tags v)
          (likes v) (dislikes v) (createdAt v) (updatedAt v).
Definition set_description (d : option string) (v : Video) : Video :=
  mkVideo (title v) d (videoUrl v) (thumbnailUrl v)
          (duration v) (v_user v) (views v) (category v) (tags v)
          (likes v) (dislikes v) (createdAt v) (updatedAt v).
Definition set_category (c : string) (v : Video) : Video :=
  mkVideo (title v) (description v) (videoUrl v) (thumbnailUrl v)
          (duration v) (v_user v) (views v) c (tags v)
          (likes v) (dislikes v) (createdAt v) (updatedAt v).
Definition set_tags (t : list string) (v : Video) : Video :=
  mkVideo (title v) (description v) (videoUrl v) (thumbnailUrl v)
          (duration v) (v_user v) (views v) (category v) t
          (likes v) (dislikes v) (createdAt v) (updatedAt v).
Definition set_views (n : Z) (v : Video) : Video :=
  mkVideo (title v) (description v) (videoUrl v) (thumbnailUrl v)
          (duration v) (v_user v) n (category v) (tags v)
          (likes v) (dislikes v) (createdAt v) (updatedAt v).
Definition set_likes (l : list ObjectId) (v : Video) : Video :=
  mkVideo (title v) (description v) (videoUrl v) (thumbnailUrl v)
          (duration v) (v_user v) (views v) (category v) (tags v)
          l (dislikes v) (createdAt v) (updatedAt v).
Definition set_dislikes (l : list ObjectId) (v : Video) : Video :=
  mkVideo (title v) (description v) (videoUrl v) (thumbnailUrl v)
          (duration v) (v_user v) (views v) (category v) (tags v)
          (likes v) l (createdAt v) (updatedAt v).
Definition set_updatedAt (t : Z) (v : Video) : Video :=
  mkVideo (title v) (description v) (videoUrl v) (thumbnailUrl v)
          (duration v) (v_user v) (views v) (category v) (tags v)
          (likes v) (dislikes v) (createdAt v) t.

(** The two timestamps of a document that is saved for the first time. *)
Definition stamp_video (t : Z) (v : Video) : Video :=
  mkVideo (title v) (description v) (videoUrl v) (thumbnailUrl v)
          (duration v) (v_user v) (views v) (category v) (tags v)
          (likes v) (dislikes v) t t.

Definition set_content (s : string) (c : Comment) : Comment :=
  mkComment s (c_user c) (c_video c) (c_likes c) (c_dislikes c)
            (replies c) (parentComment c) (c_createdAt c) (c_updatedAt c).
Definition set_c_likes (l : list ObjectId) (c : Comment) : Comment :=
  mkComment (content c) (c_user c) (c_video c) l (c_dislikes c)
            (replies c) (parentComment c) (c_createdAt c) (c_updatedAt c).
Definition set_c_dislikes (l : list ObjectId) (c : Comment) : Comment :=
  mkComment (content c) (c_user c) (c_video c) (c_likes c) l
            (replies c) (parentComment c) (c_createdAt c) (c_updatedAt c).
Definition set_replies (l : list ObjectId) (c : Comment) : Comment :=
  mkComment (content c) (c_user c) (c_video c) (c_likes c)
            (c_dislikes c) l (parentComment c) (c_createdAt c) (c_updatedAt c).
Definition set_c_updatedAt (t : Z) (c : Comment) : Comment :=
  mkComment (content c) (c_user c) (c_video c) (c_likes c)
            (c_dislikes c) (replies c) (parentComment c) (c_createdAt c) t.

Definition stamp_comment (t : Z) (c : Comment) : Comment :=
  mkComment (content c) (c_user c) (c_video c) (c_likes c)
            (c_dislikes c) (replies c) (parentComment c) t t.

Definition set_users (m : gmap string User) (db : Db) : Db :=
  mkDb m (videos db) (comments db) (subscriptions db).
Definition set_videos (m : gmap string Video) (db : Db) : Db :=
  mkDb (users db) m (comments db) (subscriptions db).
Definition set_comments (m : gmap string Comment) (db : Db) : Db :=
  mkDb (users db) (videos db) m (subscriptions db).

(** ** JavaScript and Mongoose array helpers *)

(** [arr.includes(x)] on an array of ObjectIds (Mongoose compares the
    identifiers, not the object references). *)
Definition includes (x : ObjectId) (arr : list ObjectId) : bool :=
  bool_decide (x ∈ arr).

(** [arr.filter(id => id.toString() !== x.toString())], which is also what
    the update operator [$pull] does with a scalar. *)
Definition without (x : ObjectId) (arr : list ObjectId) : list ObjectId :=
  filter (λ i, i ≠ x) arr.

(** [arr.push(x)], which is also what [$push] does. *)
Definition push (x : ObjectId) (arr : list ObjectId) : list ObjectId :=
  arr ++ [x].

(** Truthiness of a request string: [undefined] and [""] are falsy. *)
Definition truthy (s : option string) : bool :=
  match s with
  | None => false
  | Some s => negb (String.eqb s "")
  end.

(** [a || b] with [a] an optional string and [b] a string. *)
Definition or_else (a : option string) (b : string) : string :=
  match a with
  | Some s => if String.eqb s "" then b else s
  | None => b
  end.

(** [s.trim()] on text of the ASCII range: the white space stripped is the
    ASCII one (bytes 9 to 13 and 32). JavaScript also strips the white
    space characters outside that range, which [is_ascii] text has not. *)
Fixpoint trimStart (s : string) : string :=
  match s with
  | String a s' => if Ascii.is_space a then trimStart s' else s
  | EmptyString => EmptyString
  end.
Definition trim (s : string) : string :=
  String.rev (trimStart (String.rev (trimStart s))).

(** [s.split(',')]: the pieces between the commas, empty pieces included. *)
Fixpoint split_go (cur : string) (s : string) : list string :=
  match s with
  | EmptyString => [String.rev cur]
  | String a s' =>
      if Ascii.eqb a ","%char then String.rev cur :: split_go EmptyString s'
      else split_go (String a cur) s'
  end.
Definition split_comma (s : string) : list string := split_go EmptyString s.

(** [tags ? tags.split(',').map(tag => tag.trim()) : []] *)
Definition parse_tags (tags : option string) : list string :=
  match tags with
  | Some t => if truthy (Some t) then trim <$> split_comma t else []
  | None => []
  end.

(** ** Identifiers and text in requests *)

(** [/[0-9a-fA-F]/] *)
Definition is_hex (a : ascii) : bool :=
  let n := nat_of_ascii a in
  (48 <=? n) && (n <=? 57) || (65 <=? n) && (n <=? 70)
  || (97 <=? n) && (n <=? 102).

(** The lower-case form of a letter. *)
Definition to_lower (a : ascii) : ascii :=
  let n := nat_of_ascii a in
  if (65 <=? n) && (n <=? 90) then ascii_of_nat (n + 32) else a.

Fixpoint lowercase (s : string) : string :=
  match s with
  | String a s' => String (to_lower a) (lowercase s')
  | EmptyString => EmptyString
  end.

Fixpoint all_hex (s : string) : bool :=
  match s with
  | String a s' => is_hex a && all_hex s'
  | EmptyString => true
  end.

(** The cast of a string to an [ObjectId], which Mongoose applies to the
    identifiers of queries and updates: a string of 24 hexadecimal digits
    is the identifier with these digits, whose [toString()] has them in
    lower case; any other string is a [CastError]. *)
Definition castObjectId (s : string) : option ObjectId :=
  if (String.length s =? 24) && all_hex s then Some (lowercase s) else None.

(** A string in the form of [ObjectId.toString()]. *)
Definition canonical (s : string) : Prop := castObjectId s = Some s.

(** Text of the ASCII range. *)
Definition is_ascii (s : string) : bool :=
  forallb (λ a, nat_of_ascii a <? 128) (String.list_ascii_of_string s).

Definition ascii_opt (s : option string) : bool :=
  match s with
  | Some s => is_ascii s
  | None => true
  end.

(** ** Responses *)

Inductive Json :=
| Message (message : string)
| Counts (likes dislikes : nat)
| LikeStatus (liked disliked : bool)
| IsSubscribed (isSubscribed : bool)
| ViewCount (views : Z)
| VideoDoc (v : Doc Video)
| VideoDocs (vs : list (Doc Video))
| CommentDoc (c : Doc Comment)
| CommentDocs (cs : list (Doc Comment))
| UserDoc (u : option (Doc User)).

Record Response := mkResponse { status : Z; body : Json }.

(** [res.json(j)] answers with status 200. *)
Definition json (j : Json) : Response := mkResponse 200 j.
(** [res.status(n).json({ message })] *)
Definition status_message (n : Z) (m : string) : Response :=
  mkResponse n (Message m).

(** ** The route monad *)

Inductive Model := MUser | MVideo | MComment | MSubscription.

(** A write issued to the store, by the Mongoose call that issues it. *)
Inductive Write :=
| Save (m : Model) (id : ObjectId)
| FindByIdAndUpdate (m : Model) (id : ObjectId)
| FindByIdAndDelete (m : Model) (id : ObjectId)
| DeleteMany (m : Model).

Inductive Outcome (A : Type) :=
| Next (a : A)
| Sent (r : Response)
| Thrown.
Arguments Next {A} a.
Arguments Sent {A} r.
Arguments Thrown {A}.

Definition Route (A : Type) : Type := Db → Outcome A * Db * list Write.

#[global] Instance Route_ret : MRet Route := λ A a db, (Next a, db, []).
#[global] Instance Route_bind : MBind Route := λ A B f m db,
  match m db with
  | (Next a, db', w) => let '(o, db'', w') := f a db' in (o, db'', w ++ w')
  | (Sent r, db', w) => (Sent r, db', w)
  | (Thrown, db', w) => (Thrown, db', w)
  end.

(** [return res.status(..).json(..)]: answer and leave the handler. *)
Definition send {A} (r : Response) : Route A := λ db, (Sent r, db, []).
(** An exception, on its way to the handler's [catch]. *)
Definition throw {A} : Route A := λ db, (Thrown, db, []).
(** [if (c) return res...] *)
Definition when_ (c : bool) (r : Response) : Route unit :=
  if c then send r else mret ().
(** [if (!x) return res...] for a looked-up document. *)
Definition or_send {A} (r : Response) (x : option A) : Route A :=
  match x with
  | Some a => mret a
  | None => send r
  end.

(** A Mongoose call on an identifier given as a string: the string is
    cast, and a [CastError] is thrown when it is no identifier. *)
Definition casting {A} (id : string) (call : ObjectId → Route A) : Route A :=
  match castObjectId id with
  | Some id => call id
  | None => throw
  end.

Definition read {A} (f : Db → A) : Route A := λ db, (Next (f db), db, []).
Definition write (f : Db → Db) (w : Write) : Route unit :=
  λ db, (Next (), f db, [w]).

(** [try { ... } catch (error) { res.status(500).json({ message }) }] *)
Definition try_catch (h : Route Response) (message : string) (db : Db)
  : Response * Db * list Write :=
  match h db with
  | (Next r, db', w) => (r, db', w)
  | (Sent r, db', w) => (r, db', w)
  | (Thrown, db', w) => (status_message 500 message, db', w)
  end.

(** ** Queries *)

(** The value a query sees at a path of a document. *)
Inductive Field :=
| FNull
| FStr (s : string)
| FArr (l : list string).

(** The conditions the routes put on a path. *)
Inductive Cond :=
| Is (x : string)          (* { path: x } *)
| IsNull                   (* { path: null } *)
| Ne (x : string)          (* { path: { $ne: x } } *)
| Nin (xs : list string).  (* { path: { $nin: xs } } *)

(** A JavaScript object literal [{ k1: v1, k2: v2, ... }]: the properties
    are defined from left to right, and a later property with the same key
    replaces the earlier one. *)
Definition object_literal {A} (props : list (string * A)) : gmap string A :=
  foldl (λ o kv, <[kv.1 := kv.2]> o) ∅ props.

(** Equality as MongoDB matches it: a scalar path equals the value, an array
    path contains it. *)
Definition field_is (x : string) (f : Field) : bool :=
  match f with
  | FNull => false
  | FStr s => bool_decide (s = x)
  | FArr l => bool_decide (x ∈ l)
  end.

Definition cond_holds (c : Cond) (f : Field) : bool :=
  match c with
  | Is x => field_is x f
  | IsNull => match f with FNull => true | _ => false end
  | Ne x => negb (field_is x f)
  | Nin xs => forallb (λ x, negb (field_is x f)) xs
  end.

(** A document matches a query when every property of the query holds. *)
Definition matches {D} (path : string → Doc D → Field)
    (q : gmap string Cond) (d : Doc D) : bool :=
  bool_decide (map_Forall (λ p c, cond_holds c (path p d) = true) q).

(** [Model.find(q)]: the matching documents of a collection. *)
Definition find {D} (path : string → Doc D → Field) (q : gmap string Cond)
    (coll : gmap string D) : list (Doc D) :=
  filter (λ d, matches path q d = true) (map_to_list coll).

(** What [Model.deleteMany(q)] leaves in a collection. *)
Definition deleteMany {D} (path : string → Doc D → Field)
    (q : gmap string Cond) (coll : gmap string D) : gmap string D :=
  filter (λ d, matches path q d = false) coll.

Definition user_path (p : string) (d : Doc User) : Field :=
  let u := d.2 in
  if String.eqb p "_id" then FStr d.1
  else if String.eqb p "username" then FStr (username u)
  else if String.eqb p "subscribers" then FArr (subscribers u)
  else if String.eqb p "subscribedTo" then FArr (subscribedTo u)
  else FNull.

Definition video_path (p : string) (d : Doc Video) : Field :=
  let v := d.2 in
  if String.eqb p "_id" then FStr d.1
  else if String.eqb p "user" then FStr (v_user v)
  else if String.eqb p "category" then FStr (category v)
  else if String.eqb p "likes" then FArr (likes v)
  else if String.eqb p "dislikes" then FArr (dislikes v)
  else FNull.

Definition comment_path (p : string) (d : Doc Comment) : Field :=
  let c := d.2 in
  if String.eqb p "_id" then FStr d.1
  else if String.eqb p "user" then FStr (c_user c)
  else if String.eqb p "video" then FStr (c_video c)
  else if String.eqb p "parentComment" then
    match parentComment c with Some x => FStr x | None => FNull end
  else if String.eqb p "likes" then FArr (c_likes c)
  else if String.eqb p "dislikes" then FArr (c_dislikes c)
  else if String.eqb p "replies" then FArr (replies c)
  else FNull.

(** ** Sorting and limiting *)

(** [{ key: -1 }] on a numeric path. *)
Definition desc {A} (key : A → Z) (x y : A) : comparison :=
  (key y ?= key x)%Z.
(** [{ key: 1 }] on a numeric path. *)
Definition asc {A} (key : A → Z) (x y : A) : comparison :=
  (key x ?= key y)%Z.
(** [{ score: { $meta: 'textScore' } }]: highest score first. *)
Definition desc_score {A} (key : A → Q) (x y : A) : comparison :=
  (key y ?= key x)%Q.
(** A sort document with two keys: the second key decides between documents
    that the first key does not separate. *)
Definition then_by {A} (c1 c2 : A → A → comparison) (x y : A) : comparison :=
  match c1 x y with
  | Eq => c2 x y
  | c => c
  end.

(** [x] may come before [y] in the order of the comparator. *)
Definition before {A} (cmp : A → A → comparison) : relation A :=
  λ x y, cmp x y ≠ Gt.

(** [.sort(spec)] *)
Definition sort_by {A} (cmp : A → A → comparison) (l : list A) : list A :=
  merge_sort (before cmp) l.

(** [.limit(n)]; MongoDB takes a limit of 0 as no limit. *)
Definition limit {A} (n : nat) (l : list A) : list A :=
  match n with
  | 0 => l
  | S _ => take n l
  end.

(** ** Schema validation *)

(** The [enum] of [videoSchema.category]. *)
Definition categories : list string :=
  [ "Entertainment"; "Music"; "Sports"; "Gaming"; "Education";
    "Science & Technology"; "Travel"; "News"; "Comedy"; "Vlogs";
    "Documentaries"; "Food"; "Fashion"; "Beauty"; "Pets & Animals" ].

(** [required: true] on a String path: present and not empty. *)
Definition required (s : option string) : bool := truthy s.

(** [maxlength: n] on a String path; an absent value passes. The length
    is the number of bytes, which on [is_ascii] text is the number of
    UTF-16 units that Mongoose counts (and is never less than it). *)
Definition maxlength (n : nat) (s : option string) : bool :=
  match s with
  | Some s => String.length s <=? n
  | None => true
  end.

(** The validators of one path of [videoSchema]. *)
Definition validate_video_path (v : Video) (p : string) : bool :=
  if String.eqb p "title" then required (title v) && maxlength 100 (title v)
  else if String.eqb p "description" then maxlength 5000 (description v)
  else if String.eqb p "videoUrl" then required (Some (videoUrl v))
  else if String.eqb p "thumbnailUrl" then required (Some (thumbnailUrl v))
  else if String.eqb p "category" then bool_decide (category v ∈ categories)
  else true.

(** The validators of one path of [commentSchema]. *)
Definition validate_comment_path (c : Comment) (p : string) : bool :=
  if String.eqb p "content" then
    required (Some (content c)) && maxlength 1000 (Some (content c))
  else true.

Definition video_paths : list string :=
  [ "title"; "description"; "videoUrl"; "thumbnailUrl"; "duration"; "user";
    "views"; "category"; "tags"; "likes"; "dislikes" ].
Definition comment_paths : list string :=
  [ "content"; "user"; "video"; "likes"; "dislikes"; "replies";
    "parentComment" ].

Definition changed {D A} `{EqDecision A} (f : D → A) (p : string)
    (orig d : D) : list string :=
  if decide (f orig = f d) then [] else [p].

(** The paths of a loaded video that the routes have assigned a different
    value to. *)
Definition video_modifiedPaths (orig v : Video) : list string :=
  changed title "title" orig v ++ changed description "description" orig v
  ++ changed category "category" orig v ++ changed tags "tags" orig v
  ++ changed likes "likes" orig v ++ changed dislikes "dislikes" orig v.

Definition comment_modifiedPaths (orig c : Comment) : list string :=
  changed content "content" orig c ++ changed c_likes "likes" orig c
  ++ changed c_dislikes "dislikes" orig c.

(** ** The Mongoose calls of the routes *)

(** *** [User] *)

(** The [find..] calls below take the identifier after the cast: an
    [ObjectId] in canonical form. A route that passes a raw parameter on
    which the cast matters goes through [casting]. *)

Definition User_findById (id : ObjectId) : Route (option User) :=
  read (λ db, users db !! id).

Definition User_findOne (q : gmap string Cond) : Route (option (Doc User)) :=
  read (λ db, head (find user_path q (users db))).

(** [User.findByIdAndUpdate(id, update, { new: true })]: nothing happens
    when no user has that [_id]; the answer is the updated document. *)
Definition User_findByIdAndUpdate (id : ObjectId) (update : User → User)
  : Route (option User) :=
  λ db, (Next (update <$> users db !! id),
         set_users (alter update id (users db)) db,
         [FindByIdAndUpdate MUser id]).

(** *** [Video] *)

Definition Video_findById (id : ObjectId) : Route (option Video) :=
  read (λ db, videos db !! id).

Definition Video_find (q : gmap string Cond) : Route (list (Doc Video)) :=
  read (λ db, find video_path q (videos db)).

(** [Video.exists(q)], as a truth value. *)
Definition Video_exists (q : gmap string Cond) : Route bool :=
  read (λ db, bool_decide (find video_path q (videos db) ≠ [])).

(** [video.save()] on a document made by [new Video(..)]: every path is
    validated, then the document is inserted with its two timestamps; an
    [_id] already in the collection is a duplicate key error. *)
Definition Video_create (now : Z) (id : ObjectId) (v : Video) : Route Video :=
  λ db,
    if forallb (validate_video_path v) video_paths then
      match videos db !! id with
      | Some _ => (Thrown, db, [Save MVideo id])
      | None =>
          let v' := stamp_video now v in
          (Next v', set_videos (<[id := v']> (videos db)) db,
           [Save MVideo id])
      end
    else (Thrown, db, []).

(** [video.save()] on a document loaded by [findById]: every path of the
    document is validated, the loaded ones as well as the modified ones;
    then the modified paths are written and [updatedAt] is set; an
    unmodified document is not written. *)
Definition Video_save (now : Z) (id : ObjectId) (v : Video) : Route Video :=
  λ db,
    match videos db !! id with
    | None => (Thrown, db, [Save MVideo id])
    | Some orig =>
        let paths := video_modifiedPaths orig v in
        if forallb (validate_video_path v) video_paths then
          match paths with
          | [] => (Next v, db, [])
          | _ :: _ =>
              let v' := set_updatedAt now v in
              (Next v', set_videos (<[id := v']> (videos db)) db,
               [Save MVideo id])
          end
        else (Thrown, db, [])
    end.

(** [Video.findByIdAndUpdate(id, update, { new: true })] *)
Definition Video_findByIdAndUpdate (now : Z) (id : ObjectId)
    (update : Video → Video) : Route (option Video) :=
  λ db, let upd v := set_updatedAt now (update v) in
        (Next (upd <$> videos db !! id),
         set_videos (alter upd id (videos db)) db,
         [FindByIdAndUpdate MVideo id]).

Definition Video_findByIdAndDelete (id : ObjectId) : Route unit :=
  write (λ db, set_videos (delete id (videos db)) db)
        (FindByIdAndDelete MVideo id).

(** *** [Comment] *)

Definition Comment_findById (id : ObjectId) : Route (option Comment) :=
  read (λ db, comments db !! id).

Definition Comment_find (q : gmap string Cond) : Route (list (Doc Comment)) :=
  read (λ db, find comment_path q (comments db)).

Definition Comment_create (now : Z) (id : ObjectId) (c : Comment)
  : Route Comment :=
  λ db,
    if forallb (validate_comment_path c) comment_paths then
      match comments db !! id with
      | Some _ => (Thrown, db, [Save MComment id])
      | None =>
          let c' := stamp_comment now c in
          (Next c', set_comments (<[id := c']> (comments db)) db,
           [Save MComment id])
      end
    else (Thrown, db, []).

Definition Comment_save (now : Z) (id : ObjectId) (c : Comment)
  : Route Comment :=
  λ db,
    match comments db !! id with
    | None => (Thrown, db, [Save MComment id])
    | Some orig =>
        let paths := comment_modifiedPaths orig c in
        if forallb (validate_comment_path c) comment_paths then
          match paths with
          | [] => (Next c, db, [])
          | _ :: _ =>
              let c' := set_c_updatedAt now c in
              (Next c', set_comments (<[id := c']> (comments db)) db,
               [Save MComment id])
          end
        else (Thrown, db, [])
    end.

Definition Comment_findByIdAndUpdate (now : Z) (id : ObjectId)
    (update : Comment → Comment) : Route (option Comment) :=
  λ db, let upd c := set_c_updatedAt now (update c) in
        (Next (upd <$> comments db !! id),
         set_comments (alter upd id (comments db)) db,
         [FindByIdAndUpdate MComment id]).

Definition Comment_deleteMany (q : gmap string Cond) : Route unit :=
  write (λ db, set_comments (deleteMany comment_path q (comments db)) db)
        (DeleteMany MComment).

Definition Comment_findByIdAndDelete (id : ObjectId) : Route unit :=
  write (λ db, set_comments (delete id (comments db)) db)
        (FindByIdAndDelete MComment id).

(** ** Middleware *)

(** What [jwt.verify] makes of the cookie. *)
Inductive Token :=
| NoToken
| InvalidToken
| ValidToken (id : ObjectId).

(** [exports.authenticate], up to [next()]; the document it attaches to the
    request is its result. *)
Definition authenticate (token : Token) : Route (Doc User) :=
  match token with
  | NoToken => send (status_message 401 "Authentication required")
  | InvalidToken => throw
  | ValidToken id =>
      user ← User_findById id;
      user ← or_send (status_message 401 "User not found") user;
      mret (id, user)
  end.

(** A route behind [authenticate]. *)
Definition authenticated (token : Token)
    (handler : Doc User → Db → Response * Db * list Write) (db : Db)
  : Response * Db * list Write :=
  match authenticate token db with
  | (Next user, db', w) =>
      let '(r, db'', w') := handler user db' in (r, db'', w ++ w')
  | (Sent r, db', w) => (r, db', w)
  | (Thrown, db', w) => (status_message 401 "Invalid token", db', w)
  end.

(** [video.user.toString() !== req.user._id.toString() && !req.user.isAdmin] *)
Definition not_authorized (owner : ObjectId) (user : Doc User) : bool :=
  negb (String.eqb owner user.1) && negb (isAdmin user.2).

(** ** Request inputs *)

(** The fields of [req.body] that the video routes read. *)
Record VideoBody := mkVideoBody {
  b_title : option string;
  b_description : option string;
  b_category : option string;
  b_tags : option string
}.

(** [req.files] after [videoUpload]: the paths of the stored files. *)
Record Files := mkFiles {
  f_video : option string;
  f_thumbnail : option string
}.

(** The outcome of [profilePicUpload]. *)
Inductive Upload :=
| UploadError (limit_file_size : bool) (message : string)
| NoFile
| File (path : string).

(** [a || b] for two optional strings. *)
Definition or_opt (a b : option string) : option string :=
  if truthy a then a else b.

Section Routes.

(** MongoDB's text index on [title], [description] and [tags]: the relevance
    of a video for a search string, [None] when the video does not match. *)
Variable textScore : string → Video → option Q.

(** [Video.find({ $text: { $search: q } }, { score: { $meta: 'textScore' } })] *)
Definition Video_find_text (q : string) : Route (list (Doc Video)) :=
  read (λ db, filter (λ d, is_Some (textScore q d.2)) (map_to_list (videos db))).

Definition score (q : string) (d : Doc Video) : Q :=
  default 0%Q (textScore q d.2).

Definition by_views (d : Doc Video) : Z := views d.2.
Definition by_createdAt (d : Doc Video) : Z := createdAt d.2.
Definition by_c_createdAt (d : Doc Comment) : Z := c_createdAt d.2.

(** ** routes/videos.js *)

(** [GET /search] *)
Definition video_search (q : option string) : Db → Response * Db * list Write :=
  try_catch (
    when_ (negb (truthy q)) (status_message 400 "Search query is required");;
    let q := default "" q in
    videos ← Video_find_text q;
    let videos :=
      limit 50 (sort_by (then_by (desc_score (score q)) (desc by_views)) videos) in
    mret (json (VideoDocs videos))
  ) "Server error".

(** [GET /:id/recommended] *)
Definition video_recommended (id : ObjectId) : Db → Response * Db * list Write :=
  try_catch (
    currentVideo ← Video_findById id;
    currentVideo ← or_send (status_message 404 "Video not found") currentVideo;
    recommendedVideos ← Video_find (object_literal [
      ("_id", Ne id);
      ("category", Is (category currentVideo)) ]);
    let recommendedVideos :=
      limit 15 (sort_by (then_by (desc by_views) (desc by_createdAt))
                        recommendedVideos) in
    recommendedVideos ←
      (if length recommendedVideos <? 10 then
         popularVideos ← Video_find (object_literal [
           ("_id", Ne id);
           ("_id", Nin recommendedVideos.*1) ]);
         let popularVideos :=
           limit (15 - length recommendedVideos)
                 (sort_by (desc by_views) popularVideos) in
         mret (recommendedVideos ++ popularVideos)
       else mret recommendedVideos);
    mret (json (VideoDocs recommendedVideos))
  ) "Server error".

(** [POST /:id/view]; [$inc] on [views], an integer here: the Number of
    the source counts exactly up to [2 ^ 53] ([exact_count]). *)
Definition video_view (now : Z) (id : ObjectId) : Db → Response * Db * list Write :=
  try_catch (
    video ← Video_findByIdAndUpdate now id (λ v, set_views (views v + 1)%Z v);
    video ← or_send (status_message 404 "Video not found") video;
    mret (json (ViewCount (views video)))
  ) "Server error".

(** [POST /], after [videoUpload] and [handleUploadError]; [probe] is the
    result of [getVideoDurationInSeconds], [None] when it throws, and
    [fresh] the [_id] that [new Video] generates. *)
Definition video_create (now : Z) (fresh : ObjectId) (probe : option Q)
    (files : Files) (body : VideoBody) (user : Doc User)
  : Db → Response * Db * list Write :=
  try_catch (
    match f_video files, f_thumbnail files with
    | Some videoPath, Some thumbnailPath =>
        let duration := default 0%Q probe in
        let video := {|
          title := trim <$> b_title body;
          description := trim <$> b_description body;
          videoUrl := String.app "/" videoPath;
          thumbnailUrl := String.app "/" thumbnailPath;
          duration := duration;
          v_user := user.1;
          views := 0;
          category := or_else (b_category body) "Entertainment";
          tags := trim <$> parse_tags (b_tags body);
          likes := [];
          dislikes := [];
          createdAt := now;
          updatedAt := now |} in
        video ← Video_create now fresh video;
        mret (mkResponse 201 (VideoDoc (fresh, video)))
    | _, _ =>
        send (status_message 400 "Video and thumbnail files are required")
    end
  ) "Server error during video upload".

(** [PUT /:id] *)
Definition video_update (now : Z) (id : ObjectId) (body : VideoBody)
    (user : Doc User) : Db → Response * Db * list Write :=
  try_catch (
    video ← Video_findById id;
    video ← or_send (status_message 404 "Video not found") video;
    when_ (not_authorized (v_user video) user)
          (status_message 403 "Not authorized to update this video");;
    let video := set_title (trim <$> or_opt (b_title body) (title video)) video in
    let video :=
      set_description
        (trim <$> or_opt (b_description body) (description video)) video in
    let video :=
      set_category (or_else (b_category body) (category video)) video in
    let video :=
      if truthy (b_tags body)
      then set_tags (trim <$> parse_tags (b_tags body)) video
      else video in
    video ← Video_save now id video;
    mret (json (VideoDoc (id, video)))
  ) "Server error".

(** [DELETE /:id] *)
Definition video_delete (id : ObjectId) (user : Doc User)
  : Db → Response * Db * list Write :=
  try_catch (
    video ← Video_findById id;
    video ← or_send (status_message 404 "Video not found") video;
    when_ (not_authorized (v_user video) user)
          (status_message 403 "Not authorized to delete this video");;
    Video_findByIdAndDelete id;;
    Comment_deleteMany (object_literal [ ("video", Is id) ]);;
    mret (json (Message "Video deleted successfully"))
  ) "Server error".

(** [POST /:id/like] *)
Definition video_like (now : Z) (id : ObjectId) (user : Doc User)
  : Db → Response * Db * list Write :=
  try_catch (
    let userId := user.1 in
    video ← Video_findById id;
    video ← or_send (status_message 404 "Video not found") video;
    when_ (includes userId (likes video))
          (status_message 400 "Video already liked");;
    let video :=
      if includes userId (dislikes video)
      then set_dislikes (without userId (dislikes video)) video
      else video in
    let video := set_likes (push userId (likes video)) video in
    video ← Video_save now id video;
    mret (json (Counts (length (likes video)) (length (dislikes video))))
  ) "Server error".

(** [DELETE /:id/unlike] *)
Definition video_unlike (now : Z) (id : ObjectId) (user : Doc User)
  : Db → Response * Db * list Write :=
  try_catch (
    let userId := user.1 in
    video ← Video_findById id;
    video ← or_send (status_message 404 "Video not found") video;
    video ←
      (if includes userId (likes video)
       then Video_save now id (set_likes (without userId (likes video)) video)
       else mret video);
    mret (json (Counts (length (likes video)) (length (dislikes video))))
  ) "Server error".

(** [POST /:id/dislike] *)
Definition video_dislike (now : Z) (id : ObjectId) (user : Doc User)
  : Db → Response * Db * list Write :=
  try_catch (
    let userId := user.1 in
    video ← Video_findById id;
    video ← or_send (status_message 404 "Video not found") video;
    when_ (includes userId (dislikes video))
          (status_message 400 "Video already disliked");;
    let video :=
      if includes userId (likes video)
      then set_likes (without userId (likes video)) video
      else video in
    let video := set_dislikes (push userId (dislikes video)) video in
    video ← Video_save now id video;
    mret (json (Counts (length (likes video)) (length (dislikes video))))
  ) "Server error".

(** [DELETE /:id/undislike] *)
Definition video_undislike (now : Z) (id : ObjectId) (user : Doc User)
  : Db → Response * Db * list Write :=
  try_catch (
    let userId := user.1 in
    video ← Video_findById id;
    video ← or_send (status_message 404 "Video not found") video;
    video ←
      (if includes userId (dislikes video)
       then Video_save now id
              (set_dislikes (without userId (dislikes video)) video)
       else mret video);
    mret (json (Counts (length (likes video)) (length (dislikes video))))
  ) "Server error".

(** [GET /:id/like-status] *)
Definition video_like_status (id : ObjectId) (user : Doc User)
  : Db → Response * Db * list Write :=
  try_catch (
    let userId := user.1 in
    video ← Video_findById id;
    video ← or_send (status_message 404 "Video not found") video;
    let liked := includes userId (likes video) in
    let disliked := includes userId (dislikes video) in
    mret (json (LikeStatus liked disliked))
  ) "Server error".

(** [GET /:id/comments] *)
Definition video_comments (id : ObjectId) : Db → Response * Db * list Write :=
  try_catch (
    comments ← Comment_find (object_literal [
      ("video", Is id);
      ("parentComment", IsNull) ]);
    let comments := sort_by (desc by_c_createdAt) comments in
    mret (json (CommentDocs comments))
  ) "Server error".

(** [POST /:id/comments]; [fresh] is the [_id] that [new Comment]
    generates. *)
Definition video_add_comment (now : Z) (fresh : ObjectId) (id : ObjectId)
    (content parentCommentId : option string) (user : Doc User)
  : Db → Response * Db * list Write :=
  try_catch (
    when_ (negb (truthy content))
          (status_message 400 "Comment content is required");;
    videoExists ← Video_exists (object_literal [ ("_id", Is id) ]);
    when_ (negb videoExists) (status_message 404 "Video not found");;
    let comment := {|
      content := trim (default "" content);
      c_user := user.1;
      c_video := id;
      c_likes := [];
      c_dislikes := [];
      replies := [];
      parentComment := or_opt parentCommentId None;
      c_createdAt := now;
      c_updatedAt := now |} in
    comment ← Comment_create now fresh comment;
    (if truthy parentCommentId then
       Comment_findByIdAndUpdate now (default "" parentCommentId)
         (λ c, set_replies (push fresh (replies c)) c);; mret ()
     else mret ());;
    mret (mkResponse 201 (CommentDoc (fresh, comment)))
  ) "Server error".

(** ** routes/users.js *)

(** [PUT /profile] *)
Definition user_update_profile (username bio : option string)
    (user : Doc User) : Db → Response * Db * list Write :=
  try_catch (
    let userId := user.1 in
    (if truthy username then
       existingUser ← User_findOne (object_literal [
         ("username", Is (default "" username));
         ("_id", Ne userId) ]);
       when_ (bool_decide (is_Some existingUser))
             (status_message 400 "Username already taken")
     else mret ());;
    updatedUser ← User_findByIdAndUpdate userId (λ u,
      let u := if truthy username
               then set_username (default "" username) u else u in
      match bio with
      | Some bio => set_bio bio u
      | None => u
      end);
    mret (json (UserDoc ((λ u, (userId, u)) <$> updatedUser)))
  ) "Server error".

(** [POST /profile-picture] *)
Definition user_profile_picture (upload : Upload) (user : Doc User)
  : Db → Response * Db * list Write :=
  match upload with
  | UploadError true _ =>
      λ db, (status_message 400 "File too large. Maximum size is 5MB.", db, [])
  | UploadError false message => λ db, (status_message 400 message, db, [])
  | NoFile => try_catch (send (status_message 400 "No file uploaded"))
                        "Server error"
  | File path =>
      try_catch (
        let userId := user.1 in
        let profilePicturePath := String.app "/" path in
        updatedUser ← User_findByIdAndUpdate userId
                        (set_profilePicture profilePicturePath);
        mret (json (UserDoc ((λ u, (userId, u)) <$> updatedUser)))
      ) "Server error"
  end.

(** [POST /subscribe/:channelId] *)
Definition user_subscribe (channelId : string) (user : Doc User)
  : Db → Response * Db * list Write :=
  try_catch (
    let subscriberId := user.1 in
    when_ (String.eqb channelId subscriberId)
          (status_message 400 "Cannot subscribe to your own channel");;
    channel ← casting channelId User_findById;
    channel ← or_send (status_message 404 "Channel not found") channel;
    let alreadySubscribed := includes subscriberId (subscribers channel) in
    when_ alreadySubscribed
          (status_message 400 "Already subscribed to this channel");;
    casting channelId (λ channelId,
      User_findByIdAndUpdate channelId
        (λ u, set_subscribers (push subscriberId (subscribers u)) u));;
    casting channelId (λ channelId,
      User_findByIdAndUpdate subscriberId
        (λ u, set_subscribedTo (push channelId (subscribedTo u)) u));;
    mret (json (Message "Subscribed successfully"))
  ) "Server error".

(** [DELETE /unsubscribe/:channelId] *)
Definition user_unsubscribe (channelId : string) (user : Doc User)
  : Db → Response * Db * list Write :=
  try_catch (
    let subscriberId := user.1 in
    channel ← casting channelId User_findById;
    channel ← or_send (status_message 404 "Channel not found") channel;
    let isSubscribed := includes subscriberId (subscribers channel) in
    when_ (negb isSubscribed)
          (status_message 400 "Not subscribed to this channel");;
    casting channelId (λ channelId,
      User_findByIdAndUpdate channelId
        (λ u, set_subscribers (without subscriberId (subscribers u)) u));;
    casting channelId (λ channelId,
      User_findByIdAndUpdate subscriberId
        (λ u, set_subscribedTo (without channelId (subscribedTo u)) u));;
    mret (json (Message "Unsubscribed successfully"))
  ) "Server error".

(** [GET /check-subscription/:channelId] *)
Definition user_check_subscription (channelId : string) (user : Doc User)
  : Db → Response * Db * list Write :=
  try_catch (
    let subscriberId := user.1 in
    channel ← casting channelId User_findById;
    channel ← or_send (status_message 404 "Channel not found") channel;
    let isSubscribed := includes subscriberId (subscribers channel) in
    mret (json (IsSubscribed isSubscribed))
  ) "Server error".

(** ** The comment router *)

(** [GET /:id/replies] *)
Definition comment_replies (id : ObjectId) : Db → Response * Db * list Write :=
  try_catch (
    comment ← Comment_findById id;
    _ ← or_send (status_message 404 "Comment not found") comment;
    replies ← Comment_find (object_literal [ ("parentComment", Is id) ]);
    let replies := sort_by (asc by_c_createdAt) replies in
    mret (json (CommentDocs replies))
  ) "Server error".

(** [POST /:id/like] *)
Definition comment_like (now : Z) (id : ObjectId) (user : Doc User)
  : Db → Response * Db * list Write :=
  try_catch (
    let userId := user.1 in
    comment ← Comment_findById id;
    comment ← or_send (status_message 404 "Comment not found") comment;
    when_ (includes userId (c_likes comment))
          (status_message 400 "Comment already liked");;
    let comment :=
      if includes userId (c_dislikes comment)
      then set_c_dislikes (without userId (c_dislikes comment)) comment
      else comment in
    let comment := set_c_likes (push userId (c_likes comment)) comment in
    comment ← Comment_save now id comment;
    mret (json (Counts (length (c_likes comment))
                       (length (c_dislikes comment))))
  ) "Server error".

(** [DELETE /:id/unlike] *)
Definition comment_unlike (now : Z) (id : ObjectId) (user : Doc User)
  : Db → Response * Db * list Write :=
  try_catch (
    let userId := user.1 in
    comment ← Comment_findById id;
    comment ← or_send (status_message 404 "Comment not found") comment;
    comment ←
      (if includes userId (c_likes comment)
       then Comment_save now id
              (set_c_likes (without userId (c_likes comment)) comment)
       else mret comment);
    mret (json (Counts (length (c_likes comment))
                       (length (c_dislikes comment))))
  ) "Server error".

(** [POST /:id/dislike] *)
Definition comment_dislike (now : Z) (id : ObjectId) (user : Doc User)
  : Db → Response * Db * list Write :=
  try_catch (
    let userId := user.1 in
    comment ← Comment_findById id;
    comment ← or_send (status_message 404 "Comment not found") comment;
    when_ (includes userId (c_dislikes comment))
          (status_message 400 "Comment already disliked");;
    let comment :=
      if includes userId (c_likes comment)
      then set_c_likes (without userId (c_likes comment)) comment
      else comment in
    let comment := set_c_dislikes (push userId (c_dislikes comment)) comment in
    comment ← Comment_save now id comment;
    mret (json (Counts (length (c_likes comment))
                       (length (c_dislikes comment))))
  ) "Server error".

(** [DELETE /:id/undislike] *)
Definition comment_undislike (now : Z) (id : ObjectId) (user : Doc User)
  : Db → Response * Db * list Write :=
  try_catch (
    let userId := user.1 in
    comment ← Comment_findById id;
    comment ← or_send (status_message 404 "Comment not found") comment;
    comment ←
      (if includes userId (c_dislikes comment)
       then Comment_save now id
              (set_c_dislikes (without userId (c_dislikes comment)) comment)
       else mret comment);
    mret (json (Counts (length (c_likes comment))
                       (length (c_dislikes comment))))
  ) "Server error".

(** [PUT /:id] *)
Definition comment_update (now : Z) (id : ObjectId) (content : option string)
    (user : Doc User) : Db → Response * Db * list Write :=
  try_catch (
    when_ (negb (truthy content))
          (status_message 400 "Comment content is required");;
    comment ← Comment_findById id;
    comment ← or_send (status_message 404 "Comment not found") comment;
    when_ (not_authorized (c_user comment) user)
          (status_message 403 "Not authorized to update this comment");;
    let comment := set_content (trim (default "" content)) comment in
    comment ← Comment_save now id comment;
    mret (json (CommentDoc (id, comment)))
  ) "Server error".

(** [DELETE /:id] *)
Definition comment_delete (now : Z) (id : ObjectId) (user : Doc User)
  : Db → Response * Db * list Write :=
  try_catch (
    comment ← Comment_findById id;
    comment ← or_send (status_message 404 "Comment not found") comment;
    when_ (not_authorized (c_user comment) user)
          (status_message 403 "Not authorized to delete this comment");;
    match parentComment comment with
    | None =>
        Comment_deleteMany (object_literal [ ("parentComment", Is id) ])
    | Some parent =>
        Comment_findByIdAndUpdate now parent
          (λ c, set_replies (without id (replies c)) c);; mret ()
    end;;
    Comment_findByIdAndDelete id;;
    mret (json (Message "Comment deleted successfully"))
  ) "Server error".

(** ** The API *)

(** One request to the routers. The remaining routes of the three routers
    are [GET] routes that only query the store. *)
Inductive Request :=
| GetVideoSearch (q : option string)
| GetVideoRecommended (id : ObjectId)
| PostVideoView (id : ObjectId)
| PostVideo (token : Token) (fresh : ObjectId) (probe : option Q)
            (files : Files) (body : VideoBody)
| PutVideo (token : Token) (id : ObjectId) (body : VideoBody)
| DeleteVideo (token : Token) (id : ObjectId)
| PostVideoLike (token : Token) (id : ObjectId)
| DeleteVideoUnlike (token : Token) (id : ObjectId)
| PostVideoDislike (token : Token) (id : ObjectId)
| DeleteVideoUndislike (token : Token) (id : ObjectId)
| GetVideoLikeStatus (token : Token) (id : ObjectId)
| GetVideoComments (id : ObjectId)
| PostVideoComment (token : Token) (fresh : ObjectId) (id : ObjectId)
                   (content parentCommentId : option string)
| PutUserProfile (token : Token) (username bio : option string)
| PostUserProfilePicture (token : Token) (upload : Upload)
| PostUserSubscribe (token : Token) (channelId : string)
| DeleteUserUnsubscribe (token : Token) (channelId : string)
| GetUserCheckSubscription (token : Token) (channelId : string)
| GetCommentReplies (id : ObjectId)
| PostCommentLike (token : Token) (id : ObjectId)
| DeleteCommentUnlike (token : Token) (id : ObjectId)
| PostCommentDislike (token : Token) (id : ObjectId)
| DeleteCommentUndislike (token : Token) (id : ObjectId)
| PutComment (token : Token) (id : ObjectId) (content : option string)
| DeleteComment (token : Token) (id : ObjectId).

(** The server: the route of a request, run at time [now]. *)
Definition handle (now : Z) (r : Request) : Db → Response * Db * list Write :=
  match r with
  | GetVideoSearch q => video_search q
  | GetVideoRecommended id => video_recommended id
  | PostVideoView id => video_view now id
  | PostVideo token fresh probe files body =>
      authenticated token (video_create now fresh probe files body)
  | PutVideo token id body => authenticated token (video_update now id body)
  | DeleteVideo token id => authenticated token (video_delete id)
  | PostVideoLike token id => authenticated token (video_like now id)
  | DeleteVideoUnlike token id => authenticated token (video_unlike now id)
  | PostVideoDislike token id => authenticated token (video_dislike now id)
  | DeleteVideoUndislike token id =>
      authenticated token (video_undislike now id)
  | GetVideoLikeStatus token id => authenticated token (video_like_status id)
  | GetVideoComments id => video_comments id
  | PostVideoComment token fresh id content parentCommentId =>
      authenticated token
        (video_add_comment now fresh id content parentCommentId)
  | PutUserProfile token username bio =>
      authenticated token (user_update_profile username bio)
  | PostUserProfilePicture token upload =>
      authenticated token (user_profile_picture upload)
  | PostUserSubscribe token channelId =>
      authenticated token (user_subscribe channelId)
  | DeleteUserUnsubscribe token channelId =>
      authenticated token (user_unsubscribe channelId)
  | GetUserCheckSubscription token channelId =>
      authenticated token (user_check_subscription channelId)
  | GetCommentReplies id => comment_replies id
  | PostCommentLike token id => authenticated token (comment_like now id)
  | DeleteCommentUnlike token id => authenticated token (comment_unlike now id)
  | PostCommentDislike token id => authenticated token (comment_dislike now id)
  | DeleteCommentUndislike token id =>
      authenticated token (comment_undislike now id)
  | PutComment token id content =>
      authenticated token (comment_update now id content)
  | DeleteComment token id => authenticated token (comment_delete now id)
  end.

(** The store after a sequence of requests, each with its own time. *)
Definition serve (reqs : list (Z * Request)) (db : Db) : Db :=
  foldl (λ db r, (handle r.1 r.2 db).1.2) db reqs.

End Routes.

(** ** The engagement policy

    The four engagement routes of a video and the four of a comment are the
    same code up to the model; [engage] is what each of them does to the
    two arrays of its target. *)

Inductive Engagement := Like | Unlike | Dislike | Undislike.

(** The effect of one engagement operation of actor [a] on the [likes] and
    [dislikes] arrays. *)
Definition engage (e : Engagement) (a : ObjectId) (ls ds : list ObjectId)
  : list ObjectId * list ObjectId :=
  match e with
  | Like => if includes a ls then (ls, ds) else (push a ls, without a ds)
  | Unlike => (without a ls, ds)
  | Dislike => if includes a ds then (ls, ds) else (without a ls, push a ds)
  | Undislike => (ls, without a ds)
  end.

(** The actor is in at most one of the two arrays. *)
Definition at_most_one (a : ObjectId) (ls ds : list ObjectId) : Prop :=
  ¬ (a ∈ ls ∧ a ∈ ds).

(** The engagement requests, with the model and operation of each. *)
Definition engagement_request (r : Request) : option (Model * Engagement) :=
  match r with
  | PostVideoLike _ _ => Some (MVideo, Like)
  | DeleteVideoUnlike _ _ => Some (MVideo, Unlike)
  | PostVideoDislike _ _ => Some (MVideo, Dislike)
  | DeleteVideoUndislike _ _ => Some (MVideo, Undislike)
  | PostCommentLike _ _ => Some (MComment, Like)
  | DeleteCommentUnlike _ _ => Some (MComment, Unlike)
  | PostCommentDislike _ _ => Some (MComment, Dislike)
  | DeleteCommentUndislike _ _ => Some (MComment, Undislike)
  | _ => None
  end.

(** The engagement counts of a stored video, as the routes report them. *)
Definition video_counts (id : ObjectId) (db : Db) : option (nat * nat) :=
  (λ v, (length (likes v), length (dislikes v))) <$> videos db !! id.

(** Like, then unlike, of one video by the same actor. *)
Definition like_then_unlike (textScore : string → Video → option Q)
    (now now' : Z) (a id : ObjectId) : Db → Db :=
  serve textScore [ (now, PostVideoLike (ValidToken a) id);
                    (now', DeleteVideoUnlike (ValidToken a) id) ].

(** ** Sample stores *)

(** A store without text index matches. *)
Definition no_text_index : string → Video → option Q := λ _ _, None.

Definition alice : User := mkUser "alice" "" "" false [] [].
Definition bob : User := mkUser "bob" "" "" false [] [].

(** A video of bob that alice has disliked. *)
Definition clip : Video :=
  {| title := Some "Clip"; description := None; videoUrl := "/clip.mp4";
     thumbnailUrl := "/clip.png"; duration := 0%Q; v_user := "u2";
     views := 0; category := "Music"; tags := []; likes := [];
     dislikes := ["u1"]; createdAt := 0; updatedAt := 0 |}.

Definition sample_db : Db :=
  {| users := {[ "u1" := alice; "u2" := bob ]};
     videos := {[ "v1" := clip ]};
     comments := ∅;
     subscriptions := ∅ |}.

(** Two users whose identifiers have the form of [ObjectId.toString()]. *)
Definition carol_id : ObjectId := "65a1b2c3d4e5f60718293a4b".
Definition dave_id : ObjectId := "65a1b2c3d4e5f60718293a4c".
Definition carol : User := mkUser "carol" "" "" false [] [].
Definition dave : User := mkUser "dave" "" "" false [] [].
Definition channel_db : Db :=
  {| users := {[ carol_id := carol; dave_id := dave ]};
     videos := ∅;
     comments := ∅;
     subscriptions := ∅ |}.

(** ** Subscription edges *)

(** The store records that [a] subscribes to [b], in the [subscribers] of
    [b] or in the [subscribedTo] of [a]. *)
Definition edge (db : Db) (a b : ObjectId) : Prop :=
  (∃ ub, users db !! b = Some ub ∧ a ∈ subscribers ub) ∨
  (∃ ua, users db !! a = Some ua ∧ b ∈ subscribedTo ua).

(** Subscribe to a channel, then unsubscribe from it. *)
Definition subscribe_then_unsubscribe (textScore : string → Video → option Q)
    (now now' : Z) (a b : ObjectId) : Db → Db :=
  serve textScore [ (now, PostUserSubscribe (ValidToken a) b);
                    (now', DeleteUserUnsubscribe (ValidToken a) b) ].

(** ** Threads *)

(** The comments of a store that reference the video [id]. *)
Definition comments_on (id : ObjectId) (m : gmap string Comment)
  : gmap string Comment :=
  filter (λ d, c_video d.2 = id) m.

(** The replies to the comment [p]: the comments whose [parentComment] is
    [p]. *)
Definition replies_to (p : ObjectId) (m : gmap string Comment)
  : gmap string Comment :=
  filter (λ d, parentComment d.2 = Some p) m.

(** A comment of alice. *)
Definition remark (video : ObjectId) (parent : option ObjectId)
    (children : list ObjectId) : Comment :=
  {| content := "Nice"; c_user := "u1"; c_video := video; c_likes := [];
     c_dislikes := []; replies := children; parentComment := parent;
     c_createdAt := 0; c_updatedAt := 0 |}.

(** The sample store with a thread on the clip: a comment with two replies,
    and a comment on another video. *)
Definition thread_db : Db :=
  {| users := users sample_db;
     videos := videos sample_db;
     comments := {[ "c1" := remark "v1" None ["c2"; "c3"];
                    "c2" := remark "v1" (Some "c1") [];
                    "c3" := remark "v1" (Some "c1") [];
                    "c4" := remark "v2" None [] ]};
     subscriptions := ∅ |}.

(** An upload of a video file and a thumbnail. *)
Definition sample_files : Files :=
  {| f_video := Some "uploads/videos/video-1.mp4";
     f_thumbnail := Some "uploads/thumbnails/thumbnail-1.png" |}.

(** The body of an upload request with the given category. *)
Definition sample_body (category : option string) : VideoBody :=
  {| b_title := Some "Pasta"; b_description := None;
     b_category := category; b_tags := None |}.

(** ** The order of search results *)

(** [x] may come before [y] in the results of a search for [q]: [x] has the
    higher relevance score, or the same score and at least as many views. *)
Definition relevance_order (textScore : string → Video → option Q)
    (q : string) : relation (Doc Video) :=
  λ x y, (score textScore q y < score textScore q x)%Q ∨
         ((score textScore q x == score textScore q y)%Q ∧
          (views y.2 ≤ views x.2)%Z).

(** ** Writes *)

(** The model a write goes to. *)
Definition write_model (w : Write) : Model :=
  match w with
  | Save m _ | FindByIdAndUpdate m _ | FindByIdAndDelete m _ | DeleteMany m => m
  end.

(** A computation on the store that leaves the [Subscription] collection as
    it is and issues no write to it. *)
Definition keeps_subscriptions {X} (m : Db → X * Db * list Write) : Prop :=
  ∀ db, subscriptions (m db).1.2 = subscriptions db ∧
        Forall (λ w, write_model w ≠ MSubscription) (m db).2.

(** Two user documents that differ at most in [subscribers] and
    [subscribedTo]. *)
Definition same_profile (u u' : User) : Prop :=
  username u' = username u ∧ bio u' = bio u ∧
  profilePicture u' = profilePicture u ∧ isAdmin u' = isAdmin u.

(** Four engagement requests on the clip, by alice and bob. *)
Definition sample_requests : list (Z * Request) :=
  [ (1%Z, PostVideoLike (ValidToken "u1") "v1");
    (2%Z, PostVideoDislike (ValidToken "u1") "v1");
    (3%Z, PostVideoLike (ValidToken "u2") "v1");
    (4%Z, DeleteVideoUndislike (ValidToken "u1") "v1") ].

(** ** Requests behind [authenticate] *)

(** The token of a request to a route behind [authenticate]; [None] for the
    routes that are open to everybody. *)
Definition request_token (r : Request) : option Token :=
  match r with
  | PostVideo token _ _ _ _ | PutVideo token _ _ | DeleteVideo token _
  | PostVideoLike token _ | DeleteVideoUnlike token _
  | PostVideoDislike token _ | DeleteVideoUndislike token _
  | GetVideoLikeStatus token _ | PostVideoComment token _ _ _ _
  | PutUserProfile token _ _ | PostUserProfilePicture token _
  | PostUserSubscribe token _ | DeleteUserUnsubscribe token _
  | GetUserCheckSubscription token _
  | PostCommentLike token _ | DeleteCommentUnlike token _
  | PostCommentDislike token _ | DeleteCommentUndislike token _
  | PutComment token _ _ | DeleteComment token _ => Some token
  | GetVideoSearch _ | GetVideoRecommended _ | PostVideoView _
  | GetVideoComments _ | GetCommentReplies _ => None
  end.

(** ** Exclusive engagement, store-wide *)

(** No actor is in both arrays of the video, or of the comment. *)
Definition video_exclusive (v : Video) : Prop :=
  ∀ a, at_most_one a (likes v) (dislikes v).
Definition comment_exclusive (c : Comment) : Prop :=
  ∀ a, at_most_one a (c_likes c) (c_dislikes c).

(** No actor is in both arrays of any stored video or comment. *)
Definition engagement_exclusive (db : Db) : Prop :=
  map_Forall (λ _, video_exclusive) (videos db) ∧
  map_Forall (λ _, comment_exclusive) (comments db).

(** A session on the sample store: alice uploads a video, bob likes it and
    comments on it, alice dislikes the comment and deletes her video. *)
Definition sample_session : list (Z * Request) :=
  [ (1%Z, PostVideo (ValidToken "u1") "v2" None sample_files (sample_body None));
    (2%Z, PostVideoLike (ValidToken "u2") "v2");
    (3%Z, PostVideoComment (ValidToken "u2") "c1" "v2" (Some "Nice") None);
    (4%Z, PostCommentDislike (ValidToken "u1") "c1");
    (5%Z, DeleteVideo (ValidToken "u1") "v2") ].

(** ** Requests with text of the ASCII range *)

Definition ascii_body (b : VideoBody) : bool :=
  ascii_opt (b_title b) && ascii_opt (b_description b)
  && ascii_opt (b_category b) && ascii_opt (b_tags b).

(** The text that a request brings is of the ASCII range. *)
Definition ascii_request (r : Request) : bool :=
  match r with
  | PostVideo _ _ _ _ body | PutVideo _ _ body => ascii_body body
  | PostVideoComment _ _ _ content _ | PutComment _ _ content =>
      ascii_opt content
  | _ => true
  end.

(** ** Views *)

(** The counts that a JavaScript number holds exactly. *)
Definition exact_count (n : Z) : Prop := (0 ≤ n ≤ 2 ^ 53)%Z.

(** One [POST /:id/view] at each of the given times. *)
Definition view_requests (id : ObjectId) (times : list Z) : list (Z * Request) :=
  (λ t, (t, PostVideoView id)) <$> times.

(** Like, then dislike, of one video by the same actor. *)
Definition like_then_dislike (textScore : string → Video → option Q)
    (now now' : Z) (a id : ObjectId) : Db → Db :=
  serve textScore [ (now, PostVideoLike (ValidToken a) id);
                    (now', PostVideoDislike (ValidToken a) id) ].

(** ** User names *)

(** No two users of the store have the same [username]. *)
Definition usernames_unique (db : Db) : Prop :=
  ∀ k1 k2 u1 u2,
    users db !! k1 = Some u1 → users db !! k2 = Some u2 →
    username u1 = username u2 → k1 = k2.

(** ** Valid documents *)

(** A document that passes every validator of its schema. *)
Definition video_valid (v : Video) : Prop :=
  forallb (validate_video_path v) video_paths = true.
Definition comment_valid (c : Comment) : Prop :=
  forallb (validate_comment_path c) comment_paths = true.

(** A store whose videos and comments are all valid. *)
Definition schema_valid (db : Db) : Prop :=
  map_Forall (λ _, video_valid) (videos db) ∧
  map_Forall (λ _, comment_valid) (comments db).

(** ** The order of recommendations *)

(** [{ views: -1, createdAt: -1 }]: more views first and, between equal
    view counts, the newer first. *)
Definition popular_order (x y : Doc Video) : Prop :=
  (views y.2 < views x.2)%Z ∨
  (views y.2 = views x.2 ∧ (createdAt y.2 ≤ createdAt x.2)%Z).

(** The other videos of a category. *)
Definition others_in_category (id : ObjectId) (c : string)
    (m : gmap string Video) : gmap string Video :=
  filter (λ d, d.1 ≠ id ∧ category d.2 = c) m.

(** ** The page of a video *)

(** The populated owner of a video in the answer of [GET /:id]:
    [populate('user', 'username profilePicture subscribers')], with the
    [subscribers] replaced by their number. *)
Record Owner := mkOwner {
  o_id : ObjectId;
  o_username : string;
  o_profilePicture : string;
  subscriberCount : nat
}.

(** The answer of [GET /:id]: the lean video, its owner populated, the
    [likes] and [dislikes] replaced by their numbers, and [hasLiked] and
    [hasDisliked] when the request carries a user. *)
Record VideoPage := mkVideoPage {
  pg_id : ObjectId;
  pg_title : option string;
  pg_description : option string;
  pg_videoUrl : string;
  pg_thumbnailUrl : string;
  pg_duration : Q;
  pg_user : Owner;
  pg_views : Z;
  pg_category : string;
  pg_tags : list string;
  pg_likes : nat;
  pg_dislikes : nat;
  pg_createdAt : Z;
  pg_updatedAt : Z;
  hasLiked : option bool;
  hasDisliked : option bool
}.

(** [exports.optionalAuth], up to [next()]: the user it attaches to the
    request, if any. An invalid token ends in the [catch], which only calls
    [next()]. *)
Definition optionalAuth (token : Token) : Route (option (Doc User)) :=
  match token with
  | NoToken => mret None
  | InvalidToken => mret None
  | ValidToken id =>
      user ← User_findById id;
      mret (pair id <$> user)
  end.

(** [try { ... } catch] of a route that answers a page. *)
Definition try_catch_page (h : Route (Response + VideoPage)) (message : string)
    (db : Db) : (Response + VideoPage) * Db * list Write :=
  match h db with
  | (Next r, db', w) => (r, db', w)
  | (Sent r, db', w) => (inl r, db', w)
  | (Thrown, db', w) => (inl (status_message 500 message), db', w)
  end.

(** [GET /:id], after [optionalAuth]. Reading [video.user.subscribers] of a
    video whose owner is not stored throws. *)
Definition video_get (id : ObjectId) (user : option (Doc User))
  : Db → (Response + VideoPage) * Db * list Write :=
  try_catch_page (
    video ← Video_findById id;
    video ← or_send (status_message 404 "Video not found") video;
    owner ← User_findById (v_user video);
    owner ← match owner with
            | Some o => mret o
            | None => throw
            end;
    let owner := {|
      o_id := v_user video;
      o_username := username owner;
      o_profilePicture := profilePicture owner;
      subscriberCount := length (subscribers owner) |} in
    let likes' := length (likes video) in
    let dislikes' := length (dislikes video) in
    flags ← match user with
            | Some u =>
                fullVideo ← Video_findById id;
                match fullVideo with
                | Some fullVideo =>
                    mret (Some (includes u.1 (likes fullVideo)),
                          Some (includes u.1 (dislikes fullVideo)))
                | None => throw
                end
            | None => mret (None, None)
            end;
    mret (inr {|
      pg_id := id;
      pg_title := title video;
      pg_description := description video;
      pg_videoUrl := videoUrl video;
      pg_thumbnailUrl := thumbnailUrl video;
      pg_duration := duration video;
      pg_user := owner;
      pg_views := views video;
      pg_category := category video;
      pg_tags := tags video;
      pg_likes := likes';
      pg_dislikes := dislikes';
      pg_createdAt := createdAt video;
      pg_updatedAt := updatedAt video;
      hasLiked := flags.1;
      hasDisliked := flags.2 |})
  ) "Server error".

(** [router.get('/:id', optionalAuth, ...)] *)
Definition get_video (token : Token) (id : ObjectId) (db : Db)
  : (Response + VideoPage) * Db * list Write :=
  match optionalAuth token db with
  | (Next user, db', w) =>
      let '(r, db'', w') := video_get id user db' in (r, db'', w ++ w')
  | (Sent r, db', w) => (inl r, db', w)
  | (Thrown, db', w) => (inl (status_message 500 "Server error"), db', w)
  end.

(** The user that [optionalAuth] attaches for a token. *)
Definition token_user (token : Token) (db : Db) : option ObjectId :=
  match token with
  | ValidToken a =>
      match users db !! a with
      | Some _ => Some a
      | None => None
      end
  | _ => None
  end.

(** ** Tags *)

(** The number of commas of a string. *)
Definition commas (s : string) : nat :=
  length (filter (λ a, a = ","%char) (String.list_ascii_of_string s)).

(** A string without white space at its ends and without a comma. *)
Definition clean_tag (s : string) : Prop :=
  trim s = s ∧ ","%char ∉ String.list_ascii_of_string s.

(** ** Requests on one video *)

(** The requests that address the video [id] and look it up: by the user
    [b], with a body for the update and a content for the comment. *)
Definition video_requests_on (id : ObjectId) (b : ObjectId) (fresh : ObjectId)
    (body : VideoBody) (text : string) (parent : option string)
  : list Request :=
  [ GetVideoRecommended id;
    PostVideoView id;
    PutVideo (ValidToken b) id body;
    DeleteVideo (ValidToken b) id;
    PostVideoLike (ValidToken b) id;
    DeleteVideoUnlike (ValidToken b) id;
    PostVideoDislike (ValidToken b) id;
    DeleteVideoUndislike (ValidToken b) id;
    GetVideoLikeStatus (ValidToken b) id;
    PostVideoComment (ValidToken b) fresh id (Some text) parent ].

(** * Properties *)

(** ** Arrays *)

Lemma includes_true x l : includes x l = true ↔ x ∈ l.
Proof. unfold includes. apply bool_decide_eq_true. Qed.
Lemma includes_false x l : includes x l = false ↔ x ∉ l.
Proof. unfold includes. apply bool_decide_eq_false. Qed.
Lemma elem_of_without y x l : y ∈ without x l ↔ y ∈ l ∧ y ≠ x.
Proof. unfold without. rewrite list_elem_of_filter. tauto. Qed.
Lemma without_absent x l : x ∉ l → without x l = l.
Proof.
  unfold without. induction l as [|y l IH]; intros H; [done|].
  rewrite not_elem_of_cons in H. destruct H as [Hne Hl].
  rewrite filter_cons_True by congruence. by rewrite IH.
Qed.
Lemma without_present_ne x l : x ∈ l → without x l ≠ l.
Proof. intros Hin Heq. rewrite <- Heq in Hin. apply elem_of_without in Hin. tauto. Qed.
Lemma elem_of_push y x l : y ∈ push x l ↔ y ∈ l ∨ y = x.
Proof. unfold push. rewrite elem_of_app, list_elem_of_singleton. tauto. Qed.
Lemma push_ne (x : string) l : push x l ≠ l.
Proof.
  unfold push. intros H. apply (f_equal length) in H.
  rewrite length_app in H. simpl in H. lia.
Qed.
Lemma without_push x l : x ∉ l → without x (push x l) = l.
Proof.
  intros H. unfold without, push. rewrite filter_app.
  rewrite filter_cons_False, filter_nil, app_nil_r by tauto.
  by apply without_absent.
Qed.

(** The validators read the validated paths only. *)
Lemma validate_video_same v v' :
  title v' = title v → description v' = description v →
  videoUrl v' = videoUrl v → thumbnailUrl v' = thumbnailUrl v →
  category v' = category v →
  forallb (validate_video_path v') video_paths
  = forallb (validate_video_path v) video_paths.
Proof.
  intros Ht Hd Hu Hth Hc. unfold video_paths.
  cbn [forallb validate_video_path String.eqb Ascii.eqb Bool.eqb].
  by rewrite Ht, Hd, Hu, Hth, Hc.
Qed.

Lemma validate_comment_same c c' :
  content c' = content c →
  forallb (validate_comment_path c') comment_paths
  = forallb (validate_comment_path c) comment_paths.
Proof.
  intros Hc. unfold comment_paths.
  cbn [forallb validate_comment_path String.eqb Ascii.eqb Bool.eqb].
  by rewrite Hc.
Qed.

(** The save of a loaded video whose engagement arrays were assigned. *)
Lemma Video_save_engagement now id orig v db :
  videos db !! id = Some orig →
  title v = title orig → description v = description orig →
  videoUrl v = videoUrl orig → thumbnailUrl v = thumbnailUrl orig →
  category v = category orig → tags v = tags orig →
  likes v ≠ likes orig ∨ dislikes v ≠ dislikes orig →
  Video_save now id v db =
    if forallb (validate_video_path orig) video_paths
    then (Next (set_updatedAt now v),
          set_videos (<[id := set_updatedAt now v]> (videos db)) db,
          [Save MVideo id])
    else (Thrown, db, []).
Proof.
  intros Hid Ht Hd Hu Hth Hc Hg Hne. unfold Video_save. rewrite Hid. cbv zeta.
  rewrite (validate_video_same orig v) by done.
  destruct (forallb _ video_paths); [|done].
  unfold video_modifiedPaths, changed.
  rewrite !decide_True by done. simpl.
  destruct (decide (likes orig = likes v)), (decide (dislikes orig = dislikes v));
    simpl; try done.
  destruct Hne; congruence.
Qed.

Lemma Comment_save_engagement now id orig c db :
  comments db !! id = Some orig →
  content c = content orig →
  c_likes c ≠ c_likes orig ∨ c_dislikes c ≠ c_dislikes orig →
  Comment_save now id c db =
    if forallb (validate_comment_path orig) comment_paths
    then (Next (set_c_updatedAt now c),
          set_comments (<[id := set_c_updatedAt now c]> (comments db)) db,
          [Save MComment id])
    else (Thrown, db, []).
Proof.
  intros Hid Ht Hne. unfold Comment_save. rewrite Hid. cbv zeta.
  rewrite (validate_comment_same orig c) by done.
  destruct (forallb _ comment_paths); [|done].
  unfold comment_modifiedPaths, changed.
  rewrite !decide_True by done. simpl.
  destruct (decide (c_likes orig = c_likes c)), (decide (c_dislikes orig = c_dislikes c));
    simpl; try done.
  destruct Hne; congruence.
Qed.

Ltac route_unfold :=
  unfold try_catch, mbind, Route_bind, Video_findById, Comment_findById,
    User_findById, read, write, or_send, when_, send, throw, mret, Route_ret.

Lemma video_like_eval now id a u db :
  video_like now id (a, u) db =
    match videos db !! id with
    | None => (status_message 404 "Video not found", db, [])
    | Some v =>
        if includes a (likes v)
        then (status_message 400 "Video already liked", db, [])
        else
          if forallb (validate_video_path v) video_paths then
          let v' := set_updatedAt now
                      (set_likes (push a (likes v))
                         (set_dislikes (without a (dislikes v)) v)) in
          (json (Counts (length (likes v')) (length (dislikes v'))),
           set_videos (<[id := v']> (videos db)) db, [Save MVideo id])
          else (status_message 500 "Server error", db, [])
    end.
Proof.
  unfold video_like. route_unfold. simpl.
  destruct (videos db !! id) as [v|] eqn:Hid; simpl; [|done].
  destruct (includes a (likes v)) eqn:Hl; simpl; [done|].
  destruct (includes a (dislikes v)) eqn:Hd; simpl.
  - erewrite Video_save_engagement; eauto; simpl; auto using push_ne.
    by destruct (_ && _).
  - apply includes_false in Hd. rewrite (without_absent _ _ Hd).
    erewrite Video_save_engagement; eauto; simpl; auto using push_ne.
    by destruct (_ && _).
Qed.

Lemma video_unlike_eval now id a u db :
  video_unlike now id (a, u) db =
    match videos db !! id with
    | None => (status_message 404 "Video not found", db, [])
    | Some v =>
        if includes a (likes v)
        then
          if forallb (validate_video_path v) video_paths then
          let v' := set_updatedAt now (set_likes (without a (likes v)) v) in
          (json (Counts (length (likes v')) (length (dislikes v'))),
           set_videos (<[id := v']> (videos db)) db, [Save MVideo id])
          else (status_message 500 "Server error", db, [])
        else (json (Counts (length (likes v)) (length (dislikes v))), db, [])
    end.
Proof.
  unfold video_unlike. route_unfold. simpl.
  destruct (videos db !! id) as [v|] eqn:Hid; simpl; [|done].
  destruct (includes a (likes v)) eqn:Hl; simpl; [|done].
  apply includes_true in Hl.
  erewrite Video_save_engagement; eauto; simpl; auto using without_present_ne.
  by destruct (_ && _).
Qed.

Lemma video_dislike_eval now id a u db :
  video_dislike now id (a, u) db =
    match videos db !! id with
    | None => (status_message 404 "Video not found", db, [])
    | Some v =>
        if includes a (dislikes v)
        then (status_message 400 "Video already disliked", db, [])
        else
          if forallb (validate_video_path v) video_paths then
          let v' := set_updatedAt now
                      (set_dislikes (push a (dislikes v))
                         (set_likes (without a (likes v)) v)) in
          (json (Counts (length (likes v')) (length (dislikes v'))),
           set_videos (<[id := v']> (videos db)) db, [Save MVideo id])
          else (status_message 500 "Server error", db, [])
    end.
Proof.
  unfold video_dislike. route_unfold. simpl.
  destruct (videos db !! id) as [v|] eqn:Hid; simpl; [|done].
  destruct (includes a (dislikes v)) eqn:Hd; simpl; [done|].
  destruct (includes a (likes v)) eqn:Hl; simpl.
  - erewrite Video_save_engagement; eauto; simpl; auto using push_ne.
    by destruct (_ && _).
  - apply includes_false in Hl. rewrite (without_absent _ _ Hl).
    erewrite Video_save_engagement; eauto; simpl; auto using push_ne.
    by destruct (_ && _).
Qed.

Lemma video_undislike_eval now id a u db :
  video_undislike now id (a, u) db =
    match videos db !! id with
    | None => (status_message 404 "Video not found", db, [])
    | Some v =>
        if includes a (dislikes v)
        then
          if forallb (validate_video_path v) video_paths then
          let v' := set_updatedAt now (set_dislikes (without a (dislikes v)) v) in
          (json (Counts (length (likes v')) (length (dislikes v'))),
           set_videos (<[id := v']> (videos db)) db, [Save MVideo id])
          else (status_message 500 "Server error", db, [])
        else (json (Counts (length (likes v)) (length (dislikes v))), db, [])
    end.
Proof.
  unfold video_undislike. route_unfold. simpl.
  destruct (videos db !! id) as [v|] eqn:Hid; simpl; [|done].
  destruct (includes a (dislikes v)) eqn:Hl; simpl; [|done].
  apply includes_true in Hl.
  erewrite Video_save_engagement; eauto; simpl; auto using without_present_ne.
  by destruct (_ && _).
Qed.

Lemma comment_like_eval now id a u db :
  comment_like now id (a, u) db =
    match comments db !! id with
    | None => (status_message 404 "Comment not found", db, [])
    | Some c =>
        if includes a (c_likes c)
        then (status_message 400 "Comment already liked", db, [])
        else
          if forallb (validate_comment_path c) comment_paths then
          let c' := set_c_updatedAt now
                      (set_c_likes (push a (c_likes c))
                         (set_c_dislikes (without a (c_dislikes c)) c)) in
          (json (Counts (length (c_likes c')) (length (c_dislikes c'))),
           set_comments (<[id := c']> (comments db)) db, [Save MComment id])
          else (status_message 500 "Server error", db, [])
    end.
Proof.
  unfold comment_like. route_unfold. simpl.
  destruct (comments db !! id) as [c|] eqn:Hid; simpl; [|done].
  destruct (includes a (c_likes c)) eqn:Hl; simpl; [done|].
  destruct (includes a (c_dislikes c)) eqn:Hd; simpl.
  - erewrite Comment_save_engagement; eauto; simpl; auto using push_ne.
    by destruct (_ && _).
  - apply includes_false in Hd. rewrite (without_absent _ _ Hd).
    erewrite Comment_save_engagement; eauto; simpl; auto using push_ne.
    by destruct (_ && _).
Qed.

Lemma comment_unlike_eval now id a u db :
  comment_unlike now id (a, u) db =
    match comments db !! id with
    | None => (status_message 404 "Comment not found", db, [])
    | Some c =>
        if includes a (c_likes c)
        then
          if forallb (validate_comment_path c) comment_paths then
          let c' := set_c_updatedAt now (set_c_likes (without a (c_likes c)) c) in
          (json (Counts (length (c_likes c')) (length (c_dislikes c'))),
           set_comments (<[id := c']> (comments db)) db, [Save MComment id])
          else (status_message 500 "Server error", db, [])
        else (json (Counts (length (c_likes c)) (length (c_dislikes c))), db, [])
    end.
Proof.
  unfold comment_unlike. route_unfold. simpl.
  destruct (comments db !! id) as [c|] eqn:Hid; simpl; [|done].
  destruct (includes a (c_likes c)) eqn:Hl; simpl; [|done].
  apply includes_true in Hl.
  erewrite Comment_save_engagement; eauto; simpl; auto using without_present_ne.
  by destruct (_ && _).
Qed.

Lemma comment_dislike_eval now id a u db :
  comment_dislike now id (a, u) db =
    match comments db !! id with
    | None => (status_message 404 "Comment not found", db, [])
    | Some c =>
        if includes a (c_dislikes c)
        then (status_message 400 "Comment already disliked", db, [])
        else
          if forallb (validate_comment_path c) comment_paths then
          let c' := set_c_updatedAt now
                      (set_c_dislikes (push a (c_dislikes c))
                         (set_c_likes (without a (c_likes c)) c)) in
          (json (Counts (length (c_likes c')) (length (c_dislikes c'))),
           set_comments (<[id := c']> (comments db)) db, [Save MComment id])
          else (status_message 500 "Server error", db, [])
    end.
Proof.
  unfold comment_dislike. route_unfold. simpl.
  destruct (comments db !! id) as [c|] eqn:Hid; simpl; [|done].
  destruct (includes a (c_dislikes c)) eqn:Hd; simpl; [done|].
  destruct (includes a (c_likes c)) eqn:Hl; simpl.
  - erewrite Comment_save_engagement; eauto; simpl; auto using push_ne.
    by destruct (_ && _).
  - apply includes_false in Hl. rewrite (without_absent _ _ Hl).
    erewrite Comment_save_engagement; eauto; simpl; auto using push_ne.
    by destruct (_ && _).
Qed.

Lemma comment_undislike_eval now id a u db :
  comment_undislike now id (a, u) db =
    match comments db !! id with
    | None => (status_message 404 "Comment not found", db, [])
    | Some c =>
        if includes a (c_dislikes c)
        then
          if forallb (validate_comment_path c) comment_paths then
          let c' := set_c_updatedAt now
                      (set_c_dislikes (without a (c_dislikes c)) c) in
          (json (Counts (length (c_likes c')) (length (c_dislikes c'))),
           set_comments (<[id := c']> (comments db)) db, [Save MComment id])
          else (status_message 500 "Server error", db, [])
        else (json (Counts (length (c_likes c)) (length (c_dislikes c))), db, [])
    end.
Proof.
  unfold comment_undislike. route_unfold. simpl.
  destruct (comments db !! id) as [c|] eqn:Hid; simpl; [|done].
  destruct (includes a (c_dislikes c)) eqn:Hl; simpl; [|done].
  apply includes_true in Hl.
  erewrite Comment_save_engagement; eauto; simpl; auto using without_present_ne.
  by destruct (_ && _).
Qed.

(** A route behind [authenticate], for a valid token of an existing user. *)
Lemma authenticated_valid a u handler db :
  users db !! a = Some u →
  authenticated (ValidToken a) handler db = handler (a, u) db.
Proof.
  intros Hu. unfold authenticated, authenticate. route_unfold. simpl.
  rewrite Hu. simpl. by destruct (handler (a, u) db) as [[r db'] w].
Qed.

(** Without a valid token of an existing user, a route behind
    [authenticate] answers 401 and touches nothing. *)
Lemma authenticated_invalid token handler db :
  (∀ a, token = ValidToken a → users db !! a = None) →
  ∃ m, authenticated token handler db = (status_message 401 m, db, []).
Proof.
  intros Hu. unfold authenticated, authenticate. route_unfold.
  destruct token as [| |a]; simpl; eauto.
  rewrite (Hu a eq_refl). simpl. eauto.
Qed.

(** ** Mutual exclusion of likes and dislikes *)

Lemma engage_at_most_one e a b ls ds :
  at_most_one b ls ds →
  at_most_one b (engage e a ls ds).1 (engage e a ls ds).2.
Proof.
  unfold at_most_one. intros H.
  destruct e; simpl; repeat case_match; simpl;
    rewrite ?elem_of_push, ?elem_of_without; tauto.
Qed.

Lemma authenticated_cases token handler db :
  (∃ a u, token = ValidToken a ∧ users db !! a = Some u ∧
          authenticated token handler db = handler (a, u) db) ∨
  (∃ m, authenticated token handler db = (status_message 401 m, db, [])).
Proof.
  destruct token as [| |a]; [right; by eexists..|].
  destruct (users db !! a) as [u|] eqn:Hu.
  - left. exists a, u. eauto using authenticated_valid.
  - right. apply authenticated_invalid. by intros ? [= <-].
Qed.

Section Engagement.
Variable textScore : string → Video → option Q.

(** Each video engagement route applies [engage] to the two arrays of its
    target, or changes nothing, and leaves every other document alone. *)
Lemma video_engagement_step now r e db :
  engagement_request r = Some (MVideo, e) →
  let db' := (handle textScore now r db).1.2 in
  comments db' = comments db ∧
  ∀ id v, videos db !! id = Some v →
    ∃ v', videos db' !! id = Some v' ∧
      ((likes v', dislikes v') = (likes v, dislikes v) ∨
       ∃ a, (likes v', dislikes v') = engage e a (likes v) (dislikes v)).
Proof.
  intros Hr.
  assert (Hframe : ∀ id (v v' : Video) id0 v0,
    videos db !! id0 = Some v0 → videos db !! id = Some v →
    (∃ a, (likes v', dislikes v') = engage e a (likes v) (dislikes v)) →
    ∃ v0', <[id := v']> (videos db) !! id0 = Some v0' ∧
      ((likes v0', dislikes v0') = (likes v0, dislikes v0) ∨
       ∃ a, (likes v0', dislikes v0') = engage e a (likes v0) (dislikes v0))).
  { intros id v v' id0 v0 H0 Hv He. destruct (decide (id = id0)) as [->|Hne].
    - rewrite lookup_insert_eq. exists v'. split; [done|]. right.
      rewrite H0 in Hv. by simplify_eq.
    - rewrite lookup_insert_ne by done. eauto. }
  destruct r; simpl in Hr; simplify_eq; simpl;
    (edestruct (authenticated_cases token) as [(a & u & -> & Hu & ->)|[m ->]];
     [ | simpl; by eauto ]).
  all: first [ rewrite video_like_eval | rewrite video_unlike_eval
             | rewrite video_dislike_eval | rewrite video_undislike_eval ];
    destruct (videos db !! id) as [v|] eqn:Hid; [|simpl; by eauto];
    destruct (includes _ _) eqn:Hin; try destruct (forallb _ _); simpl;
    (split; [done|]); eauto;
    intros id0 v0 H0; eapply Hframe; eauto; exists a; simpl;
    by rewrite ?Hin.
Qed.

Lemma comment_engagement_step now r e db :
  engagement_request r = Some (MComment, e) →
  let db' := (handle textScore now r db).1.2 in
  videos db' = videos db ∧
  ∀ id c, comments db !! id = Some c →
    ∃ c', comments db' !! id = Some c' ∧
      ((c_likes c', c_dislikes c') = (c_likes c, c_dislikes c) ∨
       ∃ a, (c_likes c', c_dislikes c') = engage e a (c_likes c) (c_dislikes c)).
Proof.
  intros Hr.
  assert (Hframe : ∀ id (c c' : Comment) id0 c0,
    comments db !! id0 = Some c0 → comments db !! id = Some c →
    (∃ a, (c_likes c', c_dislikes c') = engage e a (c_likes c) (c_dislikes c)) →
    ∃ c0', <[id := c']> (comments db) !! id0 = Some c0' ∧
      ((c_likes c0', c_dislikes c0') = (c_likes c0, c_dislikes c0) ∨
       ∃ a, (c_likes c0', c_dislikes c0')
            = engage e a (c_likes c0) (c_dislikes c0))).
  { intros id c c' id0 c0 H0 Hc He. destruct (decide (id = id0)) as [->|Hne].
    - rewrite lookup_insert_eq. exists c'. split; [done|]. right.
      rewrite H0 in Hc. by simplify_eq.
    - rewrite lookup_insert_ne by done. eauto. }
  destruct r; simpl in Hr; simplify_eq; simpl;
    (edestruct (authenticated_cases token) as [(a & u & -> & Hu & ->)|[m ->]];
     [ | simpl; by eauto ]).
  all: first [ rewrite comment_like_eval | rewrite comment_unlike_eval
             | rewrite comment_dislike_eval | rewrite comment_undislike_eval ];
    destruct (comments db !! id) as [c|] eqn:Hid; [|simpl; by eauto];
    destruct (includes _ _) eqn:Hin; try destruct (forallb _ _); simpl;
    (split; [done|]); eauto;
    intros id0 c0 H0; eapply Hframe; eauto; exists a; simpl;
    by rewrite ?Hin.
Qed.

(** C1. After any sequence of like, unlike, dislike and undislike requests
    (on any videos and comments, by any actors), an actor who was in at
    most one of the [likes] and [dislikes] arrays of a video or of a comment
    is still in at most one of them, and the video or comment is still in
    the store. *)
Theorem likes_dislikes_never_both reqs db a :
  Forall (λ r, is_Some (engagement_request r.2)) reqs →
  (∀ id v, videos db !! id = Some v → at_most_one a (likes v) (dislikes v) →
     ∃ v', videos (serve textScore reqs db) !! id = Some v' ∧
           at_most_one a (likes v') (dislikes v')) ∧
  (∀ id c, comments db !! id = Some c →
     at_most_one a (c_likes c) (c_dislikes c) →
     ∃ c', comments (serve textScore reqs db) !! id = Some c' ∧
           at_most_one a (c_likes c') (c_dislikes c')).
Proof.
  intros Hreqs. revert db.
  induction Hreqs as [|[now r] reqs [[m e] Hr] _ IH]; intros db.
  { split; simpl; eauto. }
  simpl in Hr. unfold serve. simpl. fold (serve textScore reqs).
  specialize (IH (handle textScore now r db).1.2). destruct IH as [IHv IHc].
  destruct m.
  - exfalso. by destruct r.
  - destruct (video_engagement_step now r e db Hr) as [Hc Hv]. split.
    + intros id v Hid Hex. destruct (Hv id v Hid) as (v' & Hid' & Hv').
      apply (IHv id v' Hid').
      destruct Hv' as [Hsame|[b Hb]].
      * by injection Hsame as -> ->.
      * pose proof (engage_at_most_one e b a _ _ Hex) as H.
        rewrite <- Hb in H. done.
    + intros id c Hid Hex. apply (IHc id c); [by rewrite Hc|done].
  - destruct (comment_engagement_step now r e db Hr) as [Hv Hc]. split.
    + intros id v Hid Hex. apply (IHv id v); [by rewrite Hv|done].
    + intros id c Hid Hex. destruct (Hc id c Hid) as (c' & Hid' & Hc').
      apply (IHc id c' Hid').
      destruct Hc' as [Hsame|[b Hb]].
      * by injection Hsame as -> ->.
      * pose proof (engage_at_most_one e b a _ _ Hex) as H.
        rewrite <- Hb in H. done.
  - exfalso. by destruct r.
Qed.
End Engagement.

(** ** Like and dislike of a video *)

Section VideoEngagement.
Variable textScore : string → Video → option Q.

(** [POST /:id/like] behind [authenticate], for an existing user and an
    existing video that passes the validators of its schema. *)
Lemma post_video_like now a u id v db :
  users db !! a = Some u →
  videos db !! id = Some v →
  video_valid v →
  handle textScore now (PostVideoLike (ValidToken a) id) db =
    (if includes a (likes v)
     then (status_message 400 "Video already liked", db, [])
     else
       let v' := set_updatedAt now
                   (set_likes (likes v ++ [a])
                      (set_dislikes (without a (dislikes v)) v)) in
       (json (Counts (S (length (likes v)))
                     (length (without a (dislikes v)))),
        set_videos (<[id := v']> (videos db)) db, [Save MVideo id])).
Proof.
  intros Hu Hv Hvalid. cbn [handle]. rewrite (authenticated_valid _ _ _ _ Hu).
  rewrite video_like_eval, Hv, Hvalid. unfold push. cbv zeta.
  cbn [likes dislikes set_updatedAt set_likes set_dislikes].
  rewrite !length_app. simpl. rewrite !Nat.add_1_r. done.
Qed.

(** C2. For an existing video that passes the validators of its schema
    (as every video does that the routes have stored) and an authenticated
    actor, like answers 400 and changes nothing when the actor is already
    in [likes]; otherwise it removes the actor from [dislikes], appends the
    actor to [likes], saves the video once and answers the new counts.
    Dislike is symmetric. *)
Theorem video_like_dislike now a u id v db :
  users db !! a = Some u →
  videos db !! id = Some v →
  video_valid v →
  handle textScore now (PostVideoLike (ValidToken a) id) db =
    (if includes a (likes v)
     then (status_message 400 "Video already liked", db, [])
     else
       let v' := set_updatedAt now
                   (set_likes (likes v ++ [a])
                      (set_dislikes (without a (dislikes v)) v)) in
       (json (Counts (S (length (likes v)))
                     (length (without a (dislikes v)))),
        set_videos (<[id := v']> (videos db)) db, [Save MVideo id]))
  ∧
  handle textScore now (PostVideoDislike (ValidToken a) id) db =
    (if includes a (dislikes v)
     then (status_message 400 "Video already disliked", db, [])
     else
       let v' := set_updatedAt now
                   (set_dislikes (dislikes v ++ [a])
                      (set_likes (without a (likes v)) v)) in
       (json (Counts (length (without a (likes v)))
                     (S (length (dislikes v)))),
        set_videos (<[id := v']> (videos db)) db, [Save MVideo id])).
Proof.
  intros Hu Hv Hvalid. split; [by apply (post_video_like _ _ u)|].
  cbn [handle]. rewrite (authenticated_valid _ _ _ _ Hu).
  rewrite video_dislike_eval, Hv, Hvalid. unfold push. cbv zeta.
  cbn [likes dislikes set_updatedAt set_likes set_dislikes].
  rewrite !length_app. simpl. rewrite !Nat.add_1_r. done.
Qed.

(** C3, as amended. For a video that passes the validators of its schema
    (as every video does that the routes have stored): when the actor has
    not liked the video, like followed by unlike restores the [likes] array
    and leaves [dislikes] without the actor, and the unlike answers those
    counts; so both counts are back to their values before the like when
    the actor had not disliked the video either. Unlike on a video the
    actor has not liked writes nothing and answers the unchanged counts. *)
Theorem like_unlike_counts now now' a u id v db :
  users db !! a = Some u →
  videos db !! id = Some v →
  video_valid v →
  a ∉ likes v →
  let db1 := (handle textScore now (PostVideoLike (ValidToken a) id) db).1.2 in
  (∃ v'', videos (like_then_unlike textScore now now' a id db) !! id = Some v'' ∧
          likes v'' = likes v ∧ dislikes v'' = without a (dislikes v)) ∧
  (handle textScore now' (DeleteVideoUnlike (ValidToken a) id) db1).1.1 =
    json (Counts (length (likes v)) (length (without a (dislikes v)))) ∧
  (a ∉ dislikes v →
     video_counts id (like_then_unlike textScore now now' a id db) = video_counts id db) ∧
  handle textScore now (DeleteVideoUnlike (ValidToken a) id) db =
    (json (Counts (length (likes v)) (length (dislikes v))), db, []).
Proof.
  intros Hu Hv Hvalid Hl db1.
  assert (Hsame : handle textScore now (DeleteVideoUnlike (ValidToken a) id) db
                  = (json (Counts (length (likes v)) (length (dislikes v))), db, [])).
  { simpl. rewrite (authenticated_valid _ _ _ _ Hu), video_unlike_eval, Hv.
    apply includes_false in Hl. by rewrite Hl. }
  pose proof (post_video_like now a u id v db Hu Hv Hvalid) as Hlike.
  apply includes_false in Hl as Hl'. rewrite Hl' in Hlike. cbv zeta in Hlike.
  assert (Hu1 : users db1 !! a = Some u) by (subst db1; by rewrite Hlike).
  set (v1 := set_updatedAt now
               (set_likes (likes v ++ [a])
                  (set_dislikes (without a (dislikes v)) v))) in *.
  assert (Hv1 : videos db1 !! id = Some v1).
  { subst db1. rewrite Hlike. simpl. apply lookup_insert_eq. }
  assert (Hunlike :
    handle textScore now' (DeleteVideoUnlike (ValidToken a) id) db1 =
      (json (Counts (length (likes v)) (length (without a (dislikes v)))),
       set_videos (<[id := set_updatedAt now' (set_likes (likes v) v1)]>
                     (videos db1)) db1, [Save MVideo id])).
  { cbn [handle].
    rewrite (authenticated_valid _ _ _ _ Hu1), video_unlike_eval, Hv1.
    assert (Hin : includes a (likes v1) = true).
    { apply includes_true. simpl. apply elem_of_app. right. by left. }
    rewrite Hin, (validate_video_same v v1 eq_refl eq_refl eq_refl eq_refl
                    eq_refl), Hvalid.
    simpl. fold (push a (likes v)).
    by rewrite (without_push _ _ Hl). }
  assert (Hfinal : videos (like_then_unlike textScore now now' a id db) !! id
                   = Some (set_updatedAt now' (set_likes (likes v) v1))).
  { unfold like_then_unlike, serve. cbn [foldl fst snd]. fold db1.
    rewrite Hunlike. simpl.
    apply lookup_insert_eq. }
  split; [|split; [|split]]; [| |intros Hd|exact Hsame].
  - eexists. split; [exact Hfinal|]. done.
  - by rewrite Hunlike.
  - unfold video_counts. rewrite Hfinal, Hv. simpl.
    by rewrite (without_absent _ _ Hd).
Qed.

End VideoEngagement.

(** The like of C2 on the sample store: alice, who had disliked the clip,
    likes it. *)
Lemma video_like_dislike_witness :
  users sample_db !! "u1" = Some alice ∧
  videos sample_db !! "v1" = Some clip ∧
  video_valid clip ∧
  handle no_text_index 7 (PostVideoLike (ValidToken "u1") "v1") sample_db =
    (json (Counts 1 0),
     set_videos
       (<["v1" := set_updatedAt 7 (set_likes ["u1"] (set_dislikes [] clip))]>
          (videos sample_db)) sample_db,
     [Save MVideo "v1"]).
Proof.
  split; [reflexivity|]. split; [reflexivity|]. split; [reflexivity|].
  apply (video_like_dislike no_text_index 7 "u1" alice "v1" clip sample_db);
    reflexivity.
Defined.

(** C3 as stated fails: alice has disliked the clip, so her like removes the
    dislike and her unlike does not bring it back; the counts go from
    (0, 1) to (0, 0). *)
Lemma like_unlike_counts_counterexample :
  video_counts "v1" sample_db = Some (0, 1) ∧
  video_counts "v1" (like_then_unlike no_text_index 1 2 "u1" "v1" sample_db)
    = Some (0, 0) ∧
  video_counts "v1" (like_then_unlike no_text_index 1 2 "u1" "v1" sample_db)
    ≠ video_counts "v1" sample_db.
Proof. split; [|split]; [reflexivity| reflexivity| by vm_compute]. Qed.

(** Bob, who has neither liked nor disliked the clip, likes and unlikes it:
    the counts are back. *)
Lemma like_unlike_counts_witness :
  users sample_db !! "u2" = Some bob ∧
  videos sample_db !! "v1" = Some clip ∧
  video_valid clip ∧
  ("u2" ∉ likes clip) ∧
  video_counts "v1" (like_then_unlike no_text_index 1 2 "u2" "v1" sample_db)
    = video_counts "v1" sample_db.
Proof.
  assert (Hu : users sample_db !! "u2" = Some bob) by reflexivity.
  assert (Hv : videos sample_db !! "v1" = Some clip) by reflexivity.
  assert (Hl : "u2" ∉ likes clip) by (intros H; inversion H).
  assert (Hvalid : video_valid clip) by reflexivity.
  split; [exact Hu|]. split; [exact Hv|]. split; [exact Hvalid|].
  split; [exact Hl|].
  apply (like_unlike_counts no_text_index 1 2 "u2" bob "v1" clip sample_db
           Hu Hv Hvalid Hl).
  simpl. rewrite list_elem_of_singleton. discriminate.
Defined.

(** ** Subscribe and unsubscribe *)

Lemma user_subscribe_eval channelId a u db :
  user_subscribe channelId (a, u) db =
    if String.eqb channelId a
    then (status_message 400 "Cannot subscribe to your own channel", db, [])
    else
      match castObjectId channelId with
      | None => (status_message 500 "Server error", db, [])
      | Some c =>
          match users db !! c with
          | None => (status_message 404 "Channel not found", db, [])
          | Some channel =>
              if includes a (subscribers channel)
              then (status_message 400 "Already subscribed to this channel",
                    db, [])
              else
                (json (Message "Subscribed successfully"),
                 set_users
                   (alter (λ u, set_subscribedTo (push c (subscribedTo u)) u)
                      a
                      (alter (λ u, set_subscribers (push a (subscribers u)) u)
                         c (users db))) db,
                 [FindByIdAndUpdate MUser c; FindByIdAndUpdate MUser a])
          end
      end.
Proof.
  unfold user_subscribe, casting, User_findByIdAndUpdate. route_unfold. simpl.
  destruct (String.eqb channelId a); simpl; [done|].
  destruct (castObjectId channelId) as [c|]; simpl; [|done].
  destruct (users db !! c) as [channel|]; simpl; [|done].
  by destruct (includes a (subscribers channel)).
Qed.

Lemma user_unsubscribe_eval channelId a u db :
  user_unsubscribe channelId (a, u) db =
    match castObjectId channelId with
    | None => (status_message 500 "Server error", db, [])
    | Some c =>
        match users db !! c with
        | None => (status_message 404 "Channel not found", db, [])
        | Some channel =>
            if includes a (subscribers channel)
            then
              (json (Message "Unsubscribed successfully"),
               set_users
                 (alter (λ u, set_subscribedTo (without c (subscribedTo u)) u)
                    a
                    (alter (λ u, set_subscribers (without a (subscribers u)) u)
                       c (users db))) db,
               [FindByIdAndUpdate MUser c; FindByIdAndUpdate MUser a])
            else (status_message 400 "Not subscribed to this channel", db, [])
        end
    end.
Proof.
  unfold user_unsubscribe, casting, User_findByIdAndUpdate. route_unfold. simpl.
  destruct (castObjectId channelId) as [c|]; simpl; [|done].
  destruct (users db !! c) as [channel|]; simpl; [|done].
  by destruct (includes a (subscribers channel)).
Qed.

Section Subscriptions.
Variable textScore : string → Video → option Q.

(** Between two distinct existing users without an edge, subscribing and
    then unsubscribing both succeed, the edge is there in between, and
    afterwards there is again no edge between the two, in either array and
    in either direction; the channel may be given in any spelling [b] of
    its identifier [c]. A user who subscribes to the canonical form of their
    own identifier is answered 400, in every store, and no document is
    written. *)
Lemma subscribe_unsubscribe_restores now now' a ua db :
  users db !! a = Some ua →
  (∀ b c uc, castObjectId b = Some c → b ≠ a → a ≠ c →
     users db !! c = Some uc →
     ¬ edge db a c → ¬ edge db c a →
     let sub := handle textScore now (PostUserSubscribe (ValidToken a) b) db in
     let unsub :=
       handle textScore now' (DeleteUserUnsubscribe (ValidToken a) b) sub.1.2 in
     sub.1.1 = json (Message "Subscribed successfully") ∧
     edge sub.1.2 a c ∧
     unsub.1.1 = json (Message "Unsubscribed successfully") ∧
     unsub.1.2 = subscribe_then_unsubscribe textScore now now' a b db ∧
     unsub.1.2 = db ∧
     ¬ edge unsub.1.2 a c ∧ ¬ edge unsub.1.2 c a) ∧
  handle textScore now (PostUserSubscribe (ValidToken a) a) db =
    (status_message 400 "Cannot subscribe to your own channel", db, []).
Proof.
  intros Hua. split.
  2:{ simpl. rewrite (authenticated_valid _ _ _ _ Hua), user_subscribe_eval.
      by rewrite String.eqb_refl. }
  intros b c uc Hcast Hba Hac Huc Hno Hno' sub unsub.
  assert (Ha : a ∉ subscribers uc) by (intros ?; apply Hno; left; eauto).
  assert (Hb : c ∉ subscribedTo ua) by (intros ?; apply Hno; right; eauto).
  assert (Hne : String.eqb b a = false) by (by apply String.eqb_neq).
  set (ua1 := set_subscribedTo (push c (subscribedTo ua)) ua).
  set (uc1 := set_subscribers (push a (subscribers uc)) uc).
  assert (Hsub : sub = (json (Message "Subscribed successfully"),
                        set_users (<[a := ua1]> (<[c := uc1]> (users db))) db,
                        [FindByIdAndUpdate MUser c; FindByIdAndUpdate MUser a])).
  { subst sub. simpl.
    rewrite (authenticated_valid _ _ _ _ Hua), user_subscribe_eval, Hne, Hcast,
      Huc.
    apply includes_false in Ha. rewrite Ha. do 3 f_equal.
    apply map_eq. intros k. rewrite !lookup_alter, !lookup_insert.
    repeat case_decide; simplify_eq; by rewrite ?Hua, ?Huc. }
  assert (Hua1 : users sub.1.2 !! a = Some ua1).
  { rewrite Hsub. simpl. apply lookup_insert_eq. }
  assert (Huc1 : users sub.1.2 !! c = Some uc1).
  { rewrite Hsub. simpl. rewrite lookup_insert_ne by done.
    apply lookup_insert_eq. }
  assert (Hunsub : unsub = (json (Message "Unsubscribed successfully"),
                            set_users (<[a := ua]> (<[c := uc]> (users db))) db,
                            [FindByIdAndUpdate MUser c; FindByIdAndUpdate MUser a])).
  { subst unsub. simpl.
    rewrite (authenticated_valid _ _ _ _ Hua1), user_unsubscribe_eval, Hcast,
      Huc1.
    assert (Hin : includes a (subscribers uc1) = true).
    { apply includes_true. simpl. apply elem_of_push. by right. }
    rewrite Hin, Hsub. simpl. do 2 f_equal. unfold set_users. simpl. f_equal.
    apply map_eq. intros k. rewrite !lookup_alter, !lookup_insert.
    repeat case_decide; simplify_eq; simpl; try done.
    - f_equal. rewrite (without_push _ _ Hb). by destruct ua.
    - f_equal. rewrite (without_push _ _ Ha). by destruct uc. }
  assert (Hback : unsub.1.2 = db).
  { rewrite Hunsub. simpl.
    rewrite (insert_id (users db) c uc Huc), (insert_id (users db) a ua Hua).
    by destruct db. }
  split; [by rewrite Hsub|]. split.
  { left. exists uc1. split; [done|]. simpl. apply elem_of_push. by right. }
  split; [by rewrite Hunsub|]. split.
  { subst unsub sub. reflexivity. }
  split; [exact Hback|]. by rewrite Hback.
Qed.

(** C7. The subscribe route compares the raw [channelId] of the request
    with the identifier of the caller as strings, while the Mongoose calls
    that follow cast it to an identifier. So a caller who gives their own
    identifier in another spelling (a hexadecimal digit in upper case)
    passes the check against self-subscription: the request is answered
    200, and the caller is written into their own [subscribers] and
    [subscribedTo]. Self-subscription does not always fail. *)
Theorem self_subscription_other_spelling now a ua channelId db :
  users db !! a = Some ua →
  castObjectId channelId = Some a →
  channelId ≠ a →
  a ∉ subscribers ua →
  let res :=
    handle textScore now (PostUserSubscribe (ValidToken a) channelId) db in
  res.1.1 = json (Message "Subscribed successfully") ∧
  res.2 = [FindByIdAndUpdate MUser a; FindByIdAndUpdate MUser a] ∧
  (∃ ua', users res.1.2 !! a = Some ua' ∧
          a ∈ subscribers ua' ∧ a ∈ subscribedTo ua') ∧
  edge res.1.2 a a.
Proof.
  intros Hua Hcast Hne Hin res.
  assert (Hres : res = (json (Message "Subscribed successfully"),
            set_users
              (alter (λ u, set_subscribedTo (push a (subscribedTo u)) u) a
                 (alter (λ u, set_subscribers (push a (subscribers u)) u)
                    a (users db))) db,
            [FindByIdAndUpdate MUser a; FindByIdAndUpdate MUser a])).
  { subst res. cbn [handle].
    rewrite (authenticated_valid _ _ _ _ Hua), user_subscribe_eval.
    apply String.eqb_neq in Hne. rewrite Hne, Hcast, Hua.
    apply includes_false in Hin. by rewrite Hin. }
  rewrite Hres. cbn [fst snd users set_users].
  set (ua' := set_subscribedTo (push a (subscribedTo ua))
                (set_subscribers (push a (subscribers ua)) ua)).
  assert (Hua' : alter (λ u, set_subscribedTo (push a (subscribedTo u)) u) a
                   (alter (λ u, set_subscribers (push a (subscribers u)) u)
                      a (users db)) !! a = Some ua').
  { rewrite !lookup_alter_eq, Hua. done. }
  assert (Hself : a ∈ subscribers ua').
  { subst ua'. simpl. apply elem_of_push. by right. }
  split; [done|]. split; [done|]. split.
  - exists ua'. split; [done|]. split; [done|].
    subst ua'. simpl. apply elem_of_push. by right.
  - left. exists ua'. by split.
Qed.

End Subscriptions.

(** Nobody subscribes to anybody in the sample store. *)
Lemma sample_db_no_edge a b : ¬ edge sample_db a b.
Proof.
  assert (Hnone : ∀ k u, users sample_db !! k = Some u →
                         subscribers u = [] ∧ subscribedTo u = []).
  { intros k u Hk. unfold sample_db in Hk. simpl in Hk.
    apply lookup_insert_Some in Hk as [[_ <-]|[_ Hk]]; [done|].
    by apply lookup_singleton_Some in Hk as [_ <-]. }
  intros [(u & Hu & Hin)|(u & Hu & Hin)];
    apply Hnone in Hu as [Hs Ht]; rewrite ?Hs, ?Ht in Hin; inversion Hin.
Qed.

(** Carol subscribes to her own channel, with the letters of her identifier
    in upper case. *)
Lemma self_subscription_other_spelling_witness :
  users channel_db !! carol_id = Some carol ∧
  castObjectId "65A1B2C3D4E5F60718293A4B" = Some carol_id ∧
  "65A1B2C3D4E5F60718293A4B" ≠ carol_id ∧
  (carol_id ∉ subscribers carol) ∧
  handle no_text_index 1
    (PostUserSubscribe (ValidToken carol_id) "65A1B2C3D4E5F60718293A4B")
    channel_db
  = (json (Message "Subscribed successfully"),
     set_users
       (<[carol_id := mkUser "carol" "" "" false [carol_id] [carol_id]]>
          (users channel_db)) channel_db,
     [FindByIdAndUpdate MUser carol_id; FindByIdAndUpdate MUser carol_id]) ∧
  edge (handle no_text_index 1
          (PostUserSubscribe (ValidToken carol_id) "65A1B2C3D4E5F60718293A4B")
          channel_db).1.2 carol_id carol_id.
Proof.
  assert (Hu : users channel_db !! carol_id = Some carol) by reflexivity.
  assert (Hc : castObjectId "65A1B2C3D4E5F60718293A4B" = Some carol_id)
    by reflexivity.
  assert (Hn : "65A1B2C3D4E5F60718293A4B" ≠ carol_id) by discriminate.
  assert (Hs : carol_id ∉ subscribers carol) by (intros H; inversion H).
  split; [exact Hu|]. split; [exact Hc|]. split; [exact Hn|].
  split; [exact Hs|]. split; [reflexivity|].
  exact (proj2 (proj2 (proj2
    (self_subscription_other_spelling no_text_index 1 carol_id carol
       "65A1B2C3D4E5F60718293A4B" channel_db Hu Hc Hn Hs)))).
Defined.

(** ** Queries with one property *)

Lemma object_literal_one {A} k (c : A) : object_literal [(k, c)] = {[k := c]}.
Proof. unfold object_literal. simpl. apply insert_empty. Qed.

Lemma matches_one {D} (path : string → Doc D → Field) k c d :
  matches path (object_literal [(k, c)]) d = cond_holds c (path k d).
Proof.
  unfold matches. rewrite object_literal_one.
  destruct (cond_holds c (path k d)) eqn:Hc.
  - apply bool_decide_eq_true. by apply map_Forall_singleton.
  - apply bool_decide_eq_false. rewrite map_Forall_singleton. congruence.
Qed.

Lemma matches_video_is id (d : Doc Comment) :
  matches comment_path (object_literal [("video", Is id)]) d
  = bool_decide (c_video d.2 = id).
Proof. by rewrite matches_one. Qed.

Lemma matches_parentComment_is id (d : Doc Comment) :
  matches comment_path (object_literal [("parentComment", Is id)]) d
  = bool_decide (parentComment d.2 = Some id).
Proof.
  rewrite matches_one. unfold comment_path. simpl.
  destruct (parentComment d.2) as [p|]; simpl.
  - apply bool_decide_ext. split; congruence.
  - done.
Qed.

(** ** Deleting a video *)

Lemma video_delete_eval id a u db :
  video_delete id (a, u) db =
    match videos db !! id with
    | None => (status_message 404 "Video not found", db, [])
    | Some v =>
        if not_authorized (v_user v) (a, u)
        then (status_message 403 "Not authorized to delete this video", db, [])
        else
          (json (Message "Video deleted successfully"),
           set_comments
             (deleteMany comment_path (object_literal [("video", Is id)])
                (comments db))
             (set_videos (delete id (videos db)) db),
           [FindByIdAndDelete MVideo id; DeleteMany MComment])
    end.
Proof.
  unfold video_delete, Video_findByIdAndDelete, Comment_deleteMany.
  route_unfold. simpl.
  destruct (videos db !! id) as [v|]; simpl; [|done].
  by destruct (not_authorized (v_user v) (a, u)).
Qed.

Lemma authorized_owner_or_admin owner a u :
  owner = a ∨ isAdmin u = true → not_authorized owner (a, u) = false.
Proof.
  unfold not_authorized. simpl. intros [->| ->].
  - by rewrite String.eqb_refl.
  - apply andb_false_r.
Qed.

Section Cascades.
Variable textScore : string → Video → option Q.

(** C5. When the owner of a video, or an administrator, deletes it, the
    request succeeds, the video is gone, no comment of the store references
    the video any more, whatever their number and whether they are replies
    or not, and the comments on other videos are untouched. *)
Theorem video_delete_removes_comments now a u id v db :
  users db !! a = Some u →
  videos db !! id = Some v →
  v_user v = a ∨ isAdmin u = true →
  let res := handle textScore now (DeleteVideo (ValidToken a) id) db in
  res.1.1 = json (Message "Video deleted successfully") ∧
  videos res.1.2 !! id = None ∧
  comments_on id (comments res.1.2) = ∅ ∧
  (∀ cid c, comments res.1.2 !! cid = Some c → c_video c ≠ id) ∧
  (∀ cid c, comments db !! cid = Some c → c_video c ≠ id →
            comments res.1.2 !! cid = Some c).
Proof.
  intros Hu Hv Hauth res. subst res. simpl.
  rewrite (authenticated_valid _ _ _ _ Hu), video_delete_eval, Hv.
  rewrite (authorized_owner_or_admin _ _ _ Hauth). simpl.
  assert (Hgone : ∀ cid c,
    deleteMany comment_path (object_literal [("video", Is id)]) (comments db)
      !! cid = Some c ↔ comments db !! cid = Some c ∧ c_video c ≠ id).
  { intros cid c. unfold deleteMany. rewrite map_lookup_filter_Some.
    rewrite matches_video_is, bool_decide_eq_false. simpl. tauto. }
  split; [done|]. split; [apply lookup_delete_eq|]. split; [|split].
  - apply map_empty_filter. intros cid c Hc. simpl.
    by apply Hgone in Hc as [_ Hc].
  - intros cid c Hc. by apply Hgone in Hc as [_ Hc].
  - intros cid c Hc Hne. by apply Hgone.
Qed.

End Cascades.

(** Bob deletes his clip, which has a comment with two replies. *)
Lemma video_delete_removes_comments_witness :
  users thread_db !! "u2" = Some bob ∧
  videos thread_db !! "v1" = Some clip ∧
  (v_user clip = "u2" ∨ isAdmin bob = true) ∧
  comments_on "v1"
    (comments (handle no_text_index 3 (DeleteVideo (ValidToken "u2") "v1")
                      thread_db).1.2) = ∅.
Proof.
  assert (Hu : users thread_db !! "u2" = Some bob) by reflexivity.
  assert (Hv : videos thread_db !! "v1" = Some clip) by reflexivity.
  assert (Ho : v_user clip = "u2" ∨ isAdmin bob = true) by (left; reflexivity).
  split; [exact Hu|]. split; [exact Hv|]. split; [exact Ho|].
  apply (video_delete_removes_comments no_text_index 3 "u2" bob "v1" clip
           thread_db Hu Hv Ho).
Defined.

(** ** Deleting a comment *)

Lemma comment_delete_eval now id a u db :
  comment_delete now id (a, u) db =
    match comments db !! id with
    | None => (status_message 404 "Comment not found", db, [])
    | Some c =>
        if not_authorized (c_user c) (a, u)
        then (status_message 403 "Not authorized to delete this comment",
              db, [])
        else
          match parentComment c with
          | None =>
              (json (Message "Comment deleted successfully"),
               set_comments
                 (delete id
                    (deleteMany comment_path
                       (object_literal [("parentComment", Is id)])
                       (comments db))) db,
               [DeleteMany MComment; FindByIdAndDelete MComment id])
          | Some parent =>
              (json (Message "Comment deleted successfully"),
               set_comments
                 (delete id
                    (alter (λ c, set_c_updatedAt now
                                   (set_replies (without id (replies c)) c))
                       parent (comments db))) db,
               [FindByIdAndUpdate MComment parent;
                FindByIdAndDelete MComment id])
          end
    end.
Proof.
  unfold comment_delete, Comment_findByIdAndDelete, Comment_deleteMany,
    Comment_findByIdAndUpdate.
  route_unfold. simpl.
  destruct (comments db !! id) as [c|]; simpl; [|done].
  destruct (not_authorized (c_user c) (a, u)); simpl; [done|].
  by destruct (parentComment c).
Qed.

Lemma lookup_replies_to p (m : gmap string Comment) k c :
  replies_to p m !! k = Some c ↔ m !! k = Some c ∧ parentComment c = Some p.
Proof. unfold replies_to. by rewrite map_lookup_filter_Some. Qed.

Lemma deleteMany_replies id (m : gmap string Comment) :
  deleteMany comment_path (object_literal [("parentComment", Is id)]) m
  = filter (λ d, ¬ parentComment d.2 = Some id) m.
Proof.
  unfold deleteMany. apply map_filter_ext. intros k c _.
  by rewrite matches_parentComment_is, bool_decide_eq_false.
Qed.

Lemma size_replies_split id (m : gmap string Comment) :
  size m = size (replies_to id m)
           + size (filter (λ d, ¬ parentComment d.2 = Some id) m).
Proof.
  unfold replies_to. rewrite <- map_size_disj_union
    by apply map_disjoint_filter_complement.
  by rewrite map_filter_union_complement.
Qed.

Section Threads.
Variable textScore : string → Video → option Q.

(** C6. When the author of a comment, or an administrator, deletes it, the
    request succeeds and the comment is gone. If the comment is top-level
    and has K replies, each of them is gone as well, the store has K + 1
    comments fewer, and the other comments are untouched. If the comment is
    a reply, it is the only comment that leaves the store, so that of K
    replies to its parent K - 1 remain, unchanged, and the parent's
    [replies] list loses the deleted [_id] and nothing else. *)
Theorem comment_delete_thread now a u id c db :
  users db !! a = Some u →
  comments db !! id = Some c →
  c_user c = a ∨ isAdmin u = true →
  let res := handle textScore now (DeleteComment (ValidToken a) id) db in
  let m := comments db in
  let m' := comments res.1.2 in
  res.1.1 = json (Message "Comment deleted successfully") ∧
  m' !! id = None ∧
  match parentComment c with
  | None =>
      (∀ rid r, replies_to id m !! rid = Some r → m' !! rid = None) ∧
      replies_to id m' = ∅ ∧
      size m' = size m - S (size (replies_to id m)) ∧
      (∀ k c0, m !! k = Some c0 → k ≠ id → parentComment c0 ≠ Some id →
               m' !! k = Some c0)
  | Some p =>
      dom m' = dom m ∖ {[id]} ∧
      dom (replies_to p m') = dom (replies_to p m) ∖ {[id]} ∧
      size (replies_to p m') = size (replies_to p m) - 1 ∧
      (∀ k, k ≠ id → k ≠ p → m' !! k = m !! k) ∧
      (∀ pc, p ≠ id → m !! p = Some pc →
         ∃ pc', m' !! p = Some pc' ∧
                pc' = set_c_updatedAt now
                        (set_replies (without id (replies pc)) pc) ∧
                ∀ x, x ∈ replies pc' ↔ x ∈ replies pc ∧ x ≠ id)
  end.
Proof.
  intros Hu Hc Hauth res m m'. subst res m m'. simpl.
  rewrite (authenticated_valid _ _ _ _ Hu), comment_delete_eval, Hc.
  rewrite (authorized_owner_or_admin _ _ _ Hauth).
  destruct (parentComment c) as [p|] eqn:Hp; simpl.
  - set (f := λ c0, set_c_updatedAt now
                      (set_replies (without id (replies c0)) c0)).
    assert (Hdom : dom (replies_to p (delete id (alter f p (comments db))))
                   = dom (replies_to p (comments db)) ∖ {[id]}).
    { apply set_eq. intros k.
      rewrite elem_of_difference, !elem_of_dom, not_elem_of_singleton.
      unfold is_Some. setoid_rewrite lookup_replies_to.
      destruct (decide (k = id)) as [->|Hk].
      { rewrite lookup_delete_eq. split; [by intros (? & ? & ?)|tauto]. }
      rewrite lookup_delete_ne by done. rewrite lookup_alter.
      case_decide as Hkp; [subst k|tauto].
      destruct (comments db !! p) as [pc|]; simpl;
        [|split; [by intros (? & ? & ?)|by intros [(? & ? & ?) _]]].
      split.
      - intros (x & [= <-] & Hx). simpl in Hx. eauto.
      - intros [(x & [= <-] & Hx) _]. eexists. split; [done|]. done. }
    split; [done|]. split; [apply lookup_delete_eq|].
    split; [by rewrite dom_delete_L, dom_alter_L|].
    split; [exact Hdom|]. split.
    { rewrite <- !size_dom, Hdom. rewrite size_difference, size_singleton.
      - done.
      - apply singleton_subseteq_l, elem_of_dom. exists c.
        by apply lookup_replies_to. }
    split.
    + intros k Hk Hkp. rewrite lookup_delete_ne by done.
      by rewrite lookup_alter_ne.
    + intros pc Hpid Hpc. eexists. split; [|split; [reflexivity|]].
      * rewrite lookup_delete_ne by done. rewrite lookup_alter_eq, Hpc. done.
      * intros x. simpl. apply elem_of_without.
  - rewrite deleteMany_replies.
    set (keep := filter (λ d : Doc Comment, ¬ parentComment d.2 = Some id)
                        (comments db)).
    assert (Hkeep : keep !! id = Some c).
    { apply map_lookup_filter_Some. split; [done|]. simpl. congruence. }
    split; [done|]. split; [apply lookup_delete_eq|]. split; [|split; [|split]].
    + intros rid r Hr. apply lookup_replies_to in Hr as [Hr Hpr].
      destruct (decide (rid = id)) as [->|Hne]; [apply lookup_delete_eq|].
      rewrite lookup_delete_ne by done.
      apply map_lookup_filter_None. right. intros r' Hr'. simpl.
      rewrite Hr in Hr'. simplify_eq. simpl. tauto.
    + apply map_empty_filter. intros k c0 Hk. simpl.
      apply lookup_delete_Some in Hk as [_ Hk].
      by apply map_lookup_filter_Some in Hk as [_ Hk].
    + rewrite map_size_delete_Some by eauto.
      rewrite (size_replies_split id (comments db)). fold keep.
      assert (0 < size keep).
      { destruct (decide (size keep = 0)) as [H0|]; [|lia].
        apply map_size_empty_iff in H0. by rewrite H0 in Hkeep. }
      lia.
    + intros k c0 Hk Hne Hpar. rewrite lookup_delete_ne by done.
      by apply map_lookup_filter_Some.
Qed.

End Threads.

(** Alice deletes her top-level comment, and, in the same store, one of its
    two replies. *)
Lemma comment_delete_thread_witness :
  users thread_db !! "u1" = Some alice ∧
  comments thread_db !! "c1" = Some (remark "v1" None ["c2"; "c3"]) ∧
  comments thread_db !! "c2" = Some (remark "v1" (Some "c1") []) ∧
  (c_user (remark "v1" None ["c2"; "c3"]) = "u1" ∨ isAdmin alice = true) ∧
  comments (handle no_text_index 4 (DeleteComment (ValidToken "u1") "c1")
                   thread_db).1.2 !! "c3" = None ∧
  size (replies_to "c1"
          (comments (handle no_text_index 4
                       (DeleteComment (ValidToken "u1") "c2") thread_db).1.2))
  = size (replies_to "c1" (comments thread_db)) - 1.
Proof.
  assert (Hu : users thread_db !! "u1" = Some alice) by reflexivity.
  assert (H1 : comments thread_db !! "c1"
               = Some (remark "v1" None ["c2"; "c3"])) by reflexivity.
  assert (H2 : comments thread_db !! "c2"
               = Some (remark "v1" (Some "c1") [])) by reflexivity.
  assert (Ho : ∀ p l, c_user (remark "v1" p l) = "u1" ∨ isAdmin alice = true)
    by (intros; left; reflexivity).
  split; [exact Hu|]. split; [exact H1|]. split; [exact H2|].
  split; [apply Ho|]. split.
  - pose proof (comment_delete_thread no_text_index 4 "u1" alice "c1" _
                  thread_db Hu H1 (Ho _ _)) as (_ & _ & Hreplies & _).
    apply (Hreplies "c3" (remark "v1" (Some "c1") [])). reflexivity.
  - pose proof (comment_delete_thread no_text_index 4 "u1" alice "c2" _
                  thread_db Hu H2 (Ho _ _)) as (_ & _ & _ & _ & Hsize & _).
    exact Hsize.
Defined.

(** ** Creating a video *)

(** The document that [POST /] hands to [new Video]. *)
Lemma video_create_eval now fresh probe files body a u db :
  video_create now fresh probe files body (a, u) db =
    match f_video files, f_thumbnail files with
    | Some videoPath, Some thumbnailPath =>
        let video := {|
          title := trim <$> b_title body;
          description := trim <$> b_description body;
          videoUrl := String.app "/" videoPath;
          thumbnailUrl := String.app "/" thumbnailPath;
          duration := default 0%Q probe;
          v_user := a;
          views := 0;
          category := or_else (b_category body) "Entertainment";
          tags := trim <$> parse_tags (b_tags body);
          likes := [];
          dislikes := [];
          createdAt := now;
          updatedAt := now |} in
        if required (title video) && maxlength 100 (title video)
           && maxlength 5000 (description video)
           && bool_decide (category video ∈ categories)
        then
          match videos db !! fresh with
          | Some _ =>
              (status_message 500 "Server error during video upload", db,
               [Save MVideo fresh])
          | None =>
              (mkResponse 201 (VideoDoc (fresh, stamp_video now video)),
               set_videos (<[fresh := stamp_video now video]> (videos db)) db,
               [Save MVideo fresh])
          end
        else (status_message 500 "Server error during video upload", db, [])
    | _, _ =>
        (status_message 400 "Video and thumbnail files are required", db, [])
    end.
Proof.
  unfold video_create, Video_create. route_unfold.
  destruct (f_video files) as [vp|], (f_thumbnail files) as [tp|]; try done.
  cbn [forallb video_paths validate_video_path String.eqb Ascii.eqb
       Bool.eqb title description category videoUrl thumbnailUrl].
  cbn [required truthy String.app String.append String.eqb negb andb].
  rewrite !andb_true_r.
  destruct (required _ && maxlength 100 _); [|done]. cbn [andb].
  destruct (maxlength 5000 _); [|done]. cbn [andb].
  destruct (bool_decide _); [|done].
  by destruct (videos db !! fresh).
Qed.



Section VideoCreate.
Variable textScore : string → Video → option Q.


End VideoCreate.



(** ** Sorted and limited results *)

Lemma StronglySorted_impl {A} (R R' : relation A) l :
  (∀ x y, R x y → R' x y) → StronglySorted R l → StronglySorted R' l.
Proof.
  intros HR. induction 1 as [|x l _ IH Hx]; constructor; [done|].
  eapply Forall_impl; eauto.
Qed.

Lemma StronglySorted_take {A} (R : relation A) n l :
  StronglySorted R l → StronglySorted R (take n l).
Proof.
  intros Hl. revert n. induction Hl as [|x l _ IH Hx]; intros [|n]; simpl;
    try constructor; [apply IH|].
  by apply Forall_take.
Qed.

Lemma length_limit {A} n (l : list A) : 0 < n → length (limit n l) ≤ n.
Proof. destruct n; [lia|]. intros _. unfold limit. rewrite length_take. lia. Qed.

Lemma elem_of_limit_sort_by {A} (cmp : A → A → comparison) n l x :
  x ∈ limit n (sort_by cmp l) → x ∈ l.
Proof.
  unfold limit, sort_by. intros Hx.
  assert (Hin : x ∈ merge_sort (before cmp) l).
  { destruct n; [done|]. apply elem_of_take in Hx as (i & Hx & _).
    by apply list_elem_of_lookup_2 in Hx. }
  by rewrite merge_sort_Permutation in Hin.
Qed.

Lemma NoDup_limit_sort_by {A} (cmp : A → A → comparison) n l :
  NoDup l → NoDup (limit n (sort_by cmp l)).
Proof.
  intros Hl. unfold limit, sort_by.
  assert (Hs : NoDup (merge_sort (before cmp) l))
    by (by rewrite merge_sort_Permutation).
  destruct n; [done|].
  apply (sublist_NoDup (take (S n) _) (merge_sort (before cmp) l)); [done|].
  apply sublist_take.
Qed.

Section Search.
Variable textScore : string → Video → option Q.

Lemma before_relevance_order q x y :
  before (then_by (desc_score (score textScore q)) (desc by_views)) x y
  ↔ relevance_order textScore q x y.
Proof.
  unfold before, then_by, desc_score, desc, relevance_order, by_views.
  destruct (Qcompare_spec (score textScore q y) (score textScore q x))
    as [Heq|Hlt|Hgt].
  - split.
    + intros Hv. right. split; [by symmetry|]. exact Hv.
    + intros [Hlt|[_ Hv]]; [lra|exact Hv].
  - split; [by left|done].
  - split; [done|]. intros [Hlt|[Heq _]]; lra.
Qed.

#[local] Instance relevance_order_total q : Total (relevance_order textScore q).
Proof.
  intros x y. unfold relevance_order.
  destruct (Q_dec (score textScore q x) (score textScore q y))
    as [[Hlt|Hgt]|Heq]; [by right; left|by left; left|].
  destruct (Z.le_ge_cases (views x.2) (views y.2)).
  - right. right. split; [by symmetry|done].
  - left. right. done.
Qed.

#[local] Instance relevance_order_trans q :
  Transitive (relevance_order textScore q).
Proof.
  intros x y z. unfold relevance_order.
  intros [H1|[H1 H1']] [H2|[H2 H2']].
  - left. lra.
  - left. lra.
  - left. lra.
  - right. split; [lra|lia].
Qed.

#[local] Instance before_relevance_total q :
  Total (before (then_by (desc_score (score textScore q)) (desc by_views))).
Proof.
  intros x y. rewrite !before_relevance_order. apply relevance_order_total.
Qed.

#[local] Instance before_relevance_trans q :
  Transitive (before (then_by (desc_score (score textScore q)) (desc by_views))).
Proof.
  intros x y z. rewrite !before_relevance_order. apply relevance_order_trans.
Qed.

Lemma video_search_eval q db :
  video_search textScore q db =
    if truthy q
    then
      (json (VideoDocs
         (limit 50
            (sort_by (then_by (desc_score (score textScore (default "" q)))
                              (desc by_views))
               (filter (λ d, is_Some (textScore (default "" q) d.2))
                       (map_to_list (videos db)))))), db, [])
    else (status_message 400 "Search query is required", db, []).
Proof.
  unfold video_search, Video_find_text. route_unfold.
  by destruct (truthy q).
Qed.

(** C8. A search without a query, or with the empty query, is answered 400
    and reads nothing. A search for a non-empty string answers the first 50
    of the videos of the store that match the string, in an order that has
    the higher relevance score first and, between equal scores, the higher
    view count first: all the matches when there are at most 50, and
    otherwise 50 matches that no omitted match precedes. So the answer has
    at most 50 distinct stored matches, in that order. *)
Theorem video_search_results now q db :
  let res := handle textScore now (GetVideoSearch q) db in
  match q with
  | Some (String a s) =>
      let q := String a s in
      ∃ vs, res = (json (VideoDocs vs), db, []) ∧
            length vs ≤ 50 ∧
            StronglySorted (relevance_order textScore q) vs ∧
            NoDup vs ∧
            (∀ d, d ∈ vs →
                  videos db !! d.1 = Some d.2 ∧ is_Some (textScore q d.2)) ∧
            ∃ ranked,
              vs = take 50 ranked ∧
              NoDup ranked ∧
              StronglySorted (relevance_order textScore q) ranked ∧
              ∀ d, d ∈ ranked ↔
                   videos db !! d.1 = Some d.2 ∧ is_Some (textScore q d.2)
  | Some EmptyString | None =>
      res = (status_message 400 "Search query is required", db, [])
  end.
Proof.
  cbn [handle]. rewrite video_search_eval.
  destruct q as [[|a s]|]; cbn [truthy String.eqb negb from_option id];
    [done| |done].
  eexists. split; [done|]. split; [apply length_limit; lia|].
  split; [|split; [|split]].
  4:{ eexists. split; [reflexivity|]. split; [|split].
      - unfold sort_by. rewrite merge_sort_Permutation.
        apply NoDup_filter, NoDup_map_to_list.
      - apply (StronglySorted_impl _ _ _
                 (λ x y, proj1 (before_relevance_order _ x y))).
        unfold sort_by. apply StronglySorted_merge_sort; apply _.
      - intros [k v]. unfold sort_by. rewrite merge_sort_Permutation.
        rewrite list_elem_of_filter, elem_of_map_to_list. simpl. tauto. }
  - apply (StronglySorted_impl _ _ _ (λ x y, proj1 (before_relevance_order _ x y))).
    apply StronglySorted_take. unfold sort_by.
    apply StronglySorted_merge_sort; apply _.
  - apply NoDup_limit_sort_by, NoDup_filter, NoDup_map_to_list.
  - intros [k v] Hd. apply elem_of_limit_sort_by in Hd.
    apply list_elem_of_filter in Hd as [Hm Hd].
    by apply elem_of_map_to_list in Hd.
Qed.

End Search.

(** ** Recommended videos *)

(** The backfill query of [GET /:id/recommended] has two [_id] properties;
    the object it denotes has only the second one, so the query does not
    exclude the current video. *)
Lemma backfill_query id ids :
  object_literal [("_id", Ne id); ("_id", Nin ids)] = {["_id" := Nin ids]}.
Proof.
  unfold object_literal. simpl. rewrite insert_insert_eq. apply insert_empty.
Qed.

Lemma matches_backfill id ids (d : Doc Video) :
  matches video_path (object_literal [("_id", Ne id); ("_id", Nin ids)]) d
  = bool_decide (d.1 ∉ ids).
Proof.
  rewrite backfill_query. rewrite <- object_literal_one, matches_one.
  unfold video_path. simpl. induction ids as [|i ids IH]; simpl.
  - done.
  - rewrite IH. destruct (decide (d.1 = i)) as [->|Hne].
    + rewrite bool_decide_eq_true_2 by done. simpl. symmetry.
      apply bool_decide_eq_false. intros H. apply H. by left.
    + rewrite bool_decide_eq_false_2 by done. simpl.
      apply bool_decide_ext. rewrite not_elem_of_cons. tauto.
Qed.

Lemma matches_same_category id c (d : Doc Video) :
  matches video_path
    (object_literal [("_id", Ne id); ("category", Is c)]) d
  = bool_decide (d.1 ≠ id ∧ category d.2 = c).
Proof.
  unfold matches, object_literal. simpl. apply bool_decide_ext.
  rewrite map_Forall_insert by done.
  rewrite map_Forall_insert by done.
  unfold video_path. simpl.
  rewrite negb_true_iff, bool_decide_eq_false, bool_decide_eq_true.
  split; [tauto|]. intros [? ?]. split; [done|]. split; [done|].
  apply map_Forall_empty.
Qed.

Lemma elem_of_find {D} (path : string → Doc D → Field) q
    (m : gmap string D) d :
  d ∈ find path q m ↔ m !! d.1 = Some d.2 ∧ matches path q d = true.
Proof.
  unfold find. rewrite list_elem_of_filter. destruct d as [k x].
  rewrite elem_of_map_to_list. tauto.
Qed.

Lemma video_recommended_eval id db :
  video_recommended id db =
    match videos db !! id with
    | None => (status_message 404 "Video not found", db, [])
    | Some currentVideo =>
        let recommendedVideos :=
          limit 15
            (sort_by (then_by (desc by_views) (desc by_createdAt))
               (find video_path
                  (object_literal [("_id", Ne id);
                                   ("category", Is (category currentVideo))])
                  (videos db))) in
        (json (VideoDocs
           (if length recommendedVideos <? 10
            then recommendedVideos ++
                 limit (15 - length recommendedVideos)
                   (sort_by (desc by_views)
                      (find video_path
                         (object_literal
                            [("_id", Ne id);
                             ("_id", Nin recommendedVideos.*1)])
                         (videos db)))
            else recommendedVideos)), db, [])
    end.
Proof.
  unfold video_recommended, Video_find. route_unfold.
  cbn [fst snd]. destruct (videos db !! id) as [cur|]; [|done].
  cbv zeta. by destruct (length _ <? 10).
Qed.

Section Recommended.
Variable textScore : string → Video → option Q.

(** What the two steps of the recommendation do guarantee: the
    same-category step answers at most 15 videos of the category of the
    current video, none of them the current video; the backfill step runs
    only when the first step found fewer than 10, adds at most 15 minus
    that number of videos, and adds none that the first step selected. *)
Lemma video_recommended_steps now id cur db :
  videos db !! id = Some cur →
  ∃ same backfill,
    handle textScore now (GetVideoRecommended id) db
      = (json (VideoDocs (same ++ backfill)), db, []) ∧
    length same ≤ 15 ∧
    (∀ d, d ∈ same → d.1 ≠ id ∧ category d.2 = category cur ∧
                     videos db !! d.1 = Some d.2) ∧
    (10 ≤ length same → backfill = []) ∧
    length backfill ≤ 15 - length same ∧
    (∀ d, d ∈ backfill → (d.1 ∉ same.*1) ∧ videos db !! d.1 = Some d.2).
Proof.
  intros Hcur. cbn [handle]. rewrite video_recommended_eval, Hcur. cbv zeta.
  set (same := limit 15 _).
  assert (Hsame : ∀ d, d ∈ same → d.1 ≠ id ∧ category d.2 = category cur ∧
                               videos db !! d.1 = Some d.2).
  { intros d Hd. apply elem_of_limit_sort_by, elem_of_find in Hd as [Hd Hm].
    rewrite matches_same_category in Hm.
    apply bool_decide_eq_true in Hm. tauto. }
  destruct (length same <? 10) eqn:Hlen.
  - eexists same, _. split; [done|]. split; [apply length_limit; lia|].
    split; [exact Hsame|]. apply Nat.ltb_lt in Hlen.
    split; [lia|]. split; [apply length_limit; lia|].
    intros d Hd. apply elem_of_limit_sort_by, elem_of_find in Hd as [Hd Hm].
    rewrite matches_backfill in Hm. apply bool_decide_eq_true in Hm. done.
  - exists same, []. rewrite app_nil_r. split; [done|].
    split; [apply length_limit; lia|]. split; [exact Hsame|]. split; [done|].
    split; [simpl; lia|]. intros d Hd. inversion Hd.
Qed.

End Recommended.

(** ** The current video among its own recommendations *)

Lemma length_filter_split {A} (P : A → Prop) `{∀ x, Decision (P x)} (l : list A) :
  length l = length (filter P l) + length (filter (λ x, ¬ P x) l).
Proof.
  induction l as [|x l IH]; [done|].
  rewrite !filter_cons. destruct (decide (P x)).
  - rewrite decide_False by tauto. simpl. lia.
  - rewrite decide_True by tauto. simpl. lia.
Qed.

Lemma limit_all {A} n (l : list A) : length l ≤ n → limit n l = l.
Proof. destruct n; [done|]. intros Hl. unfold limit. by apply take_ge. Qed.

Lemma length_sort_by {A} (cmp : A → A → comparison) l :
  length (sort_by cmp l) = length l.
Proof. unfold sort_by. by rewrite merge_sort_Permutation. Qed.

Lemma elem_of_sort_by {A} (cmp : A → A → comparison) l x :
  x ∈ sort_by cmp l ↔ x ∈ l.
Proof. unfold sort_by. by rewrite merge_sort_Permutation. Qed.

Section SelfRecommendation.
Variable textScore : string → Video → option Q.

(** In a store of at most ten videos, the answer of [GET /:id/recommended]
    lists the video [id] itself. *)
Lemma video_recommended_small_store now id cur db :
  videos db !! id = Some cur →
  size (videos db) ≤ 10 →
  ∃ vs, handle textScore now (GetVideoRecommended id) db
          = (json (VideoDocs vs), db, []) ∧ (id, cur) ∈ vs.
Proof.
  intros Hcur Hsize. cbn [handle]. rewrite video_recommended_eval, Hcur.
  cbv zeta.
  set (q1 := object_literal [("_id", Ne id); ("category", Is (category cur))]).
  set (found := find video_path q1 (videos db)).
  set (same := limit 15 _).
  assert (Hall : length (map_to_list (videos db)) ≤ 10)
    by (by rewrite length_map_to_list).
  assert (Hfound : length found < 10).
  { subst found. unfold find.
    pose proof (length_filter_split
                  (λ d, matches video_path q1 d = true)
                  (map_to_list (videos db))) as Hsplit.
    assert (0 < length (filter (λ d : Doc Video, ¬ matches video_path q1 d = true)
                               (map_to_list (videos db)))).
    { assert (Hin : (id, cur) ∈ filter
                (λ d : Doc Video, ¬ matches video_path q1 d = true)
                (map_to_list (videos db))).
      { apply list_elem_of_filter. split; [|by apply elem_of_map_to_list].
        subst q1. rewrite matches_same_category.
        rewrite bool_decide_eq_true. simpl. tauto. }
      apply list_elem_of_lookup in Hin as [i Hi].
      apply lookup_lt_Some in Hi. lia. }
    lia. }
  assert (Hsame : same = sort_by (then_by (desc by_views) (desc by_createdAt))
                                 found).
  { subst same. fold found. apply limit_all. rewrite length_sort_by. lia. }
  assert (Hlen : length same = length found)
    by (by rewrite Hsame, length_sort_by).
  assert (Hlt : (length same <? 10) = true) by (apply Nat.ltb_lt; lia).
  rewrite Hlt. eexists. split; [done|].
  apply elem_of_app. right.
  set (rest := find video_path _ (videos db)).
  assert (Hrest : (id, cur) ∈ rest).
  { subst rest. apply elem_of_find. split; [done|].
    rewrite matches_backfill. apply bool_decide_eq_true. simpl.
    intros Hin. apply list_elem_of_fmap in Hin as ([k v] & Hk & Hin).
    simpl in Hk. subst k. rewrite Hsame in Hin.
    apply elem_of_sort_by in Hin. subst found.
    apply elem_of_find in Hin as [_ Hm]. subst q1.
    rewrite matches_same_category in Hm.
    apply bool_decide_eq_true in Hm. simpl in Hm. tauto. }
  rewrite limit_all; [by apply elem_of_sort_by|].
  rewrite length_sort_by. subst rest. unfold find.
  pose proof (length_filter_split
                (λ d : Doc Video, matches video_path
                   (object_literal [("_id", Ne id); ("_id", Nin same.*1)]) d
                   = true)
                (map_to_list (videos db))) as Hsplit.
  assert (Hge : length same
                ≤ length (filter
                    (λ d : Doc Video, ¬ matches video_path
                       (object_literal [("_id", Ne id); ("_id", Nin same.*1)]) d
                       = true)
                    (map_to_list (videos db)))).
  { apply submseteq_length, NoDup_submseteq.
    - rewrite Hsame. unfold sort_by. rewrite merge_sort_Permutation.
      subst found. unfold find. apply NoDup_filter, NoDup_map_to_list.
    - intros d Hd. apply list_elem_of_filter. split.
      + rewrite matches_backfill, bool_decide_eq_true.
        intros Hn. apply Hn. apply list_elem_of_fmap. by exists d.
      + rewrite Hsame in Hd. apply elem_of_sort_by in Hd. subst found.
        apply list_elem_of_filter in Hd. tauto. }
  lia.
Qed.

End SelfRecommendation.

(** C4 fails on the code: in a store with a single video, the videos
    recommended for that video are that video itself. The first step finds
    nothing, and the backfill query, whose [$ne] property is replaced by its
    [$nin] property, matches the current video. *)
Theorem video_recommended_includes_source :
  videos sample_db !! "v1" = Some clip ∧
  handle no_text_index 0 (GetVideoRecommended "v1") sample_db
    = (json (VideoDocs [("v1", clip)]), sample_db, []).
Proof. split; reflexivity. Qed.

(** ** The Subscription collection *)

Create HintDb frame.

Lemma keeps_ret {A} (a : A) : keeps_subscriptions (mret a : Route A).
Proof. intros db. by split. Qed.

Lemma keeps_send {A} r : keeps_subscriptions (send r : Route A).
Proof. intros db. by split. Qed.

Lemma keeps_throw {A} : keeps_subscriptions (throw : Route A).
Proof. intros db. by split. Qed.

Lemma keeps_read {A} (f : Db → A) : keeps_subscriptions (read f).
Proof. intros db. by split. Qed.

Lemma keeps_bind {A B} (m : Route A) (f : A → Route B) :
  keeps_subscriptions m → (∀ a, keeps_subscriptions (f a)) →
  keeps_subscriptions (m ≫= f).
Proof.
  intros Hm Hf db. unfold mbind, Route_bind.
  destruct (Hm db) as [Hs Hw]. destruct (m db) as [[[a|r|] db'] w]; simpl in *;
    [|done..].
  destruct (Hf a db') as [Hs' Hw']. destruct (f a db') as [[o db''] w'].
  simpl in *. split; [congruence|]. by apply Forall_app.
Qed.

Lemma keeps_when c r : keeps_subscriptions (when_ c r).
Proof. destruct c; [apply keeps_send|apply keeps_ret]. Qed.

Lemma keeps_or_send {A} r (x : option A) : keeps_subscriptions (or_send r x).
Proof. destruct x; [apply keeps_ret|apply keeps_send]. Qed.

Lemma keeps_casting {A} id (call : ObjectId → Route A) :
  (∀ k, keeps_subscriptions (call k)) → keeps_subscriptions (casting id call).
Proof.
  intros Hcall. unfold casting.
  destruct (castObjectId id); [apply Hcall|apply keeps_throw].
Qed.

Lemma keeps_try_catch h message :
  keeps_subscriptions h → keeps_subscriptions (try_catch h message).
Proof.
  intros Hh db. unfold try_catch. destruct (Hh db) as [Hs Hw].
  by destruct (h db) as [[[r|r|] db'] w].
Qed.

Lemma keeps_authenticated token handler :
  (∀ user, keeps_subscriptions (handler user)) →
  keeps_subscriptions (authenticated token handler).
Proof.
  intros Hh db.
  destruct (authenticated_cases token handler db)
    as [(a & u & _ & _ & ->)|[m ->]]; [apply Hh|by split].
Qed.

Lemma keeps_User_findByIdAndUpdate id f :
  keeps_subscriptions (User_findByIdAndUpdate id f).
Proof. intros db. split; [done|]. by repeat constructor. Qed.

Lemma keeps_Video_create now id v : keeps_subscriptions (Video_create now id v).
Proof.
  intros db. unfold Video_create.
  destruct (forallb _ _); [|by split].
  destruct (videos db !! id); (split; [done|]); by repeat constructor.
Qed.

Lemma keeps_Video_save now id v : keeps_subscriptions (Video_save now id v).
Proof.
  intros db. unfold Video_save.
  destruct (videos db !! id) as [orig|];
    [|split; [done|by repeat constructor]].
  destruct (forallb _ _); [|by split].
  destruct (video_modifiedPaths orig v); (split; [done|]);
    by repeat constructor.
Qed.

Lemma keeps_Video_findByIdAndUpdate now id f :
  keeps_subscriptions (Video_findByIdAndUpdate now id f).
Proof. intros db. split; [done|]. by repeat constructor. Qed.

Lemma keeps_Video_findByIdAndDelete id :
  keeps_subscriptions (Video_findByIdAndDelete id).
Proof. intros db. split; [done|]. by repeat constructor. Qed.

Lemma keeps_Comment_create now id c :
  keeps_subscriptions (Comment_create now id c).
Proof.
  intros db. unfold Comment_create.
  destruct (forallb _ _); [|by split].
  destruct (comments db !! id); (split; [done|]); by repeat constructor.
Qed.

Lemma keeps_Comment_save now id c :
  keeps_subscriptions (Comment_save now id c).
Proof.
  intros db. unfold Comment_save.
  destruct (comments db !! id) as [orig|];
    [|split; [done|by repeat constructor]].
  destruct (forallb _ _); [|by split].
  destruct (comment_modifiedPaths orig c); (split; [done|]);
    by repeat constructor.
Qed.

Lemma keeps_Comment_findByIdAndUpdate now id f :
  keeps_subscriptions (Comment_findByIdAndUpdate now id f).
Proof. intros db. split; [done|]. by repeat constructor. Qed.

Lemma keeps_Comment_deleteMany q : keeps_subscriptions (Comment_deleteMany q).
Proof. intros db. split; [done|]. by repeat constructor. Qed.

Lemma keeps_Comment_findByIdAndDelete id :
  keeps_subscriptions (Comment_findByIdAndDelete id).
Proof. intros db. split; [done|]. by repeat constructor. Qed.

Lemma keeps_pure {X} (x : X) :
  keeps_subscriptions (λ db : Db, (x, db, @nil Write)).
Proof. intros db. by split. Qed.

#[local] Hint Resolve keeps_ret keeps_send keeps_throw keeps_read keeps_when
  keeps_or_send keeps_try_catch keeps_authenticated keeps_pure
  keeps_User_findByIdAndUpdate keeps_Video_create keeps_Video_save
  keeps_Video_findByIdAndUpdate keeps_Video_findByIdAndDelete
  keeps_Comment_create keeps_Comment_save keeps_Comment_findByIdAndUpdate
  keeps_Comment_deleteMany keeps_Comment_findByIdAndDelete : frame.

(** Walk through a route: binds, branches and the Mongoose calls. *)
Ltac frame :=
  repeat first
    [ progress intros
    | solve [auto with frame]
    | apply keeps_try_catch
    | apply keeps_authenticated
    | apply keeps_casting
    | apply keeps_bind
    | match goal with
      | |- keeps_subscriptions (if ?b then _ else _) => destruct b
      | |- keeps_subscriptions (match ?x with _ => _ end) => destruct x
      | |- keeps_subscriptions (let _ := _ in _) => cbv zeta
      end ].

Section SubscriptionCollection.
Variable textScore : string → Video → option Q.

Lemma keeps_handle now r : keeps_subscriptions (handle textScore now r).
Proof.
  destruct r; cbn [handle];
    unfold video_search, video_recommended, video_view, video_create,
      video_update, video_delete, video_like, video_unlike, video_dislike,
      video_undislike, video_like_status, video_comments, video_add_comment,
      user_update_profile, user_profile_picture, user_subscribe,
      user_unsubscribe, user_check_subscription, comment_replies,
      comment_like, comment_unlike, comment_dislike, comment_undislike,
      comment_update, comment_delete,
      Video_findById, Video_find, Video_find_text, Video_exists,
      Comment_findById, Comment_find, User_findById, User_findOne;
    frame.
Qed.

Lemma keeps_serve reqs db :
  subscriptions (serve textScore reqs db) = subscriptions db.
Proof.
  revert db. induction reqs as [|[now r] reqs IH]; intros db; [done|].
  change (serve textScore ((now, r) :: reqs) db)
    with (serve textScore reqs (handle textScore now r db).1.2).
  rewrite IH. apply keeps_handle.
Qed.

(** What subscribe and unsubscribe do to the users: the documents stay in
    place, keep their profile fields, and only the [subscribers] of the
    channel and the [subscribedTo] of the subscriber may differ. *)
Lemma subscription_arrays_only (f g : User → User) a b
    (m : gmap string User) k :
  (∀ u, same_profile u (f u) ∧ subscribedTo (f u) = subscribedTo u) →
  (∀ u, same_profile u (g u) ∧ subscribers (g u) = subscribers u) →
  option_Forall2
    (λ u u', same_profile u u' ∧
             (k ≠ b → subscribers u' = subscribers u) ∧
             (ValidToken a ≠ ValidToken k → subscribedTo u' = subscribedTo u))
    (m !! k) (alter g a (alter f b m) !! k).
Proof.
  intros Hf Hg. rewrite !lookup_alter.
  repeat case_decide; subst; destruct (m !! k) as [u|]; simpl; constructor;
    unfold same_profile in *.
  - destruct (Hf u) as [(? & ? & ? & ?) ?], (Hg (f u)) as [(? & ? & ? & ?) ?].
    repeat split; try congruence; intros; congruence.
  - destruct (Hg u) as [(? & ? & ? & ?) ?].
    repeat split; try congruence; intros; congruence.
  - destruct (Hf u) as [(? & ? & ? & ?) ?].
    repeat split; try congruence; intros; congruence.
  - done.
Qed.

(** C10. No request writes to the Subscription collection: after any
    request, and so after any sequence of requests, the collection is what
    it was, and no write of the request goes to it. Subscribe and
    unsubscribe write to users only; they leave the videos and the comments
    alone, keep every user document in place with its profile fields, and
    change at most the [subscribers] array of the channel (the user whose
    identifier the [channelId] of the request casts to) and the
    [subscribedTo] array of the subscriber. *)
Theorem subscription_collection_untouched now r db :
  let res := handle textScore now r db in
  subscriptions res.1.2 = subscriptions db ∧
  Forall (λ w, write_model w ≠ MSubscription) res.2 ∧
  (∀ reqs, subscriptions (serve textScore reqs db) = subscriptions db) ∧
  match r with
  | PostUserSubscribe token channelId
  | DeleteUserUnsubscribe token channelId =>
      videos res.1.2 = videos db ∧
      comments res.1.2 = comments db ∧
      Forall (λ w, write_model w = MUser) res.2 ∧
      ∀ k, option_Forall2
             (λ u u', same_profile u u' ∧
                      (castObjectId channelId ≠ Some k →
                       subscribers u' = subscribers u) ∧
                      (token ≠ ValidToken k →
                       subscribedTo u' = subscribedTo u))
             (users db !! k) (users res.1.2 !! k)
  | _ => True
  end.
Proof.
  intros res. destruct (keeps_handle now r db) as [Hs Hw].
  split; [exact Hs|]. split; [exact Hw|]. split; [intros; apply keeps_serve|].
  assert (Hsame : ∀ token (o : option ObjectId) k,
    option_Forall2
      (λ u u', same_profile u u' ∧
               (o ≠ Some k → subscribers u' = subscribers u) ∧
               (token ≠ ValidToken k → subscribedTo u' = subscribedTo u))
      (users db !! k) (users db !! k)).
  { intros. destruct (users db !! k); constructor. by repeat split. }
  assert (Harrays : ∀ (f g : User → User) a c k,
    (∀ u, same_profile u (f u) ∧ subscribedTo (f u) = subscribedTo u) →
    (∀ u, same_profile u (g u) ∧ subscribers (g u) = subscribers u) →
    option_Forall2
      (λ u u', same_profile u u' ∧
               (Some c ≠ Some k → subscribers u' = subscribers u) ∧
               (ValidToken a ≠ ValidToken k →
                subscribedTo u' = subscribedTo u))
      (users db !! k) (alter g a (alter f c (users db)) !! k)).
  { intros f g a c k Hf Hg.
    pose proof (subscription_arrays_only f g a c (users db) k Hf Hg) as H.
    destruct H as [x y (Hp & Hsub & Hto)|]; constructor.
    split; [done|]. split; [|done]. intros Hk. apply Hsub. congruence. }
  destruct r; try exact I; subst res; cbn [handle];
    (edestruct (authenticated_cases token) as [(a & u & -> & Hu & ->)|[m ->]];
     [|by repeat split]).
  - rewrite user_subscribe_eval.
    destruct (String.eqb channelId a); [by repeat split|].
    destruct (castObjectId channelId) as [c|]; [|by repeat split].
    destruct (users db !! c) as [ch|]; [|by repeat split].
    destruct (includes a (subscribers ch)); [by repeat split|]. simpl.
    split; [done|]. split; [done|]. split; [by repeat constructor|].
    intros k. by apply Harrays.
  - rewrite user_unsubscribe_eval.
    destruct (castObjectId channelId) as [c|]; [|by repeat split].
    destruct (users db !! c) as [ch|]; [|by repeat split].
    destruct (includes a (subscribers ch)); [|by repeat split]. simpl.
    split; [done|]. split; [done|]. split; [by repeat constructor|].
    intros k. by apply Harrays.
Qed.

End SubscriptionCollection.

(** ** The invariant on the sample store *)

(** The four sample requests, run on the sample store. *)
Lemma likes_dislikes_never_both_witness :
  Forall (λ r, is_Some (engagement_request r.2)) sample_requests ∧
  videos sample_db !! "v1" = Some clip ∧
  at_most_one "u1" (likes clip) (dislikes clip) ∧
  ∃ v', videos (serve no_text_index sample_requests sample_db) !! "v1"
        = Some v' ∧
        at_most_one "u1" (likes v') (dislikes v').
Proof.
  assert (Hreqs : Forall (λ r, is_Some (engagement_request r.2))
                         sample_requests)
    by (repeat constructor; by eexists).
  assert (Hv : videos sample_db !! "v1" = Some clip) by reflexivity.
  assert (Hex : at_most_one "u1" (likes clip) (dislikes clip))
    by (intros [H _]; inversion H).
  split; [exact Hreqs|]. split; [exact Hv|]. split; [exact Hex|].
  exact (proj1 (likes_dislikes_never_both no_text_index sample_requests
                  sample_db "u1" Hreqs) "v1" clip Hv Hex).
Defined.

(** * Further properties of the routes *)

(** ** The authentication gate *)

Lemma authenticated_rejected token handler db :
  authenticated token handler db =
    match token with
    | NoToken => (status_message 401 "Authentication required", db, [])
    | InvalidToken => (status_message 401 "Invalid token", db, [])
    | ValidToken a =>
        match users db !! a with
        | Some u => handler (a, u) db
        | None => (status_message 401 "User not found", db, [])
        end
    end.
Proof.
  destruct token as [| |a]; [done..|].
  destruct (users db !! a) as [u|] eqn:Hu.
  - by apply authenticated_valid.
  - unfold authenticated, authenticate. route_unfold. simpl. by rewrite Hu.
Qed.

Section Gate.
Variable textScore : string → Video → option Q.

(** X1. A request to a route behind [authenticate] that comes without a
    token, with a token that does not verify, or with the token of a user
    who is not in the store, is answered 401 with the message of its case;
    the route's handler does not run: the store is unchanged and nothing is
    written. *)
Theorem unauthenticated_request_rejected now r token db :
  request_token r = Some token →
  match token with
  | NoToken =>
      handle textScore now r db
      = (status_message 401 "Authentication required", db, [])
  | InvalidToken =>
      handle textScore now r db = (status_message 401 "Invalid token", db, [])
  | ValidToken a =>
      users db !! a = None →
      handle textScore now r db = (status_message 401 "User not found", db, [])
  end.
Proof.
  intros Hr.
  destruct r; simpl in Hr; simplify_eq; cbn [handle];
    rewrite authenticated_rejected; destruct token; try done;
    by intros ->.
Qed.

End Gate.

(** An upload by a user who has been deleted is turned away. *)
Lemma unauthenticated_request_rejected_witness :
  request_token (PostVideo (ValidToken "u7") "v9" None sample_files
                           (sample_body None))
  = Some (ValidToken "u7") ∧
  users sample_db !! "u7" = None ∧
  handle no_text_index 5
    (PostVideo (ValidToken "u7") "v9" None sample_files (sample_body None))
    sample_db
  = (status_message 401 "User not found", sample_db, []).
Proof.
  split; [reflexivity|]. split; [reflexivity|].
  apply (unauthenticated_request_rejected no_text_index 5
           (PostVideo (ValidToken "u7") "v9" None sample_files
                      (sample_body None))
           (ValidToken "u7") sample_db); reflexivity.
Defined.

(** ** Store updates *)

Lemma alter_present {A} (f : A → A) (m : gmap string A) i x :
  m !! i = Some x → alter f i m = <[i := f x]> m.
Proof.
  intros Hi. apply map_eq. intros j. rewrite lookup_alter, lookup_insert.
  case_decide; [subst; by rewrite Hi|done].
Qed.

Lemma alter_absent {A} (f : A → A) (m : gmap string A) i :
  m !! i = None → alter f i m = m.
Proof.
  intros Hi. apply map_eq. intros j. rewrite lookup_alter.
  case_decide; [subst; by rewrite Hi|done].
Qed.

Lemma set_users_same db : set_users (users db) db = db.
Proof. by destruct db. Qed.
Lemma set_videos_same db : set_videos (videos db) db = db.
Proof. by destruct db. Qed.
Lemma set_comments_same db : set_comments (comments db) db = db.
Proof. by destruct db. Qed.

(** ** The remaining routes, evaluated *)

Lemma video_view_eval now id db :
  video_view now id db =
    match videos db !! id with
    | None =>
        (status_message 404 "Video not found", db,
         [FindByIdAndUpdate MVideo id])
    | Some v =>
        let v' := set_updatedAt now (set_views (views v + 1)%Z v) in
        (json (ViewCount (views v + 1)%Z),
         set_videos (<[id := v']> (videos db)) db,
         [FindByIdAndUpdate MVideo id])
    end.
Proof.
  unfold video_view, Video_findByIdAndUpdate. route_unfold. cbn [fst snd].
  destruct (videos db !! id) as [v|] eqn:Hv; simpl.
  - by rewrite (alter_present _ _ _ _ Hv).
  - by rewrite (alter_absent _ _ _ Hv), set_videos_same.
Qed.

Lemma video_like_status_eval id a u db :
  video_like_status id (a, u) db =
    match videos db !! id with
    | None => (status_message 404 "Video not found", db, [])
    | Some v =>
        (json (LikeStatus (includes a (likes v)) (includes a (dislikes v))),
         db, [])
    end.
Proof.
  unfold video_like_status. route_unfold. simpl.
  by destruct (videos db !! id).
Qed.

Lemma video_comments_eval id db :
  video_comments id db =
    (json (CommentDocs
       (sort_by (desc by_c_createdAt)
          (find comment_path
             (object_literal [("video", Is id); ("parentComment", IsNull)])
             (comments db)))), db, []).
Proof. done. Qed.

Lemma comment_replies_eval id db :
  comment_replies id db =
    match comments db !! id with
    | None => (status_message 404 "Comment not found", db, [])
    | Some _ =>
        (json (CommentDocs
           (sort_by (asc by_c_createdAt)
              (find comment_path
                 (object_literal [("parentComment", Is id)])
                 (comments db)))), db, [])
    end.
Proof.
  unfold comment_replies, Comment_find. route_unfold. cbn [fst snd].
  by destruct (comments db !! id).
Qed.

Lemma user_check_subscription_eval channelId a u db :
  user_check_subscription channelId (a, u) db =
    match castObjectId channelId with
    | None => (status_message 500 "Server error", db, [])
    | Some c =>
        match users db !! c with
        | None => (status_message 404 "Channel not found", db, [])
        | Some channel =>
            (json (IsSubscribed (includes a (subscribers channel))), db, [])
        end
    end.
Proof.
  unfold user_check_subscription, casting. route_unfold. simpl.
  destruct (castObjectId channelId) as [c|]; simpl; [|done].
  by destruct (users db !! c).
Qed.

Lemma user_profile_picture_eval upload a u db :
  users db !! a = Some u →
  user_profile_picture upload (a, u) db =
    match upload with
    | UploadError true _ =>
        (status_message 400 "File too large. Maximum size is 5MB.", db, [])
    | UploadError false message => (status_message 400 message, db, [])
    | NoFile => (status_message 400 "No file uploaded", db, [])
    | File path =>
        let u' := set_profilePicture (String.app "/" path) u in
        (json (UserDoc (Some (a, u'))),
         set_users (<[a := u']> (users db)) db, [FindByIdAndUpdate MUser a])
    end.
Proof.
  intros Hu. unfold user_profile_picture, User_findByIdAndUpdate.
  destruct upload as [[|] m| |path]; try done.
  route_unfold. cbn [fst snd]. rewrite Hu. simpl.
  by rewrite (alter_present _ _ _ _ Hu).
Qed.

Lemma user_update_profile_eval username bio a u db :
  users db !! a = Some u →
  user_update_profile username bio (a, u) db =
    if truthy username
       && bool_decide (find user_path
                         (object_literal
                            [("username", Is (default "" username));
                             ("_id", Ne a)]) (users db) ≠ [])
    then (status_message 400 "Username already taken", db, [])
    else
      let u1 := if truthy username
                then set_username (default "" username) u else u in
      let u' := match bio with Some bio => set_bio bio u1 | None => u1 end in
      (json (UserDoc (Some (a, u'))),
       set_users (<[a := u']> (users db)) db, [FindByIdAndUpdate MUser a]).
Proof.
  intros Hu. unfold user_update_profile, User_findByIdAndUpdate, User_findOne.
  route_unfold. cbn [fst snd].
  destruct (truthy username); cbn [andb].
  - destruct (find _ _ _) as [|d l]; simpl.
    + rewrite Hu. simpl. by rewrite (alter_present _ _ _ _ Hu).
    + done.
  - rewrite Hu. simpl. by rewrite (alter_present _ _ _ _ Hu).
Qed.

Lemma Video_save_eval now id v orig db :
  videos db !! id = Some orig →
  Video_save now id v db =
    if forallb (validate_video_path v) video_paths
    then
      match video_modifiedPaths orig v with
      | [] => (Next v, db, [])
      | _ :: _ =>
          (Next (set_updatedAt now v),
           set_videos (<[id := set_updatedAt now v]> (videos db)) db,
           [Save MVideo id])
      end
    else (Thrown, db, []).
Proof. intros Hv. unfold Video_save. by rewrite Hv. Qed.

Lemma Comment_save_eval now id c orig db :
  comments db !! id = Some orig →
  Comment_save now id c db =
    if forallb (validate_comment_path c) comment_paths
    then
      match comment_modifiedPaths orig c with
      | [] => (Next c, db, [])
      | _ :: _ =>
          (Next (set_c_updatedAt now c),
           set_comments (<[id := set_c_updatedAt now c]> (comments db)) db,
           [Save MComment id])
      end
    else (Thrown, db, []).
Proof. intros Hc. unfold Comment_save. by rewrite Hc. Qed.

Lemma video_update_eval now id body a u db :
  video_update now id body (a, u) db =
    match videos db !! id with
    | None => (status_message 404 "Video not found", db, [])
    | Some v =>
        if not_authorized (v_user v) (a, u)
        then (status_message 403 "Not authorized to update this video", db, [])
        else
          let v1 := set_title (trim <$> or_opt (b_title body) (title v)) v in
          let v2 :=
            set_description
              (trim <$> or_opt (b_description body) (description v1)) v1 in
          let v3 := set_category (or_else (b_category body) (category v2)) v2 in
          let v4 :=
            if truthy (b_tags body)
            then set_tags (trim <$> parse_tags (b_tags body)) v3 else v3 in
          if forallb (validate_video_path v4) video_paths
          then
            match video_modifiedPaths v v4 with
            | [] => (json (VideoDoc (id, v4)), db, [])
            | _ :: _ =>
                (json (VideoDoc (id, set_updatedAt now v4)),
                 set_videos (<[id := set_updatedAt now v4]> (videos db)) db,
                 [Save MVideo id])
            end
          else (status_message 500 "Server error", db, [])
    end.
Proof.
  unfold video_update. route_unfold. cbn [fst snd].
  destruct (videos db !! id) as [v|] eqn:Hv; [|done]. cbn [fst snd].
  destruct (not_authorized (v_user v) (a, u)); [done|]. cbv zeta.
  rewrite (Video_save_eval _ _ _ _ _ Hv).
  destruct (forallb _ _); [|done]. by destruct (video_modifiedPaths _ _).
Qed.

Lemma comment_update_eval now id content a u db :
  comment_update now id content (a, u) db =
    if truthy content then
      match comments db !! id with
      | None => (status_message 404 "Comment not found", db, [])
      | Some c =>
          if not_authorized (c_user c) (a, u)
          then (status_message 403 "Not authorized to update this comment",
                db, [])
          else
            let c1 := set_content (trim (default "" content)) c in
            if forallb (validate_comment_path c1) comment_paths
            then
              match comment_modifiedPaths c c1 with
              | [] => (json (CommentDoc (id, c1)), db, [])
              | _ :: _ =>
                  (json (CommentDoc (id, set_c_updatedAt now c1)),
                   set_comments (<[id := set_c_updatedAt now c1]> (comments db))
                                db,
                   [Save MComment id])
              end
            else (status_message 500 "Server error", db, [])
      end
    else (status_message 400 "Comment content is required", db, []).
Proof.
  unfold comment_update. route_unfold. cbn [fst snd].
  destruct (truthy content); [|done]. cbn [negb fst snd].
  destruct (comments db !! id) as [c|] eqn:Hc; [|done]. cbn [fst snd].
  destruct (not_authorized (c_user c) (a, u)); [done|]. cbv zeta.
  rewrite (Comment_save_eval _ _ _ _ _ Hc).
  destruct (forallb _ _); [|done]. by destruct (comment_modifiedPaths _ _).
Qed.

Lemma find_by_id_nonempty (m : gmap string Video) id :
  find video_path (object_literal [("_id", Is id)]) m ≠ [] ↔ is_Some (m !! id).
Proof.
  split.
  - intros Hne. destruct (find _ _ _) as [|[k v] l] eqn:Hf; [done|].
    assert (Hin : (k, v) ∈ find video_path (object_literal [("_id", Is id)]) m)
      by (rewrite Hf; by left).
    apply elem_of_find in Hin as [Hk Hm]. rewrite matches_one in Hm.
    apply bool_decide_eq_true in Hm. simpl in *. subst. eauto.
  - intros [v Hv] Hnil.
    assert (Hin : (id, v) ∈ find video_path (object_literal [("_id", Is id)]) m).
    { apply elem_of_find. split; [done|]. rewrite matches_one.
      by apply bool_decide_eq_true. }
    rewrite Hnil in Hin. inversion Hin.
Qed.

Lemma video_add_comment_eval now fresh id text parentCommentId a u db :
  video_add_comment now fresh id text parentCommentId (a, u) db =
    if truthy text then
      match videos db !! id with
      | None => (status_message 404 "Video not found", db, [])
      | Some _ =>
          let comment := {|
            content := trim (default "" text);
            c_user := a;
            c_video := id;
            c_likes := [];
            c_dislikes := [];
            replies := [];
            parentComment := or_opt parentCommentId None;
            c_createdAt := now;
            c_updatedAt := now |} in
          if negb (String.eqb (trim (default "" text)) "")
             && (String.length (trim (default "" text)) <=? 1000)
          then
            match comments db !! fresh with
            | Some _ =>
                (status_message 500 "Server error", db, [Save MComment fresh])
            | None =>
                let stored := <[fresh := stamp_comment now comment]>
                                (comments db) in
                if truthy parentCommentId then
                  (mkResponse 201 (CommentDoc (fresh, stamp_comment now comment)),
                   set_comments
                     (alter (λ c, set_c_updatedAt now
                                    (set_replies (push fresh (replies c)) c))
                        (default "" parentCommentId) stored) db,
                   [Save MComment fresh;
                    FindByIdAndUpdate MComment (default "" parentCommentId)])
                else
                  (mkResponse 201 (CommentDoc (fresh, stamp_comment now comment)),
                   set_comments stored db, [Save MComment fresh])
            end
          else (status_message 500 "Server error", db, [])
      end
    else (status_message 400 "Comment content is required", db, []).
Proof.
  unfold video_add_comment, Video_exists, Comment_create,
    Comment_findByIdAndUpdate.
  route_unfold. cbn [fst snd].
  destruct (truthy text); [|done]. cbn [negb fst snd].
  destruct (videos db !! id) as [v|] eqn:Hv.
  - rewrite bool_decide_eq_true_2 by (apply find_by_id_nonempty; eauto).
    cbn [negb fst snd]. cbv zeta.
    cbn [forallb comment_paths validate_comment_path String.eqb Ascii.eqb
         Bool.eqb content required truthy maxlength].
    rewrite !andb_true_r.
    destruct (negb _ && _); [|done].
    destruct (comments db !! fresh); [done|].
    by destruct (truthy parentCommentId).
  - rewrite bool_decide_eq_false_2; [done|].
    rewrite find_by_id_nonempty, Hv. by intros [? ?].
Qed.

(** ** Errors and the store *)

(** Every branch of an evaluated route. *)
Ltac by_cases :=
  repeat (cbv zeta;
          match goal with
          | |- context [if ?b then _ else _] => destruct b eqn:?
          | |- context [match ?x with _ => _ end] => destruct x eqn:?
          end);
  simpl; intros; try done; try lia.

Section Errors.
Variable textScore : string → Video → option Q.

(** The store after a request that is answered with an error status. *)
Lemma error_keeps_store now r db :
  (400 ≤ status (handle textScore now r db).1.1)%Z →
  (handle textScore now r db).1.2 = db.
Proof.
  destruct r; cbn [handle]; rewrite ?authenticated_rejected;
    try (destruct token as [| |a]; [done..|];
         destruct (users db !! a) as [u|] eqn:Hu; [|done]).
  - rewrite video_search_eval. by destruct (truthy q).
  - rewrite video_recommended_eval. by destruct (videos db !! id).
  - rewrite video_view_eval. destruct (videos db !! id); [simpl; intros; lia|done].
  - rewrite video_create_eval. by_cases.
  - rewrite video_update_eval. by_cases.
  - rewrite video_delete_eval. by_cases.
  - rewrite video_like_eval. by_cases.
  - rewrite video_unlike_eval. by_cases.
  - rewrite video_dislike_eval. by_cases.
  - rewrite video_undislike_eval. by_cases.
  - rewrite video_like_status_eval. by destruct (videos db !! id).
  - by rewrite video_comments_eval.
  - rewrite video_add_comment_eval. by_cases.
  - rewrite (user_update_profile_eval _ _ _ _ _ Hu).
    by_cases.
  - rewrite (user_profile_picture_eval _ _ _ _ Hu).
    by_cases.
  - rewrite user_subscribe_eval. by_cases.
  - rewrite user_unsubscribe_eval. by_cases.
  - rewrite user_check_subscription_eval. by_cases.
  - rewrite comment_replies_eval. by destruct (comments db !! id).
  - rewrite comment_like_eval. by_cases.
  - rewrite comment_unlike_eval. by_cases.
  - rewrite comment_dislike_eval. by_cases.
  - rewrite comment_undislike_eval. by_cases.
  - rewrite comment_update_eval. by_cases.
  - rewrite comment_delete_eval. by_cases.
Qed.

(** X2. A request that is answered with an error status (400 or above)
    has changed nothing in the store: every route checks before it acts,
    and a failed save writes nothing. *)
Theorem error_answer_changes_nothing now r db :
  (400 ≤ status (handle textScore now r db).1.1)%Z →
  (handle textScore now r db).1.2 = db.
Proof. apply error_keeps_store. Qed.

End Errors.

(** A request for a video that does not exist. *)
Lemma error_answer_changes_nothing_witness :
  (400 ≤ status (handle no_text_index 5
                   (PostVideoLike (ValidToken "u1") "v404") sample_db).1.1)%Z ∧
  (handle no_text_index 5 (PostVideoLike (ValidToken "u1") "v404")
          sample_db).1.2 = sample_db.
Proof.
  assert (H : (400 ≤ status (handle no_text_index 5
                  (PostVideoLike (ValidToken "u1") "v404") sample_db).1.1)%Z)
    by (vm_compute; discriminate).
  split; [exact H|].
  exact (error_answer_changes_nothing no_text_index 5 _ sample_db H).
Defined.

(** ** Exclusive engagement under every request *)

(** The arrays of a document after an engagement step, after an update that
    leaves them alone, and of a new document. *)
Ltac arrays :=
  intros; unfold video_exclusive, comment_exclusive, at_most_one in *;
  simpl in *; intros;
  rewrite ?elem_of_push, ?elem_of_without, ?elem_of_nil;
  repeat match goal with
         | H : ∀ _ : string, ¬ _ |- ¬ (?b ∈ _ ∧ _) => specialize (H b)
         | H : ∀ _ : string, ¬ _ |- ¬ ((?b ∈ _ ∨ _) ∧ _) => specialize (H b)
         | H : ∀ _ : string, ¬ _ |- ¬ ((?b ∈ _ ∧ _) ∧ _) => specialize (H b)
         end;
  tauto.

Lemma exclusive_video_write db id v v' :
  engagement_exclusive db →
  videos db !! id = Some v →
  (video_exclusive v → video_exclusive v') →
  engagement_exclusive (set_videos (<[id := v']> (videos db)) db).
Proof.
  intros [Hv Hc] Hid Hstep. split; [|done]. simpl.
  apply map_Forall_insert_2; [|done]. apply Hstep. by apply (Hv id).
Qed.

Lemma exclusive_video_new db id v' :
  engagement_exclusive db →
  video_exclusive v' →
  engagement_exclusive (set_videos (<[id := v']> (videos db)) db).
Proof.
  intros [Hv Hc] Hnew. split; [|done]. by apply map_Forall_insert_2.
Qed.

Lemma exclusive_comment_write db id c c' :
  engagement_exclusive db →
  comments db !! id = Some c →
  (comment_exclusive c → comment_exclusive c') →
  engagement_exclusive (set_comments (<[id := c']> (comments db)) db).
Proof.
  intros [Hv Hc] Hid Hstep. split; [done|]. simpl.
  apply map_Forall_insert_2; [|done]. apply Hstep. by apply (Hc id).
Qed.

Lemma exclusive_comments db (m : gmap string Comment) :
  engagement_exclusive db →
  (∀ id c', m !! id = Some c' →
     comment_exclusive c' ∨
     ∃ c, comments db !! id = Some c ∧
          c_likes c' = c_likes c ∧ c_dislikes c' = c_dislikes c) →
  engagement_exclusive (set_comments m db).
Proof.
  intros [Hv Hc] Hm. split; [done|]. simpl. intros id c' Hid.
  destruct (Hm id c' Hid) as [Hnew|(c & Hold & Hl & Hd)]; [done|].
  intros a. rewrite Hl, Hd. by apply (Hc id).
Qed.

Section Exclusive.
Variable textScore : string → Video → option Q.

Lemma exclusive_step now r db :
  engagement_exclusive db →
  engagement_exclusive (handle textScore now r db).1.2.
Proof.
  intros Hdb.
  destruct (decide (400 ≤ status (handle textScore now r db).1.1)%Z) as [He|_].
  { by rewrite error_keeps_store. }
  destruct r; cbn [handle]; rewrite ?authenticated_rejected;
    try (destruct token as [| |a]; [done..|];
         destruct (users db !! a) as [u|] eqn:Hu; [|done]).
  - rewrite video_search_eval. by destruct (truthy q).
  - rewrite video_recommended_eval. by destruct (videos db !! id).
  - rewrite video_view_eval. destruct (videos db !! id) as [v|] eqn:Hv; [|done].
    apply (exclusive_video_write _ _ v); [done..|]. arrays.
  - rewrite video_create_eval. by_cases.
    apply exclusive_video_new; [done|]. arrays.
  - rewrite video_update_eval.
    destruct (videos db !! id) as [v|] eqn:Hv; [|done].
    by_cases; (apply (exclusive_video_write _ _ v); [done..|arrays]).
  - rewrite video_delete_eval. by_cases.
    destruct Hdb as [Hv Hc]. split; simpl.
    + by apply map_Forall_delete.
    + intros k c Hk. apply map_lookup_filter_Some in Hk as [Hk _].
      by apply (Hc k).
  - rewrite video_like_eval. destruct (videos db !! id) as [v|] eqn:Hv; [|done].
    by_cases. apply (exclusive_video_write _ _ v); [done..|]. arrays.
  - rewrite video_unlike_eval.
    destruct (videos db !! id) as [v|] eqn:Hv; [|done].
    by_cases. apply (exclusive_video_write _ _ v); [done..|]. arrays.
  - rewrite video_dislike_eval.
    destruct (videos db !! id) as [v|] eqn:Hv; [|done].
    by_cases. apply (exclusive_video_write _ _ v); [done..|]. arrays.
  - rewrite video_undislike_eval.
    destruct (videos db !! id) as [v|] eqn:Hv; [|done].
    by_cases. apply (exclusive_video_write _ _ v); [done..|]. arrays.
  - rewrite video_like_status_eval. by destruct (videos db !! id).
  - by rewrite video_comments_eval.
  - rewrite video_add_comment_eval. by_cases.
    + apply exclusive_comments; [done|]. intros k c' Hk.
      apply lookup_alter_Some in Hk as [(_ & c0 & Hk & ->)|[_ Hk]];
        apply lookup_insert_Some in Hk as [[_ <-]|[_ Hk]];
        first [ by left; arrays | right; eauto ].
    + apply exclusive_comments; [done|]. intros k c' Hk.
      apply lookup_insert_Some in Hk as [[_ <-]|[_ Hk]];
        first [ by left; arrays | right; eauto ].
  - rewrite (user_update_profile_eval _ _ _ _ _ Hu). by_cases.
  - rewrite (user_profile_picture_eval _ _ _ _ Hu). by_cases.
  - rewrite user_subscribe_eval. by_cases.
  - rewrite user_unsubscribe_eval. by_cases.
  - rewrite user_check_subscription_eval. by_cases.
  - rewrite comment_replies_eval. by destruct (comments db !! id).
  - rewrite comment_like_eval.
    destruct (comments db !! id) as [c|] eqn:Hc; [|done].
    by_cases. apply (exclusive_comment_write _ _ c); [done..|]. arrays.
  - rewrite comment_unlike_eval.
    destruct (comments db !! id) as [c|] eqn:Hc; [|done].
    by_cases. apply (exclusive_comment_write _ _ c); [done..|]. arrays.
  - rewrite comment_dislike_eval.
    destruct (comments db !! id) as [c|] eqn:Hc; [|done].
    by_cases. apply (exclusive_comment_write _ _ c); [done..|]. arrays.
  - rewrite comment_undislike_eval.
    destruct (comments db !! id) as [c|] eqn:Hc; [|done].
    by_cases. apply (exclusive_comment_write _ _ c); [done..|]. arrays.
  - rewrite comment_update_eval.
    destruct (truthy _); [|done].
    destruct (comments db !! id) as [c|] eqn:Hc; [|done].
    by_cases. apply (exclusive_comment_write _ _ c); [done..|]. arrays.
  - rewrite comment_delete_eval. by_cases.
    + apply exclusive_comments; [done|]. intros k c' Hk.
      apply lookup_delete_Some in Hk as [_ Hk].
      apply lookup_alter_Some in Hk as [(_ & c0 & Hk & ->)|[_ Hk]];
        right; eauto.
    + apply exclusive_comments; [done|]. intros k c' Hk.
      apply lookup_delete_Some in Hk as [_ Hk].
      apply map_lookup_filter_Some in Hk as [Hk _]. right; eauto.
Qed.

(** X3. If no actor is in both the [likes] and the [dislikes] of any stored
    video or comment, this is still so after any sequence of requests to any
    routes: uploads and new comments start with empty arrays, updates, views
    and thread changes leave the arrays alone, and the engagement routes keep
    them exclusive. *)
Theorem engagement_exclusive_invariant reqs db :
  engagement_exclusive db →
  engagement_exclusive (serve textScore reqs db).
Proof.
  revert db. induction reqs as [|[now r] reqs IH]; intros db Hdb; [done|].
  change (serve textScore ((now, r) :: reqs) db)
    with (serve textScore reqs (handle textScore now r db).1.2).
  by apply IH, exclusive_step.
Qed.

End Exclusive.

Lemma sample_db_exclusive : engagement_exclusive sample_db.
Proof.
  split; simpl.
  - apply map_Forall_singleton. intros a [H _]. inversion H.
  - apply map_Forall_empty.
Qed.

(** The sample session keeps the sample store exclusive. *)
Lemma engagement_exclusive_invariant_witness :
  engagement_exclusive sample_db ∧
  engagement_exclusive (serve no_text_index sample_session sample_db).
Proof.
  split; [exact sample_db_exclusive|].
  exact (engagement_exclusive_invariant no_text_index sample_session sample_db
           sample_db_exclusive).
Defined.

(** ** Ownership *)

Lemma not_authorized_stranger owner a u :
  owner ≠ a → isAdmin u = false → not_authorized owner (a, u) = true.
Proof.
  intros Hne Hadm. unfold not_authorized. simpl.
  apply String.eqb_neq in Hne. by rewrite Hne, Hadm.
Qed.

Section Ownership.
Variable textScore : string → Video → option Q.

(** X4. A user who is neither the owner of a video nor an administrator is
    answered 403 when updating or deleting it, and likewise for a comment
    that the user did not write; the document stays as it is and nothing is
    written. The owner and an administrator are never answered 403 by these
    four routes. *)
Theorem only_owner_or_admin now a u db :
  users db !! a = Some u →
  (∀ id v body,
     videos db !! id = Some v →
     if not_authorized (v_user v) (a, u) then
       handle textScore now (PutVideo (ValidToken a) id body) db
       = (status_message 403 "Not authorized to update this video", db, []) ∧
       handle textScore now (DeleteVideo (ValidToken a) id) db
       = (status_message 403 "Not authorized to delete this video", db, [])
     else
       status (handle textScore now (PutVideo (ValidToken a) id body) db).1.1
       ≠ 403%Z ∧
       status (handle textScore now (DeleteVideo (ValidToken a) id) db).1.1
       ≠ 403%Z) ∧
  (∀ id c text,
     comments db !! id = Some c →
     truthy text = true →
     if not_authorized (c_user c) (a, u) then
       handle textScore now (PutComment (ValidToken a) id text) db
       = (status_message 403 "Not authorized to update this comment", db, []) ∧
       handle textScore now (DeleteComment (ValidToken a) id) db
       = (status_message 403 "Not authorized to delete this comment", db, [])
     else
       status (handle textScore now (PutComment (ValidToken a) id text) db).1.1
       ≠ 403%Z ∧
       status (handle textScore now (DeleteComment (ValidToken a) id) db).1.1
       ≠ 403%Z) ∧
  (∀ owner, not_authorized owner (a, u) = true
            ↔ owner ≠ a ∧ isAdmin u = false).
Proof.
  intros Hu. split; [|split].
  - intros id v body Hv. cbn [handle].
    rewrite !(authenticated_valid _ _ _ _ Hu).
    rewrite video_update_eval, video_delete_eval, Hv.
    destruct (not_authorized (v_user v) (a, u)); [done|].
    split; by_cases.
  - intros id c text Hc Ht. cbn [handle].
    rewrite !(authenticated_valid _ _ _ _ Hu).
    rewrite comment_update_eval, comment_delete_eval, Hc, Ht.
    destruct (not_authorized (c_user c) (a, u)); [done|].
    split; by_cases.
  - intros owner. unfold not_authorized. simpl.
    rewrite andb_true_iff, !negb_true_iff, String.eqb_neq. done.
Qed.

End Ownership.

(** Alice, who is no administrator, may not delete bob's clip. *)
Lemma only_owner_or_admin_witness :
  users sample_db !! "u1" = Some alice ∧
  videos sample_db !! "v1" = Some clip ∧
  handle no_text_index 5 (DeleteVideo (ValidToken "u1") "v1") sample_db
  = (status_message 403 "Not authorized to delete this video", sample_db, []).
Proof.
  assert (Hu : users sample_db !! "u1" = Some alice) by reflexivity.
  assert (Hv : videos sample_db !! "v1" = Some clip) by reflexivity.
  split; [exact Hu|]. split; [exact Hv|].
  destruct (only_owner_or_admin no_text_index 5 "u1" alice sample_db Hu)
    as [Hvideos _].
  exact (proj2 (Hvideos "v1" clip (sample_body None) Hv)).
Defined.

(** ** The view counter *)

Section Views.
Variable textScore : string → Video → option Q.

(** X5. [POST /:id/view] needs no token. On an existing video it adds one
    to [views], answers the new count and changes nothing else of the video
    but [updatedAt], nor any other document; so after n such requests the
    count is n higher. This is stated for counts that a JavaScript number
    holds exactly, from 0 to 2^53. On an identifier in canonical form that
    no stored video has it answers 404 and changes nothing. *)
Theorem view_counter id db :
  match videos db !! id with
  | Some v =>
      (∀ now,
         exact_count (views v) → exact_count (views v + 1) →
         handle textScore now (PostVideoView id) db
         = (json (ViewCount (views v + 1)%Z),
            set_videos (<[id := set_updatedAt now
                                  (set_views (views v + 1)%Z v)]> (videos db))
                       db,
            [FindByIdAndUpdate MVideo id])) ∧
      ∀ times,
        exact_count (views v) →
        exact_count (views v + Z.of_nat (length times)) →
        let db' := serve textScore (view_requests id times) db in
        (∃ t, videos db' !! id
              = Some (set_updatedAt t
                        (set_views (views v + Z.of_nat (length times))%Z v))) ∧
        (∀ k, k ≠ id → videos db' !! k = videos db !! k) ∧
        users db' = users db ∧ comments db' = comments db
  | None =>
      canonical id →
      ∀ now,
        handle textScore now (PostVideoView id) db
        = (status_message 404 "Video not found", db,
           [FindByIdAndUpdate MVideo id])
  end.
Proof.
  destruct (videos db !! id) as [v|] eqn:Hv.
  2:{ intros _ now. cbn [handle]. by rewrite video_view_eval, Hv. }
  split.
  { intros now _ _. cbn [handle]. by rewrite video_view_eval, Hv. }
  intros times _ _. revert db v Hv.
  induction times as [|t times IH]; intros db v Hv db'.
  { subst db'. simpl. split; [|done]. exists (updatedAt v).
    rewrite Hv, Z.add_0_r. by destruct v. }
  subst db'. unfold view_requests. rewrite fmap_cons.
  change (serve textScore ((t, PostVideoView id) :: ?l) db)
    with (serve textScore l (handle textScore t (PostVideoView id) db).1.2).
  cbn [handle]. rewrite video_view_eval, Hv. cbn [fst snd].
  set (v1 := set_updatedAt t (set_views (views v + 1)%Z v)).
  set (db1 := set_videos (<[id := v1]> (videos db)) db).
  assert (Hv1 : videos db1 !! id = Some v1) by apply lookup_insert_eq.
  destruct (IH db1 v1 Hv1) as ([t' Hfinal] & Hother & Husers & Hcomments).
  split; [|split; [|split]].
  - exists t'. fold (view_requests id times). rewrite Hfinal.
    replace (views v + Z.of_nat (length (t :: times)))%Z
      with (views v + 1 + Z.of_nat (length times))%Z by (simpl length; lia).
    subst v1. by destruct v.
  - intros k Hk. fold (view_requests id times). rewrite (Hother k Hk).
    subst db1. simpl. by rewrite lookup_insert_ne.
  - done.
  - done.
Qed.

End Views.

(** ** The like status *)

Section LikeStatus.
Variable textScore : string → Video → option Q.

(** [GET /:id/like-status] behind [authenticate]. *)
Lemma get_like_status now a u id v db :
  users db !! a = Some u →
  videos db !! id = Some v →
  handle textScore now (GetVideoLikeStatus (ValidToken a) id) db
  = (json (LikeStatus (includes a (likes v)) (includes a (dislikes v))),
     db, []).
Proof.
  intros Hu Hv. cbn [handle].
  by rewrite (authenticated_valid _ _ _ _ Hu), video_like_status_eval, Hv.
Qed.

(** The video after one of the four engagement requests of a user. *)
Lemma video_after_engagement now r e a u id v db :
  users db !! a = Some u →
  videos db !! id = Some v →
  video_valid v →
  r = match e with
      | Like => PostVideoLike (ValidToken a) id
      | Unlike => DeleteVideoUnlike (ValidToken a) id
      | Dislike => PostVideoDislike (ValidToken a) id
      | Undislike => DeleteVideoUndislike (ValidToken a) id
      end →
  let db' := (handle textScore now r db).1.2 in
  users db' !! a = Some u ∧
  ∃ v', videos db' !! id = Some v' ∧ video_valid v' ∧
        (likes v', dislikes v') = engage e a (likes v) (dislikes v).
Proof.
  intros Hu Hv Hvalid -> db'. subst db'.
  destruct e; cbn [handle]; rewrite (authenticated_valid _ _ _ _ Hu);
    [ rewrite video_like_eval | rewrite video_unlike_eval
    | rewrite video_dislike_eval | rewrite video_undislike_eval ];
    rewrite Hv, Hvalid; simpl; destruct (includes a _) eqn:Hin; simpl;
    (split; [done|]); rewrite ?lookup_insert_eq; eauto.
  - exists v. split; [done|]. apply includes_false in Hin.
    by rewrite (without_absent _ _ Hin).
  - exists v. split; [done|]. apply includes_false in Hin.
    by rewrite (without_absent _ _ Hin).
Qed.

(** X6. The like status of a user for a video reports membership in the
    two arrays and changes nothing. For a video that passes the validators
    of its schema: right after the user's like it reports liked, right
    after the dislike disliked, after an unlike not liked and after an
    undislike not disliked; and never both liked and disliked when the user
    was in at most one of the arrays before. *)
Theorem like_status_after_engagement now now' e a u id v db :
  users db !! a = Some u →
  videos db !! id = Some v →
  video_valid v →
  let r := match e with
           | Like => PostVideoLike (ValidToken a) id
           | Unlike => DeleteVideoUnlike (ValidToken a) id
           | Dislike => PostVideoDislike (ValidToken a) id
           | Undislike => DeleteVideoUndislike (ValidToken a) id
           end in
  let db' := (handle textScore now r db).1.2 in
  handle textScore now (GetVideoLikeStatus (ValidToken a) id) db
  = (json (LikeStatus (includes a (likes v)) (includes a (dislikes v))),
     db, []) ∧
  ∃ liked disliked,
    handle textScore now' (GetVideoLikeStatus (ValidToken a) id) db'
    = (json (LikeStatus liked disliked), db', []) ∧
    match e with
    | Like => liked = true
    | Unlike => liked = false ∧ disliked = includes a (dislikes v)
    | Dislike => disliked = true
    | Undislike => disliked = false ∧ liked = includes a (likes v)
    end ∧
    (at_most_one a (likes v) (dislikes v) → liked && disliked = false).
Proof.
  intros Hu Hv Hvalid r db'. split; [by apply (get_like_status _ _ u)|].
  destruct (video_after_engagement now r e a u id v db Hu Hv Hvalid eq_refl)
    as (Hu' & v' & Hv' & _ & Harr).
  fold db' in Hu', Hv'.
  exists (includes a (likes v')), (includes a (dislikes v')).
  split; [by apply (get_like_status _ _ u)|].
  pose proof (engage_at_most_one e a a (likes v) (dislikes v)) as Hex.
  rewrite <- Harr in Hex. simpl in Hex.
  split.
  - destruct e; simpl in Harr.
    + destruct (includes a (likes v)) eqn:Hin;
        injection Harr as Hl Hd; rewrite Hl; [done|].
      apply includes_true, elem_of_push. by right.
    + injection Harr as Hl Hd. rewrite Hl, Hd. split; [|done].
      apply includes_false. rewrite elem_of_without. tauto.
    + destruct (includes a (dislikes v)) eqn:Hin;
        injection Harr as Hl Hd; rewrite Hd; [done|].
      apply includes_true, elem_of_push. by right.
    + injection Harr as Hl Hd. rewrite Hl, Hd. split; [|done].
      apply includes_false. rewrite elem_of_without. tauto.
  - intros Hone. specialize (Hex Hone). unfold at_most_one in Hex.
    destruct (includes a (likes v')) eqn:Hl; [|done].
    destruct (includes a (dislikes v')) eqn:Hd; [|done].
    apply includes_true in Hl, Hd. tauto.
Qed.

End LikeStatus.

(** Alice, who had disliked the clip, likes it and asks for her status. *)
Lemma like_status_after_engagement_witness :
  users sample_db !! "u1" = Some alice ∧
  videos sample_db !! "v1" = Some clip ∧
  video_valid clip ∧
  let db' := (handle no_text_index 1 (PostVideoLike (ValidToken "u1") "v1")
                     sample_db).1.2 in
  ∃ liked disliked,
    handle no_text_index 2 (GetVideoLikeStatus (ValidToken "u1") "v1") db'
    = (json (LikeStatus liked disliked), db', []) ∧
    liked = true ∧
    (at_most_one "u1" (likes clip) (dislikes clip) →
     liked && disliked = false).
Proof.
  assert (Hu : users sample_db !! "u1" = Some alice) by reflexivity.
  assert (Hv : videos sample_db !! "v1" = Some clip) by reflexivity.
  assert (Hvalid : video_valid clip) by reflexivity.
  split; [exact Hu|]. split; [exact Hv|]. split; [exact Hvalid|].
  exact (proj2 (like_status_after_engagement no_text_index 1 2 Like
                  "u1" alice "v1" clip sample_db Hu Hv Hvalid)).
Defined.

(** ** Engagement with a comment *)

Section CommentEngagement.
Variable textScore : string → Video → option Q.

(** X7. For an existing comment that passes the validators of its schema
    and an authenticated actor, like answers 400 and changes nothing when
    the actor is already in [likes]; otherwise it removes the actor from
    [dislikes], appends the actor to [likes], saves the comment once and
    answers the new counts. Dislike is symmetric. For an identifier in
    canonical form that no stored comment has, both answer 404. *)
Theorem comment_like_dislike now a u id db :
  users db !! a = Some u →
  match comments db !! id with
  | Some c =>
      comment_valid c →
      handle textScore now (PostCommentLike (ValidToken a) id) db =
        (if includes a (c_likes c)
         then (status_message 400 "Comment already liked", db, [])
         else
           let c' := set_c_updatedAt now
                       (set_c_likes (c_likes c ++ [a])
                          (set_c_dislikes (without a (c_dislikes c)) c)) in
           (json (Counts (S (length (c_likes c)))
                         (length (without a (c_dislikes c)))),
            set_comments (<[id := c']> (comments db)) db, [Save MComment id]))
      ∧
      handle textScore now (PostCommentDislike (ValidToken a) id) db =
        (if includes a (c_dislikes c)
         then (status_message 400 "Comment already disliked", db, [])
         else
           let c' := set_c_updatedAt now
                       (set_c_dislikes (c_dislikes c ++ [a])
                          (set_c_likes (without a (c_likes c)) c)) in
           (json (Counts (length (without a (c_likes c)))
                         (S (length (c_dislikes c)))),
            set_comments (<[id := c']> (comments db)) db, [Save MComment id]))
  | None =>
      canonical id →
      handle textScore now (PostCommentLike (ValidToken a) id) db
      = (status_message 404 "Comment not found", db, []) ∧
      handle textScore now (PostCommentDislike (ValidToken a) id) db
      = (status_message 404 "Comment not found", db, [])
  end.
Proof.
  intros Hu. cbn [handle]. rewrite !(authenticated_valid _ _ _ _ Hu).
  rewrite comment_like_eval, comment_dislike_eval.
  destruct (comments db !! id) as [c|]; [|done].
  intros Hvalid. rewrite Hvalid. unfold push. cbv zeta.
  cbn [c_likes c_dislikes set_c_updatedAt set_c_likes set_c_dislikes].
  rewrite !length_app. simpl. by rewrite !Nat.add_1_r.
Qed.

(** X8. When an actor who is in at most one of the two arrays of a video
    that passes the validators of its schema likes it and then dislikes it,
    the actor ends in [dislikes] and not in [likes], and the membership of
    every other user is as before. *)
Theorem like_then_dislike_moves now now' a u id v db :
  users db !! a = Some u →
  videos db !! id = Some v →
  video_valid v →
  at_most_one a (likes v) (dislikes v) →
  ∃ v', videos (like_then_dislike textScore now now' a id db) !! id = Some v' ∧
        (a ∉ likes v') ∧ a ∈ dislikes v' ∧
        ∀ b, b ≠ a → (b ∈ likes v' ↔ b ∈ likes v) ∧
                     (b ∈ dislikes v' ↔ b ∈ dislikes v).
Proof.
  intros Hu Hv Hvalid Hone.
  destruct (video_after_engagement textScore now _ Like a u id v db Hu Hv
              Hvalid eq_refl) as (Hu1 & v1 & Hv1 & Hvalid1 & Harr1).
  destruct (video_after_engagement textScore now' _ Dislike a u id v1 _ Hu1 Hv1
              Hvalid1 eq_refl) as (_ & v2 & Hv2 & _ & Harr2).
  exists v2. split; [exact Hv2|].
  assert (H1 : a ∈ likes v1 ∧ (a ∉ dislikes v1) ∧
               ∀ b, b ≠ a → (b ∈ likes v1 ↔ b ∈ likes v) ∧
                            (b ∈ dislikes v1 ↔ b ∈ dislikes v)).
  { simpl in Harr1. destruct (includes a (likes v)) eqn:Hin;
      injection Harr1 as -> ->.
    - apply includes_true in Hin. unfold at_most_one in Hone. tauto.
    - rewrite elem_of_push, elem_of_without. split; [tauto|]. split; [tauto|].
      intros b Hb. rewrite elem_of_push, elem_of_without. tauto. }
  destruct H1 as (Hin1 & Hout1 & Hothers).
  simpl in Harr2. apply includes_false in Hout1 as Hout1'.
  rewrite Hout1' in Harr2. injection Harr2 as -> ->.
  rewrite elem_of_push, elem_of_without. split; [tauto|]. split; [tauto|].
  intros b Hb. rewrite elem_of_push, elem_of_without.
  destruct (Hothers b Hb). tauto.
Qed.

End CommentEngagement.

(** Bob dislikes a comment of the thread. *)
Lemma comment_like_dislike_witness :
  users thread_db !! "u2" = Some bob ∧
  handle no_text_index 6 (PostCommentDislike (ValidToken "u2") "c2") thread_db
  = (json (Counts 0 1),
     set_comments
       (<["c2" := set_c_updatedAt 6
                    (set_c_dislikes ["u2"]
                       (set_c_likes [] (remark "v1" (Some "c1") [])))]>
          (comments thread_db)) thread_db,
     [Save MComment "c2"]).
Proof.
  assert (Hu : users thread_db !! "u2" = Some bob) by reflexivity.
  split; [exact Hu|].
  refine (proj2 (comment_like_dislike no_text_index 6 "u2" bob "c2" thread_db
                   Hu _)).
  reflexivity.
Defined.

(** Bob likes the clip and changes his mind. *)
Lemma like_then_dislike_moves_witness :
  users sample_db !! "u2" = Some bob ∧
  videos sample_db !! "v1" = Some clip ∧
  video_valid clip ∧
  at_most_one "u2" (likes clip) (dislikes clip) ∧
  ∃ v', videos (like_then_dislike no_text_index 1 2 "u2" "v1" sample_db) !! "v1"
        = Some v' ∧
        ("u2" ∉ likes v') ∧ "u2" ∈ dislikes v' ∧
        ∀ b, b ≠ "u2" → (b ∈ likes v' ↔ b ∈ likes clip) ∧
                        (b ∈ dislikes v' ↔ b ∈ dislikes clip).
Proof.
  assert (Hu : users sample_db !! "u2" = Some bob) by reflexivity.
  assert (Hv : videos sample_db !! "v1" = Some clip) by reflexivity.
  assert (Hone : at_most_one "u2" (likes clip) (dislikes clip))
    by (intros [H _]; inversion H).
  assert (Hvalid : video_valid clip) by reflexivity.
  split; [exact Hu|]. split; [exact Hv|]. split; [exact Hvalid|].
  split; [exact Hone|].
  exact (like_then_dislike_moves no_text_index 1 2 "u2" bob "v1" clip sample_db
           Hu Hv Hvalid Hone).
Defined.

(** ** Removing twice *)

Lemma includes_without a l : includes a (without a l) = false.
Proof. apply includes_false. rewrite elem_of_without. tauto. Qed.

Section Removal.
Variable textScore : string → Video → option Q.

(** X9. Unlike and undislike, of a video or of a comment, are idempotent:
    the same request again, at any later time, gets the same answer, writes
    nothing and leaves the store as the first one left it, whatever the
    token and whether the target exists or not. *)
Theorem removal_idempotent now now' r m e db :
  engagement_request r = Some (m, e) →
  e = Unlike ∨ e = Undislike →
  handle textScore now' r (handle textScore now r db).1.2
  = ((handle textScore now r db).1.1, (handle textScore now r db).1.2, []).
Proof.
  intros Hr He.
  destruct r; simpl in Hr; simplify_eq; destruct He as [?|?]; simplify_eq;
    cbn [handle]; rewrite !authenticated_rejected;
    (destruct token as [| |a]; [done..|]);
    (destruct (users db !! a) as [u|] eqn:Hu;
       [|cbn [fst snd]; by rewrite Hu]).
  - rewrite (video_unlike_eval now).
    destruct (videos db !! id) as [v|] eqn:Hv; cbn [fst snd].
    + destruct (includes a (likes v)) eqn:Hin;
        [destruct (forallb (validate_video_path v) video_paths) eqn:Hval|];
        cbn [fst snd set_videos users];
        rewrite Hu, video_unlike_eval; cbn [videos set_videos].
      * rewrite lookup_insert_eq.
        cbn [likes set_updatedAt set_likes].
        by rewrite includes_without.
      * by rewrite Hv, Hin, Hval.
      * by rewrite Hv, Hin.
    + by rewrite Hu, video_unlike_eval, Hv.
  - rewrite (video_undislike_eval now).
    destruct (videos db !! id) as [v|] eqn:Hv; cbn [fst snd].
    + destruct (includes a (dislikes v)) eqn:Hin;
        [destruct (forallb (validate_video_path v) video_paths) eqn:Hval|];
        cbn [fst snd set_videos users];
        rewrite Hu, video_undislike_eval; cbn [videos set_videos].
      * rewrite lookup_insert_eq.
        cbn [dislikes set_updatedAt set_dislikes].
        by rewrite includes_without.
      * by rewrite Hv, Hin, Hval.
      * by rewrite Hv, Hin.
    + by rewrite Hu, video_undislike_eval, Hv.
  - rewrite (comment_unlike_eval now).
    destruct (comments db !! id) as [c|] eqn:Hc; cbn [fst snd].
    + destruct (includes a (c_likes c)) eqn:Hin;
        [destruct (forallb (validate_comment_path c) comment_paths) eqn:Hval|];
        cbn [fst snd set_comments users];
        rewrite Hu, comment_unlike_eval; cbn [comments set_comments].
      * rewrite lookup_insert_eq.
        cbn [c_likes set_c_updatedAt set_c_likes].
        by rewrite includes_without.
      * by rewrite Hc, Hin, Hval.
      * by rewrite Hc, Hin.
    + by rewrite Hu, comment_unlike_eval, Hc.
  - rewrite (comment_undislike_eval now).
    destruct (comments db !! id) as [c|] eqn:Hc; cbn [fst snd].
    + destruct (includes a (c_dislikes c)) eqn:Hin;
        [destruct (forallb (validate_comment_path c) comment_paths) eqn:Hval|];
        cbn [fst snd set_comments users];
        rewrite Hu, comment_undislike_eval; cbn [comments set_comments].
      * rewrite lookup_insert_eq.
        cbn [c_dislikes set_c_updatedAt set_c_dislikes].
        by rewrite includes_without.
      * by rewrite Hc, Hin, Hval.
      * by rewrite Hc, Hin.
    + by rewrite Hu, comment_undislike_eval, Hc.
Qed.

End Removal.

(** Alice takes back her dislike of the clip, twice. *)
Lemma removal_idempotent_witness :
  engagement_request (DeleteVideoUndislike (ValidToken "u1") "v1")
  = Some (MVideo, Undislike) ∧
  (handle no_text_index 2 (DeleteVideoUndislike (ValidToken "u1") "v1")
     (handle no_text_index 1 (DeleteVideoUndislike (ValidToken "u1") "v1")
        sample_db).1.2).2 = [].
Proof.
  split; [reflexivity|].
  rewrite (removal_idempotent no_text_index 1 2
             (DeleteVideoUndislike (ValidToken "u1") "v1") MVideo Undislike
             sample_db eq_refl (or_intror eq_refl)).
  reflexivity.
Defined.

(** ** Subscribing, checking, unsubscribing *)

(** The channel after the two updates of subscribe or unsubscribe: its
    [subscribers] are those of the first update, also when the channel is
    the subscriber. *)
Lemma channel_after_updates (f g : User → User) a c (m : gmap string User) uc :
  m !! c = Some uc →
  (∀ u, subscribers (f u) = subscribers u) →
  ∃ x, alter f a (alter g c m) !! c = Some x ∧
       subscribers x = subscribers (g uc).
Proof.
  intros Hc Hf. destruct (decide (a = c)) as [->|Hne].
  - exists (f (g uc)). by rewrite !lookup_alter_eq, Hc.
  - exists (g uc). by rewrite lookup_alter_ne, lookup_alter_eq, Hc.
Qed.

Lemma subscriber_after_updates (f g : User → User) a c
    (m : gmap string User) ua :
  m !! a = Some ua → is_Some (alter f a (alter g c m) !! a).
Proof.
  intros Ha. rewrite lookup_alter_eq.
  destruct (decide (a = c)) as [->|Hne].
  - rewrite lookup_alter_eq, Ha. by eexists.
  - rewrite lookup_alter_ne, Ha by done. by eexists.
Qed.

Section SubscriptionFlow.
Variable textScore : string → Video → option Q.

(** X10. For an authenticated user [a] and a [channelId] [b] that is not
    literally the identifier of [a]. When [b] is no identifier, subscribe,
    unsubscribe and check-subscription answer 500 (a string of 12
    characters is left aside: older versions of the driver read it as the
    12 bytes of an identifier). When [b] is a spelling of an identifier
    that no user has, they answer 404. Otherwise check-subscription reports
    whether [a] is in the [subscribers] of the channel and changes nothing;
    if [a] is, subscribe answers 400 and changes nothing, and after the
    unsubscribe the check reports false; if [a] is not, unsubscribe answers
    400 and changes nothing, and after the subscribe the check reports true
    and a second subscribe answers 400. *)
Theorem subscription_flow now now' a ua b db :
  users db !! a = Some ua →
  b ≠ a →
  let subscribe := PostUserSubscribe (ValidToken a) b in
  let unsubscribe := DeleteUserUnsubscribe (ValidToken a) b in
  let check := GetUserCheckSubscription (ValidToken a) b in
  match castObjectId b with
  | None =>
      String.length b ≠ 12 →
      handle textScore now subscribe db
      = (status_message 500 "Server error", db, []) ∧
      handle textScore now unsubscribe db
      = (status_message 500 "Server error", db, []) ∧
      handle textScore now check db
      = (status_message 500 "Server error", db, [])
  | Some c =>
      match users db !! c with
      | None =>
          handle textScore now subscribe db
          = (status_message 404 "Channel not found", db, []) ∧
          handle textScore now unsubscribe db
          = (status_message 404 "Channel not found", db, []) ∧
          handle textScore now check db
          = (status_message 404 "Channel not found", db, [])
      | Some uc =>
          handle textScore now check db
          = (json (IsSubscribed (includes a (subscribers uc))), db, []) ∧
          if includes a (subscribers uc) then
            handle textScore now subscribe db
            = (status_message 400 "Already subscribed to this channel",
               db, []) ∧
            let db' := (handle textScore now unsubscribe db).1.2 in
            handle textScore now' check db'
            = (json (IsSubscribed false), db', [])
          else
            handle textScore now unsubscribe db
            = (status_message 400 "Not subscribed to this channel", db, []) ∧
            let db' := (handle textScore now subscribe db).1.2 in
            handle textScore now' check db'
            = (json (IsSubscribed true), db', []) ∧
            handle textScore now' subscribe db'
            = (status_message 400 "Already subscribed to this channel",
               db', [])
      end
  end.
Proof.
  intros Hua Hba subscribe unsubscribe check.
  assert (Hne : String.eqb b a = false) by (by apply String.eqb_neq).
  subst subscribe unsubscribe check. cbn [handle].
  rewrite !(authenticated_valid _ _ _ _ Hua).
  rewrite user_subscribe_eval, user_unsubscribe_eval,
    user_check_subscription_eval, Hne.
  destruct (castObjectId b) as [c|] eqn:Hcast; [|done].
  destruct (users db !! c) as [uc|] eqn:Huc; [|done].
  split; [done|].
  destruct (includes a (subscribers uc)) eqn:Hin.
  - split; [done|]. cbn [fst snd].
    set (db' := set_users _ db).
    destruct (subscriber_after_updates
                (λ u, set_subscribedTo (without c (subscribedTo u)) u)
                (λ u, set_subscribers (without a (subscribers u)) u)
                a c (users db) ua Hua) as [ua' Hua'].
    destruct (channel_after_updates
                (λ u, set_subscribedTo (without c (subscribedTo u)) u)
                (λ u, set_subscribers (without a (subscribers u)) u)
                a c (users db) uc Huc (λ _, eq_refl)) as (x & Hx & Hsub).
    rewrite (authenticated_valid _ ua') by exact Hua'.
    rewrite user_check_subscription_eval, Hcast.
    subst db'. cbn [users set_users]. rewrite Hx, Hsub.
    cbn [subscribers set_subscribers]. by rewrite includes_without.
  - split; [done|]. cbn [fst snd].
    set (db' := set_users _ db).
    destruct (subscriber_after_updates
                (λ u, set_subscribedTo (push c (subscribedTo u)) u)
                (λ u, set_subscribers (push a (subscribers u)) u)
                a c (users db) ua Hua) as [ua' Hua'].
    destruct (channel_after_updates
                (λ u, set_subscribedTo (push c (subscribedTo u)) u)
                (λ u, set_subscribers (push a (subscribers u)) u)
                a c (users db) uc Huc (λ _, eq_refl)) as (x & Hx & Hsub).
    rewrite !(authenticated_valid _ ua') by exact Hua'.
    rewrite user_check_subscription_eval, user_subscribe_eval, Hne, Hcast.
    subst db'. cbn [users set_users]. rewrite Hx, Hsub.
    cbn [subscribers set_subscribers].
    assert (Hnow : includes a (push a (subscribers uc)) = true).
    { apply includes_true, elem_of_push. by right. }
    by rewrite Hnow.
Qed.

End SubscriptionFlow.

(** Carol and the channel of dave, to which she has not subscribed, with
    the identifier of dave in upper case. *)
Lemma subscription_flow_witness :
  users channel_db !! carol_id = Some carol ∧
  "65A1B2C3D4E5F60718293A4C" ≠ carol_id ∧
  castObjectId "65A1B2C3D4E5F60718293A4C" = Some dave_id ∧
  handle no_text_index 1
    (DeleteUserUnsubscribe (ValidToken carol_id) "65A1B2C3D4E5F60718293A4C")
    channel_db
  = (status_message 400 "Not subscribed to this channel", channel_db, []).
Proof.
  assert (Hu : users channel_db !! carol_id = Some carol) by reflexivity.
  assert (Hne : "65A1B2C3D4E5F60718293A4C" ≠ carol_id) by discriminate.
  split; [exact Hu|]. split; [exact Hne|]. split; [reflexivity|].
  exact (proj1 (proj2 (subscription_flow no_text_index 1 2 carol_id carol
                         "65A1B2C3D4E5F60718293A4C" channel_db Hu Hne))).
Defined.

(** ** The profile *)

Lemma matches_other_username n a (d : Doc User) :
  matches user_path (object_literal [("username", Is n); ("_id", Ne a)]) d
  = bool_decide (username d.2 = n ∧ d.1 ≠ a).
Proof.
  unfold matches, object_literal. simpl. apply bool_decide_ext.
  rewrite map_Forall_insert by done.
  rewrite map_Forall_insert by done.
  unfold user_path. simpl.
  rewrite negb_true_iff, bool_decide_eq_false, bool_decide_eq_true.
  split; [tauto|]. intros [? ?]. split; [done|]. split; [done|].
  apply map_Forall_empty.
Qed.

Lemma username_taken n a (m : gmap string User) :
  find user_path (object_literal [("username", Is n); ("_id", Ne a)]) m ≠ []
  ↔ ∃ k u, m !! k = Some u ∧ username u = n ∧ k ≠ a.
Proof.
  split.
  - intros Hne. destruct (find _ _ _) as [|[k u] l] eqn:Hf; [done|].
    assert (Hin : (k, u) ∈ find user_path
              (object_literal [("username", Is n); ("_id", Ne a)]) m)
      by (rewrite Hf; by left).
    apply elem_of_find in Hin as [Hk Hm]. rewrite matches_other_username in Hm.
    apply bool_decide_eq_true in Hm. eauto.
  - intros (k & u & Hk & Hn & Hne) Hnil.
    assert (Hin : (k, u) ∈ find user_path
              (object_literal [("username", Is n); ("_id", Ne a)]) m).
    { apply elem_of_find. split; [done|]. rewrite matches_other_username.
      by apply bool_decide_eq_true. }
    rewrite Hnil in Hin. inversion Hin.
Qed.

Lemma usernames_unique_same_users db db' :
  users db' = users db → usernames_unique db → usernames_unique db'.
Proof. unfold usernames_unique. by intros ->. Qed.

Lemma usernames_unique_same_names db (m : gmap string User) :
  (∀ k u', m !! k = Some u' →
     ∃ u, users db !! k = Some u ∧ username u' = username u) →
  usernames_unique db → usernames_unique (set_users m db).
Proof.
  intros Hm Hdb k1 k2 u1 u2 H1 H2 Heq. simpl in *.
  destruct (Hm _ _ H1) as (v1 & Hv1 & Hn1), (Hm _ _ H2) as (v2 & Hv2 & Hn2).
  apply (Hdb k1 k2 v1 v2); congruence.
Qed.

Lemma usernames_unique_profile name about a u db :
  users db !! a = Some u →
  usernames_unique db →
  usernames_unique (user_update_profile name about (a, u) db).1.2.
Proof.
  intros Hu Hdb. rewrite (user_update_profile_eval _ _ _ _ _ Hu).
  destruct (truthy name) eqn:Ht; cbn [andb].
  - destruct (bool_decide _) eqn:Hfree; [done|]. cbn [fst snd].
    apply bool_decide_eq_false in Hfree. rewrite username_taken in Hfree.
    intros k1 k2 u1 u2 H1 H2 Heq. simpl in H1, H2.
    apply lookup_insert_Some in H1 as [[<- <-]|[Hk1 H1]];
      apply lookup_insert_Some in H2 as [[<- <-]|[Hk2 H2]]; try done.
    + exfalso. apply Hfree. exists k2, u2. split; [done|]. split; [|done].
      rewrite <- Heq. by destruct about.
    + exfalso. apply Hfree. exists k1, u1. split; [done|]. split; [|done].
      rewrite Heq. by destruct about.
    + by apply (Hdb k1 k2 u1 u2).
  - cbn [fst snd]. rewrite <- (alter_present (λ x,
      match about with Some b => set_bio b x | None => x end) _ _ _ Hu).
    apply usernames_unique_same_names; [|done].
    intros k u' Hk. apply lookup_alter_Some in Hk as [(_ & x & Hk & ->)|[_ Hk]];
      eexists; split; try done. by destruct about.
Qed.

Section Profile.
Variable textScore : string → Video → option Q.

(** X11. [PUT /profile] of an authenticated user: a non-empty username
    that another user has is answered 400 and nothing changes; otherwise a
    non-empty username replaces the user's name, an absent or empty one
    leaves it, a supplied bio (the empty one too) replaces the bio, an absent
    one leaves it, and no other field and no other user changes. *)
Theorem profile_update now a u name about db :
  users db !! a = Some u →
  let res := handle textScore now (PutUserProfile (ValidToken a) name about) db in
  let taken := ∃ k u', users db !! k = Some u' ∧
                       username u' = default "" name ∧ k ≠ a in
  (truthy name = true → taken →
     res = (status_message 400 "Username already taken", db, [])) ∧
  (truthy name = false ∨ ¬ taken →
     ∃ u', res = (json (UserDoc (Some (a, u'))),
                  set_users (<[a := u']> (users db)) db,
                  [FindByIdAndUpdate MUser a]) ∧
           username u' = or_else name (username u) ∧
           bio u' = default (bio u) about ∧
           profilePicture u' = profilePicture u ∧ isAdmin u' = isAdmin u ∧
           subscribers u' = subscribers u ∧ subscribedTo u' = subscribedTo u).
Proof.
  intros Hu res taken. subst res. cbn [handle].
  rewrite (authenticated_valid _ _ _ _ Hu), (user_update_profile_eval _ _ _ _ _ Hu).
  split.
  - intros Ht Htaken. rewrite Ht. cbn [andb].
    by rewrite bool_decide_eq_true_2 by (by apply username_taken).
  - intros Hfree.
    assert (Hcond : truthy name
                    && bool_decide (find user_path
                         (object_literal [("username", Is (default "" name));
                                          ("_id", Ne a)]) (users db) ≠ [])
                    = false).
    { destruct Hfree as [->|Hfree]; [done|]. apply andb_false_iff. right.
      apply bool_decide_eq_false. by rewrite username_taken. }
    rewrite Hcond. cbv zeta. eexists. split; [done|].
    destruct name as [n|], about as [b|]; simpl;
      try destruct (String.eqb n ""); done.
Qed.

Lemma usernames_unique_step now r db :
  usernames_unique db → usernames_unique (handle textScore now r db).1.2.
Proof.
  intros Hdb.
  destruct (decide (400 ≤ status (handle textScore now r db).1.1)%Z) as [He|_].
  { by rewrite error_keeps_store. }
  destruct r; cbn [handle]; rewrite ?authenticated_rejected;
    try (destruct token as [| |a]; [done..|];
         destruct (users db !! a) as [u|] eqn:Hu; [|done]);
    try (first [ rewrite video_search_eval | rewrite video_recommended_eval
               | rewrite video_view_eval | rewrite video_create_eval
               | rewrite video_update_eval | rewrite video_delete_eval
               | rewrite video_like_eval | rewrite video_unlike_eval
               | rewrite video_dislike_eval | rewrite video_undislike_eval
               | rewrite video_like_status_eval | rewrite video_comments_eval
               | rewrite video_add_comment_eval
               | rewrite user_check_subscription_eval
               | rewrite comment_replies_eval
               | rewrite comment_like_eval | rewrite comment_unlike_eval
               | rewrite comment_dislike_eval | rewrite comment_undislike_eval
               | rewrite comment_update_eval | rewrite comment_delete_eval ];
         by_cases; by apply (usernames_unique_same_users db)).
  - by apply usernames_unique_profile.
  - rewrite (user_profile_picture_eval _ _ _ _ Hu). by_cases.
    rewrite <- (alter_present (set_profilePicture _) _ _ _ Hu).
    apply usernames_unique_same_names; [|done].
    intros k u' Hk. apply lookup_alter_Some in Hk as [(_ & x & Hk & ->)|[_ Hk]];
      eexists; split; done.
  - rewrite user_subscribe_eval. by_cases.
    apply usernames_unique_same_names; [|done]. intros k u' Hk.
    apply lookup_alter_Some in Hk as [(_ & x & Hk & ->)|[_ Hk]];
      apply lookup_alter_Some in Hk as [(_ & y & Hk & ->)|[_ Hk]];
      eexists; split; done.
  - rewrite user_unsubscribe_eval. by_cases.
    apply usernames_unique_same_names; [|done]. intros k u' Hk.
    apply lookup_alter_Some in Hk as [(_ & x & Hk & ->)|[_ Hk]];
      apply lookup_alter_Some in Hk as [(_ & y & Hk & ->)|[_ Hk]];
      eexists; split; done.
Qed.

(** X12. If no two users have the same username, this is still so after
    any sequence of requests: the profile route refuses a name that another
    user has, and no other route touches a username. *)
Theorem usernames_stay_unique reqs db :
  usernames_unique db → usernames_unique (serve textScore reqs db).
Proof.
  revert db. induction reqs as [|[now r] reqs IH]; intros db Hdb; [done|].
  change (serve textScore ((now, r) :: reqs) db)
    with (serve textScore reqs (handle textScore now r db).1.2).
  by apply IH, usernames_unique_step.
Qed.

End Profile.

(** Alice asks for the name of bob. *)
Lemma profile_update_witness :
  users sample_db !! "u1" = Some alice ∧
  truthy (Some "bob") = true ∧
  (∃ k u', users sample_db !! k = Some u' ∧
           username u' = default "" (Some "bob") ∧ k ≠ "u1") ∧
  handle no_text_index 1 (PutUserProfile (ValidToken "u1") (Some "bob") None)
         sample_db
  = (status_message 400 "Username already taken", sample_db, []).
Proof.
  assert (Hu : users sample_db !! "u1" = Some alice) by reflexivity.
  assert (Ht : truthy (Some "bob") = true) by reflexivity.
  assert (Htaken : ∃ k u', users sample_db !! k = Some u' ∧
                           username u' = default "" (Some "bob") ∧ k ≠ "u1")
    by (exists "u2", bob; repeat split; discriminate).
  split; [exact Hu|]. split; [exact Ht|]. split; [exact Htaken|].
  exact (proj1 (profile_update no_text_index 1 "u1" alice (Some "bob") None
                  sample_db Hu) Ht Htaken).
Defined.

Lemma sample_db_usernames_unique : usernames_unique sample_db.
Proof.
  intros k1 k2 u1 u2 H1 H2 Heq. unfold sample_db in H1, H2. simpl in H1, H2.
  apply lookup_insert_Some in H1 as [[<- <-]|[_ H1]];
    apply lookup_insert_Some in H2 as [[<- <-]|[_ H2]]; try done.
  - by apply lookup_singleton_Some in H2 as [_ <-].
  - by apply lookup_singleton_Some in H1 as [_ <-].
  - apply lookup_singleton_Some in H1 as [<- _].
    by apply lookup_singleton_Some in H2 as [<- _].
Qed.

(** The sample session keeps the names of alice and bob apart. *)
Lemma usernames_stay_unique_witness :
  usernames_unique sample_db ∧
  usernames_unique (serve no_text_index sample_session sample_db).
Proof.
  split; [exact sample_db_usernames_unique|].
  exact (usernames_stay_unique no_text_index sample_session sample_db
           sample_db_usernames_unique).
Defined.

(** ** Valid documents *)

Lemma video_valid_iff v :
  video_valid v ↔
  required (title v) && maxlength 100 (title v) = true ∧
  maxlength 5000 (description v) = true ∧
  required (Some (videoUrl v)) = true ∧
  required (Some (thumbnailUrl v)) = true ∧
  category v ∈ categories.
Proof.
  unfold video_valid, video_paths.
  cbn [forallb validate_video_path String.eqb Ascii.eqb Bool.eqb].
  rewrite !andb_true_iff, bool_decide_eq_true. tauto.
Qed.

Lemma comment_valid_iff c :
  comment_valid c ↔
  negb (String.eqb (content c) "") && (String.length (content c) <=? 1000)
  = true.
Proof.
  unfold comment_valid, comment_paths.
  cbn [forallb validate_comment_path String.eqb Ascii.eqb Bool.eqb].
  rewrite !andb_true_iff. cbn [required truthy maxlength]. tauto.
Qed.

Lemma video_valid_same v v' :
  title v' = title v → description v' = description v →
  videoUrl v' = videoUrl v → thumbnailUrl v' = thumbnailUrl v →
  category v' = category v →
  video_valid v → video_valid v'.
Proof. rewrite !video_valid_iff. by intros -> -> -> -> ->. Qed.

Lemma comment_valid_same c c' :
  content c' = content c → comment_valid c → comment_valid c'.
Proof. rewrite !comment_valid_iff. by intros ->. Qed.

(** The title, description and category that the validators accept. *)
Lemma video_accepted v :
  required (Some (videoUrl v)) = true →
  required (Some (thumbnailUrl v)) = true →
  video_valid v ↔
  (∃ t, title v = Some t ∧ t ≠ "" ∧ String.length t ≤ 100) ∧
  (∀ d, description v = Some d → String.length d ≤ 5000) ∧
  category v ∈ categories.
Proof.
  intros Hu Hth. rewrite video_valid_iff, andb_true_iff.
  unfold required, maxlength, truthy.
  split.
  - intros ([Hreq Hmax] & Hd & _ & _ & Hc). split; [|split; [|done]].
    + destruct (title v) as [t|]; [|done]. exists t. split; [done|].
      apply negb_true_iff, String.eqb_neq in Hreq.
      by apply Nat.leb_le in Hmax.
    + intros d Hdesc. rewrite Hdesc in Hd. by apply Nat.leb_le in Hd.
  - intros ((t & Ht & Hne & Hlen) & Hd & Hc). rewrite Ht.
    split; [split|split; [|done]].
    + by apply negb_true_iff, String.eqb_neq.
    + by apply Nat.leb_le.
    + destruct (description v) as [d|]; [|done].
      by apply Nat.leb_le, Hd.
Qed.

(** ** Updating a video *)

Lemma changed_nil {D A} `{EqDecision A} (f : D → A) p orig d :
  changed f p orig d = [] ↔ f orig = f d.
Proof. unfold changed. by destruct (decide (f orig = f d)). Qed.

Lemma video_unmodified orig v :
  video_modifiedPaths orig v = [] ↔
  title orig = title v ∧ description orig = description v ∧
  category orig = category v ∧ tags orig = tags v ∧
  likes orig = likes v ∧ dislikes orig = dislikes v.
Proof.
  unfold video_modifiedPaths. rewrite !app_nil, !changed_nil. tauto.
Qed.

Section VideoUpdate.
Variable textScore : string → Video → option Q.

(** X13. [PUT /:id] on a stored video that passes the validators of its
    schema, by its owner or an administrator, with text of the ASCII range.
    A non-empty title, description or category of the request replaces the
    stored one, an absent or empty one keeps it, and title and description
    are trimmed; a non-empty tags string replaces the tags. The update is
    accepted exactly when the resulting title is not empty and has at most
    100 characters, the resulting description has at most 5000, and the
    resulting category is one of the enumeration. An accepted update that
    changes none of the four fields writes nothing and answers the stored
    video; one that changes some is stored once, with the time of the
    request as [updatedAt] and with the owner, the files, the duration, the
    views, the likes, the dislikes and the creation time as they were. An
    update that is not accepted is answered 500 and changes nothing. *)
Theorem video_update_fields now a u id v body db :
  users db !! a = Some u →
  videos db !! id = Some v →
  not_authorized (v_user v) (a, u) = false →
  video_valid v →
  ascii_opt (title v) = true →
  ascii_opt (description v) = true →
  ascii_body body = true →
  let res := handle textScore now (PutVideo (ValidToken a) id body) db in
  let title' := trim <$> or_opt (b_title body) (title v) in
  let description' :=
    trim <$> or_opt (b_description body) (description v) in
  let category' := or_else (b_category body) (category v) in
  let tags' := if truthy (b_tags body)
               then trim <$> parse_tags (b_tags body) else tags v in
  let accepted :=
    (∃ t, title' = Some t ∧ t ≠ "" ∧ String.length t ≤ 100) ∧
    (∀ d, description' = Some d → String.length d ≤ 5000) ∧
    category' ∈ categories in
  let unchanged :=
    title' = title v ∧ description' = description v ∧
    category' = category v ∧ tags' = tags v in
  (accepted → unchanged → res = (json (VideoDoc (id, v)), db, [])) ∧
  (accepted → ¬ unchanged →
   let v' := mkVideo title' description' (videoUrl v) (thumbnailUrl v)
               (duration v) (v_user v) (views v) category' tags'
               (likes v) (dislikes v) (createdAt v) now in
   res = (json (VideoDoc (id, v')),
          set_videos (<[id := v']> (videos db)) db, [Save MVideo id])) ∧
  (¬ accepted → res = (status_message 500 "Server error", db, [])).
Proof.
  intros Hu Hv Hauth Hvalid _ _ _ res title' description' category' tags'
    accepted unchanged.
  subst res. cbn [handle].
  rewrite (authenticated_valid _ _ _ _ Hu), video_update_eval, Hv, Hauth.
  cbv zeta.
  set (v4 := if truthy (b_tags body) then _ else _).
  assert (Hv4 : v4 = mkVideo title' description' (videoUrl v) (thumbnailUrl v)
                  (duration v) (v_user v) (views v) category' tags'
                  (likes v) (dislikes v) (createdAt v) (updatedAt v)).
  { subst v4 tags'. by destruct (truthy (b_tags body)). }
  clearbody v4. subst v4.
  set (v4 := mkVideo _ _ _ _ _ _ _ _ _ _ _ _ _).
  apply video_valid_iff in Hvalid as Hurls.
  destruct Hurls as (_ & _ & Hurl & Hth & _).
  assert (Hacc : video_valid v4 ↔ accepted) by (by apply video_accepted).
  assert (Hunch : video_modifiedPaths v v4 = [] ↔ unchanged).
  { rewrite video_unmodified. subst v4 unchanged. cbn. intuition congruence. }
  unfold video_valid in Hacc.
  split; [|split].
  - intros Ha Hsame. apply Hacc in Ha. apply Hunch in Hsame as Hmod.
    rewrite Ha, Hmod.
    assert (v4 = v) as ->; [|done].
    destruct Hsame as (Ht & Hd & Hc & Hg). subst v4.
    rewrite Ht, Hd, Hc, Hg. by destruct v.
  - intros Ha Hdiff. apply Hacc in Ha. rewrite Ha.
    destruct (video_modifiedPaths v v4) as [|p ps] eqn:Hmod; [|done].
    exfalso. apply Hdiff, Hunch. done.
  - intros Hrej. destruct (forallb _ video_paths) eqn:Hok; [|done].
    exfalso. apply Hrej, Hacc. done.
Qed.

End VideoUpdate.

(** Bob renames his clip. *)
Lemma video_update_fields_witness :
  users sample_db !! "u2" = Some bob ∧
  videos sample_db !! "v1" = Some clip ∧
  not_authorized (v_user clip) ("u2", bob) = false ∧
  video_valid clip ∧
  ascii_opt (title clip) = true ∧
  ascii_opt (description clip) = true ∧
  ascii_body (mkVideoBody (Some " Clip 2 ") None None None) = true ∧
  handle no_text_index 8
    (PutVideo (ValidToken "u2") "v1"
       (mkVideoBody (Some " Clip 2 ") None None None)) sample_db
  = (json (VideoDoc ("v1",
       mkVideo (Some "Clip 2") None "/clip.mp4" "/clip.png" 0%Q "u2" 0
         "Music" [] [] ["u1"] 0 8)),
     set_videos
       (<["v1" := mkVideo (Some "Clip 2") None "/clip.mp4" "/clip.png" 0%Q
                    "u2" 0 "Music" [] [] ["u1"] 0 8]> (videos sample_db))
       sample_db,
     [Save MVideo "v1"]).
Proof.
  assert (Hu : users sample_db !! "u2" = Some bob) by reflexivity.
  assert (Hv : videos sample_db !! "v1" = Some clip) by reflexivity.
  assert (Ha : not_authorized (v_user clip) ("u2", bob) = false)
    by reflexivity.
  assert (Hvalid : video_valid clip) by reflexivity.
  assert (Ht : ascii_opt (title clip) = true) by reflexivity.
  assert (Hd : ascii_opt (description clip) = true) by reflexivity.
  assert (Hb : ascii_body (mkVideoBody (Some " Clip 2 ") None None None)
               = true) by reflexivity.
  split; [exact Hu|]. split; [exact Hv|]. split; [exact Ha|].
  split; [exact Hvalid|]. split; [exact Ht|]. split; [exact Hd|].
  split; [exact Hb|].
  apply (proj1 (proj2 (video_update_fields no_text_index 8 "u2" bob "v1" clip
                         (mkVideoBody (Some " Clip 2 ") None None None)
                         sample_db Hu Hv Ha Hvalid Ht Hd Hb))).
  - split; [|split].
    + exists "Clip 2". split; [reflexivity|]. split; [discriminate|].
      vm_compute. lia.
    + intros d Hdesc. discriminate Hdesc.
    + apply (bool_decide_eq_true_1 _). reflexivity.
  - intros [Hsame _]. discriminate Hsame.
Defined.

(** ** Adding a comment *)

Lemma trim_nonempty t : trim t ≠ "" → truthy (Some t) = true.
Proof. destruct t; [by intros []|done]. Qed.

Section AddComment.
Variable textScore : string → Video → option Q.

Lemma post_comment now a u fresh id v t parent db :
  users db !! a = Some u →
  videos db !! id = Some v →
  comments db !! fresh = None →
  trim t ≠ "" →
  String.length (trim t) ≤ 1000 →
  handle textScore now
    (PostVideoComment (ValidToken a) fresh id (Some t) parent) db
  = let c := mkComment (trim t) a id [] [] [] (or_opt parent None) now now in
    if truthy parent then
      (mkResponse 201 (CommentDoc (fresh, c)),
       set_comments
         (alter (λ c, set_c_updatedAt now
                        (set_replies (push fresh (replies c)) c))
            (default "" parent) (<[fresh := c]> (comments db))) db,
       [Save MComment fresh;
        FindByIdAndUpdate MComment (default "" parent)])
    else (mkResponse 201 (CommentDoc (fresh, c)),
          set_comments (<[fresh := c]> (comments db)) db,
          [Save MComment fresh]).
Proof.
  intros Hu Hv Hfresh Hne Hlen. cbn [handle].
  rewrite (authenticated_valid _ _ _ _ Hu), video_add_comment_eval.
  rewrite (trim_nonempty _ Hne), Hv. cbv zeta.
  change (default "" (Some t)) with t.
  apply String.eqb_neq in Hne. rewrite Hne.
  apply Nat.leb_le in Hlen. rewrite Hlen. cbn [negb andb].
  by rewrite Hfresh.
Qed.

(** X14. [POST /:id/comments] on an existing video, with a content of the
    ASCII range that is not blank and has at most 1000 characters after
    trimming, and with a parent id that is absent, empty or in canonical
    form: the answer is 201 with the new comment, which is stored with the
    trimmed content, the caller as its author, no likes, dislikes or
    replies; users and videos are unchanged. Without a parent nothing else
    changes. With a parent id the new comment refers to it and, when a
    comment of that id is stored, the new id is appended to its [replies]
    list; the parent is neither required to exist nor to belong to the same
    video. *)
Theorem add_comment_stores now a u fresh id v t parent db :
  users db !! a = Some u →
  videos db !! id = Some v →
  comments db !! fresh = None →
  is_ascii t = true →
  (∀ p, parent = Some p → p = "" ∨ canonical p) →
  trim t ≠ "" →
  String.length (trim t) ≤ 1000 →
  let res := handle textScore now
               (PostVideoComment (ValidToken a) fresh id (Some t) parent) db in
  let c := mkComment (trim t) a id [] [] [] (or_opt parent None) now now in
  res.1.1 = mkResponse 201 (CommentDoc (fresh, c)) ∧
  users res.1.2 = users db ∧ videos res.1.2 = videos db ∧
  (truthy parent = false →
   parentComment c = None ∧
   comments res.1.2 = <[fresh := c]> (comments db)) ∧
  (∀ p, parent = Some p → p ≠ "" → p ≠ fresh →
        parentComment c = Some p ∧
        comments res.1.2
        = match comments db !! p with
          | Some pc =>
              <[p := set_c_updatedAt now
                       (set_replies (replies pc ++ [fresh]) pc)]>
                (<[fresh := c]> (comments db))
          | None => <[fresh := c]> (comments db)
          end).
Proof.
  intros Hu Hv Hfresh _ _ Hne Hlen res c. subst res.
  rewrite (post_comment _ _ _ _ _ _ _ _ _ Hu Hv Hfresh Hne Hlen).
  cbv zeta. fold c.
  split; [by destruct (truthy parent)|].
  split; [by destruct (truthy parent)|].
  split; [by destruct (truthy parent)|].
  split.
  - intros Hp. rewrite Hp. split; [|done]. subst c. unfold or_opt.
    by rewrite Hp.
  - intros p -> Hp Hpf.
    assert (Ht : truthy (Some p) = true).
    { simpl. apply String.eqb_neq in Hp. by rewrite Hp. }
    rewrite Ht. split; [subst c; unfold or_opt; by rewrite Ht|].
    cbn [fst snd comments set_comments].
    change (default "" (Some p)) with p.
    destruct (comments db !! p) as [pc|] eqn:Hpc.
    + rewrite (alter_present _ _ p pc) by (by rewrite lookup_insert_ne).
      done.
    + apply alter_absent. by rewrite lookup_insert_ne.
Qed.


End AddComment.

(** Alice comments on the clip. *)
Lemma add_comment_stores_witness :
  users sample_db !! "u1" = Some alice ∧
  videos sample_db !! "v1" = Some clip ∧
  comments sample_db !! "c9" = None ∧
  is_ascii " Nice one " = true ∧
  (∀ p, None = Some p → p = "" ∨ canonical p) ∧
  trim " Nice one " ≠ "" ∧
  String.length (trim " Nice one ") ≤ 1000 ∧
  (handle no_text_index 5
     (PostVideoComment (ValidToken "u1") "c9" "v1" (Some " Nice one ") None)
     sample_db).1.1
  = mkResponse 201
      (CommentDoc ("c9", mkComment "Nice one" "u1" "v1" [] [] [] None 5 5)).
Proof.
  assert (Hu : users sample_db !! "u1" = Some alice) by reflexivity.
  assert (Hv : videos sample_db !! "v1" = Some clip) by reflexivity.
  assert (Hc : comments sample_db !! "c9" = None) by reflexivity.
  assert (Ha : is_ascii " Nice one " = true) by reflexivity.
  assert (Hp : ∀ p, None = Some p → p = "" ∨ canonical p)
    by (intros p Hp; discriminate Hp).
  assert (Ht : trim " Nice one " ≠ "") by (vm_compute; discriminate).
  assert (Hl : String.length (trim " Nice one ") ≤ 1000)
    by (vm_compute; lia).
  split; [exact Hu|]. split; [exact Hv|]. split; [exact Hc|].
  split; [exact Ha|]. split; [exact Hp|].
  split; [exact Ht|]. split; [exact Hl|].
  exact (proj1 (add_comment_stores no_text_index 5 "u1" alice "c9" "v1" clip
                  " Nice one " None sample_db Hu Hv Hc Ha Hp Ht Hl)).
Defined.


(** ** The content of a comment *)

Lemma set_content_same c : set_content (content c) c = c.
Proof. by destruct c. Qed.

Lemma comment_content_modified c s :
  s ≠ content c →
  comment_modifiedPaths c (set_content s c) = ["content"].
Proof.
  intros Hs. unfold comment_modifiedPaths, changed. cbn.
  rewrite decide_False by congruence.
  by rewrite !decide_True by done.
Qed.

Lemma comment_content_valid c :
  forallb (validate_comment_path c) comment_paths
  = negb (String.eqb (content c) "") && (String.length (content c) <=? 1000).
Proof.
  unfold comment_paths.
  cbn [forallb validate_comment_path String.eqb Ascii.eqb Bool.eqb required
       truthy maxlength].
  by rewrite !andb_true_r.
Qed.

Section CommentContent.
Variable textScore : string → Video → option Q.

(** X16. [PUT /:id] on a comment. An absent or empty content is answered
    400, before the comment is looked up. Otherwise, for a content of the
    ASCII range and the author of the comment or an administrator, the
    content is trimmed: when it is blank or has more than 1000 characters,
    the answer is 500 and nothing changes; when it equals the stored
    content, nothing is written; when it differs, the comment is stored
    with the new content and the time of the request as [updatedAt], every
    other field as before. *)
Theorem comment_update_content now a u id text db :
  users db !! a = Some u →
  let res := handle textScore now (PutComment (ValidToken a) id text) db in
  (truthy text = false →
   res = (status_message 400 "Comment content is required", db, [])) ∧
  (∀ t c, text = Some t → t ≠ "" → is_ascii t = true →
     comments db !! id = Some c →
     not_authorized (c_user c) (a, u) = false →
     (trim t = "" ∨ 1000 < String.length (trim t) →
      res = (status_message 500 "Server error", db, [])) ∧
     (trim t ≠ "" → String.length (trim t) ≤ 1000 →
      (trim t = content c → res = (json (CommentDoc (id, c)), db, [])) ∧
      (trim t ≠ content c →
       let c' := mkComment (trim t) (c_user c) (c_video c) (c_likes c)
                   (c_dislikes c) (replies c) (parentComment c)
                   (c_createdAt c) now in
       res = (json (CommentDoc (id, c')),
              set_comments (<[id := c']> (comments db)) db,
              [Save MComment id])))).
Proof.
  intros Hu res. subst res. cbn [handle].
  rewrite (authenticated_valid _ _ _ _ Hu), comment_update_eval.
  split; [by intros ->|].
  intros t c -> Ht _ Hc Hauth.
  assert (Htr : truthy (Some t) = true).
  { simpl. apply String.eqb_neq in Ht. by rewrite Ht. }
  rewrite Htr, Hc, Hauth. cbv zeta. change (default "" (Some t)) with t.
  rewrite comment_content_valid. cbn [content set_content].
  split.
  - intros [->|Hlong]; [done|].
    apply Nat.leb_gt in Hlong. rewrite Hlong. by rewrite andb_false_r.
  - intros Hnb Hlen.
    apply String.eqb_neq in Hnb. rewrite Hnb.
    apply Nat.leb_le in Hlen. rewrite Hlen. cbn [negb andb].
    split.
    + intros ->. rewrite set_content_same.
      assert (Hmod : comment_modifiedPaths c c = []).
      { unfold comment_modifiedPaths, changed.
        by rewrite !decide_True by done. }
      by rewrite Hmod.
    + intros Hne. by rewrite (comment_content_modified _ _ Hne).
Qed.

(** X17. What [POST /:id/comments] refuses: an absent or empty content is
    answered 400, whether the video exists or not; a content on a video
    whose identifier, in canonical form, is not that of a stored video is
    answered 404; a content of the ASCII range that is blank after
    trimming, or longer than 1000 characters, is answered 500 by the
    validation of the schema. In each case nothing is stored. *)
Theorem add_comment_rejected now a u fresh id text parent db :
  users db !! a = Some u →
  let res := handle textScore now
               (PostVideoComment (ValidToken a) fresh id text parent) db in
  (truthy text = false →
   res = (status_message 400 "Comment content is required", db, [])) ∧
  (truthy text = true → canonical id → videos db !! id = None →
   res = (status_message 404 "Video not found", db, [])) ∧
  (∀ t, text = Some t → t ≠ "" → is_ascii t = true →
        is_Some (videos db !! id) →
        trim t = "" ∨ 1000 < String.length (trim t) →
        res = (status_message 500 "Server error", db, [])).
Proof.
  intros Hu res. subst res. cbn [handle].
  rewrite (authenticated_valid _ _ _ _ Hu), video_add_comment_eval.
  split; [by intros ->|]. split; [by intros -> _ ->|].
  intros t -> Ht _ [v Hv] Hbad.
  assert (Htr : truthy (Some t) = true).
  { simpl. apply String.eqb_neq in Ht. by rewrite Ht. }
  rewrite Htr, Hv. cbv zeta. change (default "" (Some t)) with t.
  destruct Hbad as [->|Hlong]; [done|].
  apply Nat.leb_gt in Hlong. rewrite Hlong. by rewrite andb_false_r.
Qed.

End CommentContent.

(** Alice rewrites her comment. *)
Lemma comment_update_content_witness :
  users thread_db !! "u1" = Some alice ∧
  handle no_text_index 9 (PutComment (ValidToken "u1") "c1" (Some " Nicer "))
    thread_db
  = (json (CommentDoc ("c1",
       mkComment "Nicer" "u1" "v1" [] [] ["c2"; "c3"] None 0 9)),
     set_comments
       (<["c1" := mkComment "Nicer" "u1" "v1" [] [] ["c2"; "c3"] None 0 9]>
          (comments thread_db)) thread_db,
     [Save MComment "c1"]).
Proof.
  assert (Hu : users thread_db !! "u1" = Some alice) by reflexivity.
  split; [exact Hu|].
  refine (proj2 (proj2 (proj2 (comment_update_content no_text_index 9 "u1"
            alice "c1" (Some " Nicer ") thread_db Hu) " Nicer "
            (remark "v1" None ["c2"; "c3"]) eq_refl _ eq_refl eq_refl eq_refl)
          _ _) _).
  - discriminate.
  - vm_compute. discriminate.
  - vm_compute. lia.
  - vm_compute. discriminate.
Defined.

(** A comment of spaces only. *)
Lemma add_comment_rejected_witness :
  users sample_db !! "u1" = Some alice ∧
  handle no_text_index 5
    (PostVideoComment (ValidToken "u1") "c9" "v1" (Some "  ") None) sample_db
  = (status_message 500 "Server error", sample_db, []).
Proof.
  assert (Hu : users sample_db !! "u1" = Some alice) by reflexivity.
  split; [exact Hu|].
  apply (proj2 (proj2 (add_comment_rejected no_text_index 5 "u1" alice "c9"
                         "v1" (Some "  ") None sample_db Hu)) "  ").
  - reflexivity.
  - discriminate.
  - reflexivity.
  - exists clip. reflexivity.
  - left. reflexivity.
Defined.

(** ** Stored documents stay valid *)

Lemma valid_video_write db id v' :
  schema_valid db → video_valid v' →
  schema_valid (set_videos (<[id := v']> (videos db)) db).
Proof. intros [Hv Hc] Hnew. split; [|done]. by apply map_Forall_insert_2. Qed.

Lemma valid_comment_write db id c' :
  schema_valid db → comment_valid c' →
  schema_valid (set_comments (<[id := c']> (comments db)) db).
Proof. intros [Hv Hc] Hnew. split; [done|]. by apply map_Forall_insert_2. Qed.

Lemma valid_comments db (m : gmap string Comment) :
  schema_valid db →
  (∀ id c', m !! id = Some c' →
     comment_valid c' ∨
     ∃ k c, comments db !! k = Some c ∧ content c' = content c) →
  schema_valid (set_comments m db).
Proof.
  intros [Hv Hc] Hm. split; [done|]. simpl. intros id c' Hid.
  destruct (Hm id c' Hid) as [Hnew|(k & c & Hold & Heq)]; [done|].
  apply (comment_valid_same c); [done|]. by apply (Hc k).
Qed.

Section Valid.
Variable textScore : string → Video → option Q.

Lemma valid_step now r db :
  schema_valid db → schema_valid (handle textScore now r db).1.2.
Proof.
  intros Hdb.
  assert (Hvid : ∀ id v, videos db !! id = Some v → video_valid v)
    by (intros id v; apply (proj1 Hdb)).
  assert (Hcom : ∀ id c, comments db !! id = Some c → comment_valid c)
    by (intros id c; apply (proj2 Hdb)).
  destruct (decide (400 ≤ status (handle textScore now r db).1.1)%Z) as [He|_].
  { by rewrite error_keeps_store. }
  destruct r; cbn [handle]; rewrite ?authenticated_rejected;
    try (destruct token as [| |a]; [done..|];
         destruct (users db !! a) as [u|] eqn:Hu; [|done]).
  - rewrite video_search_eval. by destruct (truthy q).
  - rewrite video_recommended_eval. by destruct (videos db !! id).
  - rewrite video_view_eval. destruct (videos db !! id) as [v|] eqn:Hv; [|done].
    apply valid_video_write; [done|].
    by apply (video_valid_same v), (Hvid id).
  - rewrite video_create_eval.
    destruct (f_video files) as [vp|]; [|done].
    destruct (f_thumbnail files) as [tp|]; [|done]. cbv zeta.
    destruct (_ && _) eqn:Hok; [|done].
    destruct (videos db !! fresh); [done|].
    apply valid_video_write; [done|]. apply video_valid_iff.
    rewrite !andb_true_iff, bool_decide_eq_true in Hok.
    destruct Hok as [[Ht Hd] Hc]. split; [by apply andb_true_iff|].
    by split; [|split; [|split]].
  - rewrite video_update_eval.
    destruct (videos db !! id) as [v|] eqn:Hv; [|done].
    destruct (not_authorized _ _); [done|]. cbv zeta.
    set (v4 := if truthy (b_tags _) then _ else _).
    destruct (forallb _ video_paths) eqn:Hok; [|done].
    destruct (video_modifiedPaths v v4); [done|].
    apply valid_video_write; [done|]. by apply (video_valid_same v4).
  - rewrite video_delete_eval. by_cases.
    destruct Hdb as [Hv Hc]. split; simpl.
    + by apply map_Forall_delete.
    + intros k c Hk. apply map_lookup_filter_Some in Hk as [Hk _].
      by apply (Hc k).
  - rewrite video_like_eval. destruct (videos db !! id) as [v|] eqn:Hv; [|done].
    by_cases. apply valid_video_write; [done|].
    by apply (video_valid_same v), (Hvid id).
  - rewrite video_unlike_eval.
    destruct (videos db !! id) as [v|] eqn:Hv; [|done].
    by_cases. apply valid_video_write; [done|].
    by apply (video_valid_same v), (Hvid id).
  - rewrite video_dislike_eval.
    destruct (videos db !! id) as [v|] eqn:Hv; [|done].
    by_cases. apply valid_video_write; [done|].
    by apply (video_valid_same v), (Hvid id).
  - rewrite video_undislike_eval.
    destruct (videos db !! id) as [v|] eqn:Hv; [|done].
    by_cases. apply valid_video_write; [done|].
    by apply (video_valid_same v), (Hvid id).
  - rewrite video_like_status_eval. by destruct (videos db !! id).
  - by rewrite video_comments_eval.
  - rewrite video_add_comment_eval.
    destruct (truthy _); [|done].
    destruct (videos db !! id); [|done]. cbv zeta.
    destruct (_ && _) eqn:Hok; [|done].
    destruct (comments db !! fresh); [done|].
    destruct (truthy _); cbn [fst snd].
    + apply valid_comments; [done|]. intros k c' Hk.
      apply lookup_alter_Some in Hk as [(_ & c0 & Hk & ->)|[_ Hk]];
        apply lookup_insert_Some in Hk as [[_ <-]|[_ Hk]];
        first [ by left; apply comment_valid_iff | right; eauto ].
    + apply valid_comment_write; [done|]. by apply comment_valid_iff.
  - rewrite (user_update_profile_eval _ _ _ _ _ Hu). by_cases.
  - rewrite (user_profile_picture_eval _ _ _ _ Hu). by_cases.
  - rewrite user_subscribe_eval. by_cases.
  - rewrite user_unsubscribe_eval. by_cases.
  - rewrite user_check_subscription_eval. by_cases.
  - rewrite comment_replies_eval. by destruct (comments db !! id).
  - rewrite comment_like_eval.
    destruct (comments db !! id) as [c|] eqn:Hc; [|done].
    by_cases. apply valid_comment_write; [done|].
    by apply (comment_valid_same c), (Hcom id).
  - rewrite comment_unlike_eval.
    destruct (comments db !! id) as [c|] eqn:Hc; [|done].
    by_cases. apply valid_comment_write; [done|].
    by apply (comment_valid_same c), (Hcom id).
  - rewrite comment_dislike_eval.
    destruct (comments db !! id) as [c|] eqn:Hc; [|done].
    by_cases. apply valid_comment_write; [done|].
    by apply (comment_valid_same c), (Hcom id).
  - rewrite comment_undislike_eval.
    destruct (comments db !! id) as [c|] eqn:Hc; [|done].
    by_cases. apply valid_comment_write; [done|].
    by apply (comment_valid_same c), (Hcom id).
  - rewrite comment_update_eval.
    destruct (truthy _); [|done].
    destruct (comments db !! id) as [c|] eqn:Hc; [|done].
    destruct (not_authorized _ _); [done|]. cbv zeta.
    destruct (forallb _ comment_paths) eqn:Hok; [|done].
    destruct (comment_modifiedPaths _ _); [done|].
    apply valid_comment_write; [done|].
    by apply (comment_valid_same _ _ eq_refl Hok).
  - rewrite comment_delete_eval. by_cases.
    + apply valid_comments; [done|]. intros k c' Hk.
      apply lookup_delete_Some in Hk as [_ Hk].
      apply lookup_alter_Some in Hk as [(_ & c0 & Hk & ->)|[_ Hk]];
        right; eauto.
    + apply valid_comments; [done|]. intros k c' Hk.
      apply lookup_delete_Some in Hk as [_ Hk].
      apply map_lookup_filter_Some in Hk as [Hk _]. right; eauto.
Qed.

(** X18. If every stored video and comment passes the validators of its
    schema, this is still so after any sequence of requests whose text is
    of the ASCII range. So every stored video keeps a category of the
    enumeration, a non-empty title of at most 100 characters, a description
    of at most 5000 characters and non-empty file paths, and every stored
    comment a non-empty content of at most 1000 characters: uploads, new
    comments and saves are validated as a whole, and the other writes do
    not touch these fields. The lengths are those of the validators here,
    counted in bytes: on the ASCII text of the requests they are the
    lengths that Mongoose counts. *)
Theorem stored_documents_valid reqs db :
  schema_valid db →
  Forall (λ r, ascii_request r.2 = true) reqs →
  let db' := serve textScore reqs db in
  (∀ id v, videos db' !! id = Some v →
     category v ∈ categories ∧
     (∃ t, title v = Some t ∧ t ≠ "" ∧ String.length t ≤ 100) ∧
     (∀ d, description v = Some d → String.length d ≤ 5000) ∧
     videoUrl v ≠ "" ∧ thumbnailUrl v ≠ "") ∧
  (∀ id c, comments db' !! id = Some c →
     content c ≠ "" ∧ String.length (content c) ≤ 1000).
Proof.
  intros Hdb _ db'.
  assert (Hvalid : schema_valid db').
  { subst db'. revert db Hdb.
    induction reqs as [|[now r] reqs IH]; intros db Hdb; [done|].
    change (serve textScore ((now, r) :: reqs) db)
      with (serve textScore reqs (handle textScore now r db).1.2).
    by apply IH, valid_step. }
  clearbody db'. destruct Hvalid as [Hv Hc]. split.
  - intros id v Hid. apply Hv, video_valid_iff in Hid.
    destruct Hid as (Ht & Hd & Hu & Hth & Hcat).
    split; [done|]. apply andb_true_iff in Ht as [Hreq Hmax].
    split; [|split; [|split]].
    + destruct (title v) as [t|]; [|done]. exists t. split; [done|].
      simpl in Hreq, Hmax. apply negb_true_iff, String.eqb_neq in Hreq.
      by apply Nat.leb_le in Hmax.
    + intros d Hdesc. rewrite Hdesc in Hd. by apply Nat.leb_le in Hd.
    + simpl in Hu. by apply negb_true_iff, String.eqb_neq in Hu.
    + simpl in Hth. by apply negb_true_iff, String.eqb_neq in Hth.
  - intros id c Hid. apply Hc, comment_valid_iff in Hid.
    apply andb_true_iff in Hid as [Hne Hlen].
    apply negb_true_iff, String.eqb_neq in Hne.
    by apply Nat.leb_le in Hlen.
Qed.

End Valid.

Lemma thread_db_valid : schema_valid thread_db.
Proof.
  split.
  - intros k v Hk. simpl in Hk.
    apply lookup_singleton_Some in Hk as [_ <-]. reflexivity.
  - intros k c Hk. simpl in Hk.
    repeat (apply lookup_insert_Some in Hk as [[_ <-]|[_ Hk]];
            [reflexivity|]).
    apply lookup_singleton_Some in Hk as [_ <-]. reflexivity.
Qed.

(** The clip of the thread store after the sample session. *)
Lemma stored_documents_valid_witness :
  schema_valid thread_db ∧
  Forall (λ r, ascii_request r.2 = true) sample_session ∧
  ∀ id v, videos (serve no_text_index sample_session thread_db) !! id = Some v →
          category v ∈ categories.
Proof.
  assert (Hascii : Forall (λ r, ascii_request r.2 = true) sample_session)
    by (repeat constructor).
  split; [exact thread_db_valid|]. split; [exact Hascii|].
  intros id v Hv.
  exact (proj1 (proj1 (stored_documents_valid no_text_index sample_session
                         thread_db thread_db_valid Hascii) id v Hv)).
Defined.

(** ** Listing comments *)

Lemma matches_top_level id (d : Doc Comment) :
  matches comment_path
    (object_literal [("video", Is id); ("parentComment", IsNull)]) d
  = bool_decide (c_video d.2 = id ∧ parentComment d.2 = None).
Proof.
  unfold matches, object_literal. simpl. apply bool_decide_ext.
  rewrite map_Forall_insert by done.
  rewrite map_Forall_insert by done.
  unfold comment_path. simpl. rewrite bool_decide_eq_true.
  split.
  - intros (Hp & Hv & _). split; [done|]. by destruct (parentComment d.2).
  - intros [Hv Hp]. rewrite Hp. split; [done|]. split; [done|].
    apply map_Forall_empty.
Qed.

Lemma NoDup_find {D} (path : string → Doc D → Field) q (m : gmap string D) :
  NoDup (find path q m).
Proof. unfold find. apply NoDup_filter, NoDup_map_to_list. Qed.

Lemma NoDup_sort_by {A} (cmp : A → A → comparison) l :
  NoDup l → NoDup (sort_by cmp l).
Proof. intros Hl. unfold sort_by. by rewrite merge_sort_Permutation. Qed.

Lemma sorted_desc {A} (key : A → Z) l :
  StronglySorted (λ x y, key y ≤ key x)%Z (sort_by (desc key) l).
Proof.
  unfold sort_by.
  assert (Total (before (desc key))).
  { intros x y. unfold before, desc.
    destruct (Z.le_ge_cases (key y) (key x)); [by left|by right]. }
  assert (Transitive (before (desc key))).
  { intros x y z. unfold before, desc. intros H1 H2.
    change (key z ≤ key x)%Z. change (key y ≤ key x)%Z in H1.
    change (key z ≤ key y)%Z in H2. lia. }
  apply (StronglySorted_merge_sort (before (desc key))).
Qed.

Lemma sorted_asc {A} (key : A → Z) l :
  StronglySorted (λ x y, key x ≤ key y)%Z (sort_by (asc key) l).
Proof.
  unfold sort_by.
  assert (Total (before (asc key))).
  { intros x y. unfold before, asc.
    destruct (Z.le_ge_cases (key x) (key y)); [by left|by right]. }
  assert (Transitive (before (asc key))).
  { intros x y z. unfold before, asc. intros H1 H2.
    change (key x ≤ key z)%Z. change (key x ≤ key y)%Z in H1.
    change (key y ≤ key z)%Z in H2. lia. }
  apply (StronglySorted_merge_sort (before (asc key))).
Qed.

Section Listings.
Variable textScore : string → Video → option Q.

(** X19. For an identifier in canonical form, [GET /:id/comments] answers
    exactly the stored comments of the video that have no parent, each
    once, the newest first, whether the video is stored or not.
    [GET /:id/replies] answers 404 when no stored comment has the
    identifier, given in canonical form, and otherwise exactly the stored
    comments whose parent is the comment, each once, the oldest first.
    Neither changes the store. *)
Theorem comment_listings now id db :
  (canonical id →
   ∃ l, handle textScore now (GetVideoComments id) db
        = (json (CommentDocs l), db, []) ∧
        NoDup l ∧
        StronglySorted (λ x y, c_createdAt y.2 ≤ c_createdAt x.2)%Z l ∧
        ∀ d, d ∈ l ↔ comments db !! d.1 = Some d.2 ∧
                     c_video d.2 = id ∧ parentComment d.2 = None) ∧
  match comments db !! id with
  | None =>
      canonical id →
      handle textScore now (GetCommentReplies id) db
      = (status_message 404 "Comment not found", db, [])
  | Some _ =>
      ∃ l, handle textScore now (GetCommentReplies id) db
           = (json (CommentDocs l), db, []) ∧
           NoDup l ∧
           StronglySorted (λ x y, c_createdAt x.2 ≤ c_createdAt y.2)%Z l ∧
           ∀ d, d ∈ l ↔ comments db !! d.1 = Some d.2 ∧
                        parentComment d.2 = Some id
  end.
Proof.
  split.
  - intros _. cbn [handle]. rewrite video_comments_eval.
    eexists. split; [done|].
    split; [apply NoDup_sort_by, NoDup_find|].
    split; [apply (sorted_desc by_c_createdAt)|].
    intros d. rewrite elem_of_sort_by, elem_of_find, matches_top_level.
    by rewrite bool_decide_eq_true.
  - cbn [handle]. rewrite comment_replies_eval.
    destruct (comments db !! id); [|done]. eexists. split; [done|].
    split; [apply NoDup_sort_by, NoDup_find|].
    split; [apply (sorted_asc by_c_createdAt)|].
    intros d. rewrite elem_of_sort_by, elem_of_find, matches_parentComment_is.
    by rewrite bool_decide_eq_true.
Qed.

End Listings.

(** ** The answer of the recommendation route *)

Lemma before_popular_order x y :
  before (then_by (desc by_views) (desc by_createdAt)) x y
  ↔ popular_order x y.
Proof.
  unfold before, then_by, desc, popular_order, by_views, by_createdAt.
  destruct (Z.compare_spec (views y.2) (views x.2)) as [Heq|Hlt|Hgt].
  - change ((createdAt y.2 ?= createdAt x.2)%Z ≠ Gt)
      with (createdAt y.2 ≤ createdAt x.2)%Z. lia.
  - split; [by left|done].
  - split; [done|]. lia.
Qed.

Lemma sorted_popular l :
  StronglySorted popular_order
    (sort_by (then_by (desc by_views) (desc by_createdAt)) l).
Proof.
  set (R := before (then_by (desc by_views) (desc by_createdAt))).
  assert (Total R).
  { intros x y. unfold R. rewrite !before_popular_order.
    unfold popular_order. lia. }
  assert (Transitive R).
  { intros x y z. unfold R. rewrite !before_popular_order.
    unfold popular_order. lia. }
  apply (StronglySorted_impl R); [intros x y; apply before_popular_order|].
  apply (StronglySorted_merge_sort R).
Qed.

Lemma length_find_same_category id c (m : gmap string Video) :
  length (find video_path
            (object_literal [("_id", Ne id); ("category", Is c)]) m)
  = size (others_in_category id c m).
Proof.
  unfold others_in_category, find.
  rewrite <- length_map_to_list, map_filter_alt, map_to_list_to_map.
  - f_equal. apply list_filter_iff. intros d.
    by rewrite matches_same_category, bool_decide_eq_true.
  - apply (sublist_NoDup _ (map_to_list m).*1);
      [apply NoDup_fst_map_to_list|].
    apply fmap_sublist, sublist_filter.
Qed.

Section RecommendedAnswer.
Variable textScore : string → Video → option Q.

(** X20. [GET /:id/recommended] answers 404 for an identifier in canonical
    form that no stored video has. For a stored video it answers at most 15
    stored videos, each once. When
    at least 10 other videos have the category of the current video, the
    answer consists of videos of that category only, never contains the
    current video, has at least 10 entries, and is ordered by views, the
    most viewed first and the newer first between equal view counts. *)
Theorem recommended_answer now id db :
  match videos db !! id with
  | None =>
      canonical id →
      handle textScore now (GetVideoRecommended id) db
      = (status_message 404 "Video not found", db, [])
  | Some cur =>
      ∃ vs, handle textScore now (GetVideoRecommended id) db
            = (json (VideoDocs vs), db, []) ∧
            length vs ≤ 15 ∧ NoDup vs ∧
            (∀ d, d ∈ vs → videos db !! d.1 = Some d.2) ∧
            (10 ≤ size (others_in_category id (category cur) (videos db)) →
             10 ≤ length vs ∧
             (∀ d, d ∈ vs → d.1 ≠ id ∧ category d.2 = category cur) ∧
             StronglySorted popular_order vs)
  end.
Proof.
  destruct (videos db !! id) as [cur|] eqn:Hcur.
  2:{ intros _. cbn [handle]. by rewrite video_recommended_eval, Hcur. }
  cbn [handle]. rewrite video_recommended_eval, Hcur. cbv zeta.
  set (found := find video_path
                  (object_literal [("_id", Ne id);
                                   ("category", Is (category cur))]) _).
  set (same := limit 15 _).
  assert (Hlen : length same = 15 `min` length found).
  { subst same. unfold limit. rewrite length_take. unfold sort_by.
    by rewrite merge_sort_Permutation. }
  assert (Hfound : length found
                   = size (others_in_category id (category cur) (videos db)))
    by apply length_find_same_category.
  assert (Hsame : ∀ d, d ∈ same → d.1 ≠ id ∧ category d.2 = category cur ∧
                               videos db !! d.1 = Some d.2).
  { intros d Hd. apply elem_of_limit_sort_by, elem_of_find in Hd as [Hd Hm].
    rewrite matches_same_category in Hm.
    apply bool_decide_eq_true in Hm. tauto. }
  assert (Hnd : NoDup same).
  { apply NoDup_limit_sort_by, NoDup_find. }
  assert (Hsorted : StronglySorted popular_order same).
  { apply StronglySorted_take, sorted_popular. }
  destruct (length same <? 10) eqn:Hlt.
  - apply Nat.ltb_lt in Hlt. eexists. split; [done|].
    split; [|split; [|split]].
    + rewrite length_app.
      pose proof (length_limit (15 - length same)
        (sort_by (desc by_views)
           (find video_path
              (object_literal [("_id", Ne id); ("_id", Nin same.*1)])
              (videos db)))). lia.
    + apply NoDup_app. split; [done|]. split.
      * intros d Hd Hb.
        apply elem_of_limit_sort_by, elem_of_find in Hb as [_ Hm].
        rewrite matches_backfill in Hm. apply bool_decide_eq_true in Hm.
        apply Hm. by apply list_elem_of_fmap_2.
      * apply NoDup_limit_sort_by, NoDup_find.
    + intros d [Hd|Hd]%elem_of_app; [by apply Hsame|].
      by apply elem_of_limit_sort_by, elem_of_find in Hd as [Hd _].
    + intros Hmany. lia.
  - apply Nat.ltb_ge in Hlt. exists same. split; [done|].
    split; [lia|]. split; [done|]. split; [intros d Hd; by apply Hsame|].
    intros _. split; [done|]. split; [|done].
    intros d Hd. destruct (Hsame d Hd) as (? & ? & _). done.
Qed.

End RecommendedAnswer.

(** ** The page of a video *)

Lemma get_video_eval token id db :
  get_video token id db =
    match videos db !! id with
    | None => (inl (status_message 404 "Video not found"), db, [])
    | Some v =>
        match users db !! v_user v with
        | None => (inl (status_message 500 "Server error"), db, [])
        | Some o =>
            (inr {|
               pg_id := id;
               pg_title := title v;
               pg_description := description v;
               pg_videoUrl := videoUrl v;
               pg_thumbnailUrl := thumbnailUrl v;
               pg_duration := duration v;
               pg_user := mkOwner (v_user v) (username o) (profilePicture o)
                            (length (subscribers o));
               pg_views := views v;
               pg_category := category v;
               pg_tags := tags v;
               pg_likes := length (likes v);
               pg_dislikes := length (dislikes v);
               pg_createdAt := createdAt v;
               pg_updatedAt := updatedAt v;
               hasLiked := (λ a, includes a (likes v)) <$> token_user token db;
               hasDisliked :=
                 (λ a, includes a (dislikes v)) <$> token_user token db |},
             db, [])
        end
    end.
Proof.
  unfold get_video, optionalAuth, video_get, try_catch_page, token_user.
  destruct token as [| |a]; route_unfold; cbn [fst snd];
    try destruct (users db !! a) as [u|] eqn:Hu; cbn [fmap option_fmap option_map fst snd];
    (destruct (videos db !! id) as [v|] eqn:Hv; cbn [fst snd]; [|done]);
    (destruct (users db !! v_user v) as [o|]; cbn [fst snd]; [|done]);
    rewrite ?Hv; done.
Qed.

Section Page.
Variable textScore : string → Video → option Q.

(** X21. [GET /:id] behind [optionalAuth] never answers 401 and never
    changes the store; in particular it does not count a view. A missing
    or invalid token, or the token of a user that is not stored, gives the
    answer of an anonymous request. An identifier in canonical form that no
    stored video has is answered 404, and a stored video whose owner is not
    stored 500. The page of a stored video carries the numbers of likes,
    dislikes and subscribers, and for a stored user the same liked and
    disliked flags that [GET /:id/like-status] answers. *)
Theorem video_page token id db :
  let res := get_video token id db in
  res.1.2 = db ∧ res.2 = [] ∧
  (∀ r, res.1.1 = inl r → status r ≠ 401%Z) ∧
  (token_user token db = None → res = get_video NoToken id db) ∧
  match videos db !! id with
  | None =>
      canonical id → res.1.1 = inl (status_message 404 "Video not found")
  | Some v =>
      match users db !! v_user v with
      | None => res.1.1 = inl (status_message 500 "Server error")
      | Some o =>
          ∃ p, res.1.1 = inr p ∧
               pg_views p = views v ∧
               pg_likes p = length (likes v) ∧
               pg_dislikes p = length (dislikes v) ∧
               subscriberCount (pg_user p) = length (subscribers o) ∧
               (token_user token db = None →
                hasLiked p = None ∧ hasDisliked p = None) ∧
               (∀ a now, token_user token db = Some a →
                  ∃ l d, hasLiked p = Some l ∧ hasDisliked p = Some d ∧
                         handle textScore now
                           (GetVideoLikeStatus (ValidToken a) id) db
                         = (json (LikeStatus l d), db, []))
      end
  end.
Proof.
  intros res. subst res. rewrite !get_video_eval.
  split; [by_cases|]. split; [by_cases|]. split.
  { intros r. by_cases; simplify_eq; done. }
  split.
  { intros Hanon. rewrite Hanon. by_cases. }
  destruct (videos db !! id) as [v|] eqn:Hv; [|done].
  destruct (users db !! v_user v) as [o|] eqn:Ho; [|done].
  eexists. split; [done|]. cbn [pg_views pg_likes pg_dislikes pg_user
    subscriberCount hasLiked hasDisliked fst snd].
  split; [done|]. split; [done|]. split; [done|]. split; [done|].
  split; [by intros ->|].
  intros a now Ha. rewrite Ha. eexists _, _. split; [done|]. split; [done|].
  cbn [handle].
  assert (is_Some (users db !! a)) as [u Hu].
  { unfold token_user in Ha. destruct token as [| |b]; try done.
    destruct (users db !! b) eqn:Hb; [|done]. simplify_eq. eauto. }
  by rewrite (authenticated_valid _ _ _ _ Hu), video_like_status_eval, Hv.
Qed.

End Page.

(** ** Tags *)

Lemma chars_rev_app s1 s2 :
  String.list_ascii_of_string (String.rev_app s1 s2)
  = reverse (String.list_ascii_of_string s1) ++ String.list_ascii_of_string s2.
Proof.
  revert s2. induction s1 as [|a s1 IH]; intros s2; [done|].
  cbn [String.rev_app String.list_ascii_of_string]. rewrite IH, reverse_cons.
  by rewrite <- app_assoc.
Qed.

Lemma chars_rev s :
  String.list_ascii_of_string (String.rev s) = reverse (String.list_ascii_of_string s).
Proof. unfold String.rev. rewrite chars_rev_app. apply app_nil_r. Qed.

Lemma chars_inj s1 s2 :
  String.list_ascii_of_string s1 = String.list_ascii_of_string s2 → s1 = s2.
Proof.
  intros H. rewrite <- (String.string_of_list_ascii_of_string s1), H.
  apply String.string_of_list_ascii_of_string.
Qed.

Lemma rev_involutive s : String.rev (String.rev s) = s.
Proof. apply chars_inj. by rewrite !chars_rev, reverse_involutive. Qed.

Lemma trimStart_suffix s :
  ∃ pre, String.list_ascii_of_string s = pre ++ String.list_ascii_of_string (trimStart s).
Proof.
  induction s as [|a s [pre IH]]; [by exists []|].
  cbn [trimStart]. destruct (Ascii.is_space a).
  - exists (a :: pre). cbn [String.list_ascii_of_string]. by rewrite IH.
  - by exists [].
Qed.

Lemma trimStart_clean s a l :
  String.list_ascii_of_string (trimStart s) = a :: l → Ascii.is_space a = false.
Proof.
  induction s as [|b s IH]; [done|]. cbn [trimStart].
  destruct (Ascii.is_space b) eqn:Hb; [done|].
  cbn [String.list_ascii_of_string]. by intros [= <- _].
Qed.

Lemma trimStart_id s :
  (∀ a l, String.list_ascii_of_string s = a :: l → Ascii.is_space a = false) →
  trimStart s = s.
Proof.
  destruct s as [|a s]; [done|]. intros H. cbn [trimStart].
  by rewrite (H a (String.list_ascii_of_string s) eq_refl).
Qed.

(** [trim] twice is [trim] once: the setter [trim: true] of the schema
    does not change a tag that the route has trimmed. *)
Lemma trim_idempotent s : trim (trim s) = trim s.
Proof.
  unfold trim. set (u := trimStart s). set (w := trimStart (String.rev u)).
  assert (Hclean : trimStart (String.rev w) = String.rev w).
  { apply trimStart_id. intros a l Hl. rewrite chars_rev in Hl.
    destruct (trimStart_suffix (String.rev u)) as [pre Hpre]. fold w in Hpre.
    rewrite chars_rev in Hpre.
    assert (Hu : String.list_ascii_of_string u
                 = reverse (String.list_ascii_of_string w) ++ reverse pre).
    { by rewrite <- reverse_app, <- Hpre, reverse_involutive. }
    rewrite Hl in Hu. apply (trimStart_clean s a _ Hu). }
  rewrite Hclean, rev_involutive.
  by rewrite (trimStart_id w) by apply trimStart_clean.
Qed.

Lemma trim_chars s a :
  a ∈ String.list_ascii_of_string (trim s) → a ∈ String.list_ascii_of_string s.
Proof.
  unfold trim. rewrite chars_rev, elem_of_reverse. intros Ha.
  destruct (trimStart_suffix (String.rev (trimStart s))) as [pre Hpre].
  assert (a ∈ String.list_ascii_of_string (String.rev (trimStart s)))
    by (rewrite Hpre, elem_of_app; by right).
  rewrite chars_rev, elem_of_reverse in H.
  destruct (trimStart_suffix s) as [pre' ->]. rewrite elem_of_app. by right.
Qed.

Lemma split_go_length cur s : length (split_go cur s) = S (commas s).
Proof.
  revert cur. induction s as [|a s IH]; intros cur; [done|].
  cbn [split_go]. unfold commas. cbn [String.list_ascii_of_string].
  rewrite filter_cons. destruct (Ascii.eqb_spec a ","%char) as [->|Hne].
  - rewrite decide_True by done. cbn [length]. by rewrite IH.
  - rewrite decide_False by done. apply IH.
Qed.

Lemma split_go_no_comma cur s :
  ","%char ∉ String.list_ascii_of_string cur →
  Forall (λ p, ","%char ∉ String.list_ascii_of_string p) (split_go cur s).
Proof.
  revert cur. induction s as [|a s IH]; intros cur Hcur.
  - constructor; [|done]. by rewrite chars_rev, elem_of_reverse.
  - cbn [split_go]. destruct (Ascii.eqb_spec a ","%char) as [->|Hne].
    + constructor; [by rewrite chars_rev, elem_of_reverse|].
      apply IH. cbn. apply not_elem_of_nil.
    + apply IH. cbn [String.list_ascii_of_string]. rewrite not_elem_of_cons. done.
Qed.

Lemma parse_tags_clean t : Forall clean_tag (parse_tags (Some t)).
Proof.
  unfold parse_tags. destruct (truthy (Some t)); [|done].
  apply Forall_fmap.
  eapply Forall_impl; [apply (split_go_no_comma EmptyString), not_elem_of_nil|].
  intros p Hp. split; [apply trim_idempotent|].
  intros Hin. by apply Hp, trim_chars.
Qed.

Lemma trim_parse_tags tags : trim <$> parse_tags tags = parse_tags tags.
Proof.
  destruct tags as [t|]; [|done].
  pose proof (parse_tags_clean t) as Hclean.
  induction Hclean as [|p l [Hp _] _ IH]; [done|].
  by rewrite fmap_cons, Hp, IH.
Qed.

Section Tags.
Variable textScore : string → Video → option Q.

(** X22. The tags of an upload with text of the ASCII range that is
    answered 201: every piece between the commas of the [tags] string
    becomes one tag, so a non-empty string gives one tag more than it has
    commas and empty pieces are stored as empty tags; no stored tag has
    white space at its ends or contains a comma. An absent or empty [tags]
    string gives no tags. *)
Theorem upload_tags now token fresh probe files body db v db' w :
  ascii_body body = true →
  handle textScore now (PostVideo token fresh probe files body) db
  = (mkResponse 201 (VideoDoc (fresh, v)), db', w) →
  tags v = parse_tags (b_tags body) ∧
  Forall clean_tag (tags v) ∧
  (truthy (b_tags body) = false → tags v = []) ∧
  (∀ t, b_tags body = Some t → t ≠ "" → length (tags v) = S (commas t)).
Proof.
  cbn [handle]. intros _ Hres.
  assert (Htags : tags v = parse_tags (b_tags body)).
  { edestruct (authenticated_cases token) as [(a & u & -> & Hu & Heq)|Hrej].
    - rewrite Heq, video_create_eval in Hres. revert Hres. by_cases.
      simplify_eq. cbn [tags stamp_video]. apply trim_parse_tags.
    - destruct Hrej as [m Hm]. rewrite Hm in Hres. discriminate. }
  split; [done|]. rewrite Htags. split; [|split].
  - destruct (b_tags body) as [t|]; [apply parse_tags_clean|done].
  - unfold parse_tags. destruct (b_tags body) as [t|]; [|done].
    by intros ->.
  - intros t -> Ht. unfold parse_tags.
    assert (Htr : truthy (Some t) = true).
    { simpl. apply String.eqb_neq in Ht. by rewrite Ht. }
    rewrite Htr, length_fmap. apply split_go_length.
Qed.

End Tags.

(** Alice uploads a video with four tags, one of them empty. *)
Lemma upload_tags_witness :
  ascii_body (mkVideoBody (Some "Trip") None None (Some "a, b,,c ")) = true ∧
  ∃ v db' w,
    handle no_text_index 9
      (PostVideo (ValidToken "u1") "v9" None sample_files
         (mkVideoBody (Some "Trip") None None (Some "a, b,,c ")))
      sample_db
    = (mkResponse 201 (VideoDoc ("v9", v)), db', w) ∧
    tags v = ["a"; "b"; ""; "c"] ∧
    length (tags v) = S (commas "a, b,,c ").
Proof.
  let r := eval vm_compute in
    (handle no_text_index 9
       (PostVideo (ValidToken "u1") "v9" None sample_files
          (mkVideoBody (Some "Trip") None None (Some "a, b,,c ")))
       sample_db) in
  assert (H : handle no_text_index 9
                (PostVideo (ValidToken "u1") "v9" None sample_files
                   (mkVideoBody (Some "Trip") None None (Some "a, b,,c ")))
                sample_db = r) by (vm_compute; reflexivity).
  assert (Hb : ascii_body (mkVideoBody (Some "Trip") None None
                             (Some "a, b,,c ")) = true) by reflexivity.
  split; [exact Hb|].
  eexists _, _, _. split; [exact H|].
  split; [reflexivity|].
  refine (proj2 (proj2 (proj2
            (upload_tags no_text_index _ _ _ _ _ _ _ _ _ _ Hb H)))
            "a, b,,c " eq_refl _).
  discriminate.
Defined.

(** ** The profile picture *)

Section ProfilePicture.
Variable textScore : string → Video → option Q.

(** X23. [POST /profile-picture] of a stored user: a failed upload and a
    request without a file are answered 400 and change nothing; an
    uploaded file makes its path, after a slash, the [profilePicture] of
    the caller, whose other fields stay as they are, as do all other users,
    the videos and the comments. Two uploads in a row leave the picture of
    the second. *)
Theorem profile_picture_upload now now' a u upload db :
  users db !! a = Some u →
  let res := handle textScore now
               (PostUserProfilePicture (ValidToken a) upload) db in
  match upload with
  | File path =>
      let u' := mkUser (username u) (bio u) (String.app "/" path)
                  (isAdmin u) (subscribers u) (subscribedTo u) in
      res = (json (UserDoc (Some (a, u'))),
             set_users (<[a := u']> (users db)) db,
             [FindByIdAndUpdate MUser a]) ∧
      ∀ path',
        (handle textScore now'
           (PostUserProfilePicture (ValidToken a) (File path')) res.1.2).1.2
        = (handle textScore now'
             (PostUserProfilePicture (ValidToken a) (File path')) db).1.2
  | _ => status res.1.1 = 400%Z ∧ res.1.2 = db ∧ res.2 = []
  end.
Proof.
  intros Hu res. subst res. cbn [handle].
  rewrite (authenticated_valid _ _ _ _ Hu).
  rewrite (user_profile_picture_eval _ _ _ _ Hu).
  destruct upload as [[|] m| |path]; [done..|]. cbv zeta. split; [done|].
  intros path'. cbn [handle fst snd].
  set (u' := set_profilePicture _ u).
  assert (Hu' : users (set_users (<[a := u']> (users db)) db) !! a = Some u')
    by apply lookup_insert_eq.
  rewrite (authenticated_valid _ _ _ _ Hu').
  rewrite (authenticated_valid _ _ _ _ Hu).
  rewrite (user_profile_picture_eval _ _ _ _ Hu').
  rewrite (user_profile_picture_eval _ _ _ _ Hu).
  cbn [fst snd users set_users]. destruct db as [us vs cs ss].
  unfold set_users. cbn. f_equal. by rewrite insert_insert_eq.
Qed.

End ProfilePicture.

(** Alice uploads a picture. *)
Lemma profile_picture_upload_witness :
  users sample_db !! "u1" = Some alice ∧
  handle no_text_index 3
    (PostUserProfilePicture (ValidToken "u1")
       (File "uploads/profiles/profile-1.png")) sample_db
  = (json (UserDoc (Some ("u1",
       mkUser "alice" "" "/uploads/profiles/profile-1.png" false [] []))),
     set_users
       (<["u1" := mkUser "alice" "" "/uploads/profiles/profile-1.png"
                    false [] []]> (users sample_db)) sample_db,
     [FindByIdAndUpdate MUser "u1"]).
Proof.
  assert (Hu : users sample_db !! "u1" = Some alice) by reflexivity.
  split; [exact Hu|].
  exact (proj1 (profile_picture_upload no_text_index 3 4 "u1" alice
                  (File "uploads/profiles/profile-1.png") sample_db Hu)).
Defined.

(** ** A deleted video *)

Lemma find_top_level_none id (m : gmap string Comment) :
  (∀ k c, m !! k = Some c → c_video c ≠ id) →
  find comment_path
    (object_literal [("video", Is id); ("parentComment", IsNull)]) m = [].
Proof.
  intros Hm. apply elem_of_nil_inv. intros [k c] Hin.
  apply elem_of_find in Hin as [Hk Hmatch].
  rewrite matches_top_level in Hmatch.
  apply bool_decide_eq_true in Hmatch as [Hv _]. by apply (Hm k c).
Qed.

Section Deleted.
Variable textScore : string → Video → option Q.

Lemma video_missing now id b ub fresh body text parent db :
  videos db !! id = None →
  users db !! b = Some ub →
  text ≠ "" →
  Forall (λ r, (handle textScore now r db).1
               = (status_message 404 "Video not found", db))
    (video_requests_on id b fresh body text parent).
Proof.
  intros Hv Hb Ht.
  assert (Htr : truthy (Some text) = true).
  { simpl. apply String.eqb_neq in Ht. by rewrite Ht. }
  unfold video_requests_on.
  repeat (apply Forall_cons; split); [..|by apply Forall_nil]; cbn [handle].
  - by rewrite video_recommended_eval, Hv.
  - by rewrite video_view_eval, Hv.
  - by rewrite (authenticated_valid _ _ _ _ Hb), video_update_eval, Hv.
  - by rewrite (authenticated_valid _ _ _ _ Hb), video_delete_eval, Hv.
  - by rewrite (authenticated_valid _ _ _ _ Hb), video_like_eval, Hv.
  - by rewrite (authenticated_valid _ _ _ _ Hb), video_unlike_eval, Hv.
  - by rewrite (authenticated_valid _ _ _ _ Hb), video_dislike_eval, Hv.
  - by rewrite (authenticated_valid _ _ _ _ Hb), video_undislike_eval, Hv.
  - by rewrite (authenticated_valid _ _ _ _ Hb), video_like_status_eval, Hv.
  - by rewrite (authenticated_valid _ _ _ _ Hb), video_add_comment_eval,
      Htr, Hv.
Qed.

(** X24. After the owner or an administrator has deleted a video, every
    request that looks the video up (recommendations, view, update, a
    second delete, the four engagement routes, the like status, a new
    comment, the page of the video) is answered 404 and changes nothing,
    while [GET /:id/comments], which does not look the video up, answers
    an empty list. *)
Theorem deleted_video_gone now now' a u id v b ub fresh body text parent
    token db :
  users db !! a = Some u →
  videos db !! id = Some v →
  not_authorized (v_user v) (a, u) = false →
  users db !! b = Some ub →
  text ≠ "" →
  let db' := (handle textScore now (DeleteVideo (ValidToken a) id) db).1.2 in
  Forall (λ r, (handle textScore now' r db').1
               = (status_message 404 "Video not found", db'))
    (video_requests_on id b fresh body text parent) ∧
  get_video token id db'
  = (inl (status_message 404 "Video not found"), db', []) ∧
  handle textScore now' (GetVideoComments id) db'
  = (json (CommentDocs []), db', []).
Proof.
  intros Hu Hv Hauth Hb Ht db'.
  assert (Hdb' : db' = set_comments
            (deleteMany comment_path (object_literal [("video", Is id)])
               (comments db))
            (set_videos (delete id (videos db)) db)).
  { subst db'. cbn [handle].
    by rewrite (authenticated_valid _ _ _ _ Hu), video_delete_eval, Hv, Hauth. }
  clearbody db'. subst db'.
  set (db' := set_comments _ _).
  assert (Hgone : videos db' !! id = None) by apply lookup_delete_eq.
  split; [by apply (video_missing _ _ _ ub)|].
  split; [by rewrite get_video_eval, Hgone|].
  cbn [handle]. rewrite video_comments_eval, find_top_level_none; [done|].
  intros k c Hk. cbn [db' comments set_comments set_videos] in Hk.
  apply map_lookup_filter_Some in Hk as [_ Hm]. rewrite matches_video_is in Hm.
  by apply bool_decide_eq_false in Hm.
Qed.

End Deleted.

(** Bob deletes his clip; alice then tries to like it. *)
Lemma deleted_video_gone_witness :
  users sample_db !! "u2" = Some bob ∧
  videos sample_db !! "v1" = Some clip ∧
  not_authorized (v_user clip) ("u2", bob) = false ∧
  users sample_db !! "u1" = Some alice ∧
  "Nice" ≠ "" ∧
  let db' := (handle no_text_index 3 (DeleteVideo (ValidToken "u2") "v1")
                sample_db).1.2 in
  handle no_text_index 4 (GetVideoComments "v1") db'
  = (json (CommentDocs []), db', []).
Proof.
  assert (Hu : users sample_db !! "u2" = Some bob) by reflexivity.
  assert (Hv : videos sample_db !! "v1" = Some clip) by reflexivity.
  assert (Ha : not_authorized (v_user clip) ("u2", bob) = false)
    by reflexivity.
  assert (Hb : users sample_db !! "u1" = Some alice) by reflexivity.
  assert (Ht : "Nice" ≠ "") by discriminate.
  split; [exact Hu|]. split; [exact Hv|]. split; [exact Ha|].
  split; [exact Hb|]. split; [exact Ht|].
  exact (proj2 (proj2 (deleted_video_gone no_text_index 3 4 "u2" bob "v1" clip
                         "u1" alice "c9" (mkVideoBody None None None None)
                         "Nice" None NoToken sample_db Hu Hv Ha Hb Ht))).
Defined.
